(** * i.hyper.indices: catalog, band resolver, expression builder, calculation loop

    A shallow embedding of [i.hyper.indices.py] (GRASS module
    [i.indices.hyper]): the [SpectralIndex] container, the catalog built by
    [HyperspectralIndices._initialize_indices], the methods
    [find_closest_band], [can_calculate_index], [get_band_mapping],
    [list_indices], [get_themes], and the selection and calculation loop of
    [main].

    Modelling conventions.
    - Python [str] values are Rocq strings of 8-bit characters; [upper],
      [lower] and [strip] act on the ASCII letters and ASCII white space.
    - Wavelengths are Python floats in the source.  The feasibility test,
      the role binding and the calculation loop read them as exact rationals
      ([Q]): the range tests compare exactly, and the binding needs only that
      the chosen wavelength is a listed one.  Which wavelength
      [find_closest_band] picks depends on rounding and on NaN: module
      [Double] gives the function on IEEE binary64 values, and the statements
      about the choice are made there.
    - A Python [dict] is an association list in insertion order; assigning to
      a key that is already present keeps the position (and the key object)
      and replaces the value.
    - A raised exception is an explicit result: [None] for [KeyError] and
      [ValueError] inside the methods, a [Crashed] outcome in [main].
    - The raster engine ([mapcalc], [g.rename], [r.colors]) is a state
      machine supplied by the caller; a call answers [false] when it raises
      [CalledModuleError]. *)

From Stdlib Require Import QArith Qabs ZArith String Ascii List Bool Lia Lqa.
From Stdlib Require Import Permutation Sorted DecimalString OrdersEx.
From Stdlib Require Import Floats.SpecFloat.
Import ListNotations.
Open Scope string_scope.

(** ** Python builtins used by the module *)

Module Py.

(** [str.upper] and [str.lower] on ASCII letters. *)
Definition ascii_upper (c : ascii) : ascii :=
  let n := nat_of_ascii c in
  if (97 <=? n)%nat && (n <=? 122)%nat then ascii_of_nat (n - 32) else c.

Definition ascii_lower (c : ascii) : ascii :=
  let n := nat_of_ascii c in
  if (65 <=? n)%nat && (n <=? 90)%nat then ascii_of_nat (n + 32) else c.

Fixpoint map_string (f : ascii -> ascii) (s : string) : string :=
  match s with
  | EmptyString => EmptyString
  | String c r => String (f c) (map_string f r)
  end.

Definition upper : string -> string := map_string ascii_upper.
Definition lower : string -> string := map_string ascii_lower.

(** [str.strip()]: ASCII white space is 9..13, 28..31 and 32. *)
Definition is_space (c : ascii) : bool :=
  let n := nat_of_ascii c in
  ((9 <=? n)%nat && (n <=? 13)%nat) || ((28 <=? n)%nat && (n <=? 32)%nat).

Fixpoint lstrip (s : string) : string :=
  match s with
  | EmptyString => EmptyString
  | String c r => if is_space c then lstrip r else s
  end.

Fixpoint rstrip (s : string) : string :=
  match s with
  | EmptyString => EmptyString
  | String c r =>
      match rstrip r with
      | EmptyString => if is_space c then EmptyString else String c EmptyString
      | r' => String c r'
      end
  end.

Definition strip (s : string) : string := rstrip (lstrip s).

(** [s.split(sep)] for a one-character separator; [''.split(',')] is
    [['']]. *)
Fixpoint split (sep : ascii) (s : string) : list string :=
  match s with
  | EmptyString => [EmptyString]
  | String c r =>
      if Ascii.eqb c sep then EmptyString :: split sep r
      else match split sep r with
           | [] => [String c EmptyString]
           | w :: ws => String c w :: ws
           end
  end.

(** [sub in s]. *)
Fixpoint contains (sub s : string) : bool :=
  prefix sub s ||
  match s with
  | EmptyString => false
  | String _ r => contains sub r
  end.

(** [str(n)] for an [int]. *)
Definition str_of_int (z : Z) : string := NilZero.string_of_int (Z.to_int z).

(** Truth value of a [str]: the empty string is false. *)
Definition truthy (s : string) : bool := negb (String.eqb s "").

(** *** dict *)
Definition dict (K V : Type) : Type := list (K * V).

Section Dict.
Context {K V : Type} (eqb : K -> K -> bool).

(** [d.get(k)]; [d[k]] raises [KeyError] where this is [None]. *)
Fixpoint dict_get (k : K) (d : dict K V) : option V :=
  match d with
  | [] => None
  | (k', v) :: r => if eqb k' k then Some v else dict_get k r
  end.

(** [k in d]. *)
Definition dict_contains (k : K) (d : dict K V) : bool :=
  match dict_get k d with Some _ => true | None => false end.

(** [d[k] = v]. *)
Fixpoint dict_set (k : K) (v : V) (d : dict K V) : dict K V :=
  match d with
  | [] => [(k, v)]
  | (k', v') :: r =>
      if eqb k' k then (k', v) :: r else (k', v') :: dict_set k v r
  end.

(** [dict(pairs)]: the pairs are assigned one after the other. *)
Definition dict_of (pairs : list (K * V)) : dict K V :=
  fold_left (fun d kv => dict_set (fst kv) (snd kv) d) pairs [].
End Dict.

Definition dict_keys {K V : Type} (d : dict K V) : list K := map fst d.
Definition dict_values {K V : Type} (d : dict K V) : list V := map snd d.
Definition dict_items {K V : Type} (d : dict K V) : list (K * V) := d.

(** [zip(xs, ys)] stops at the shorter list. *)
Definition zip {A B : Type} (xs : list A) (ys : list B) : list (A * B) :=
  combine xs ys.

(** [min(l, key=key)]: the first element whose key is not exceeded; the
    running best is replaced only by a strictly smaller key.  [ValueError]
    on the empty list. *)
Definition Qlt_bool (x y : Q) : bool := negb (Qle_bool y x).

Fixpoint min_from {A : Type} (key : A -> Q) (best : A) (l : list A) : A :=
  match l with
  | [] => best
  | x :: r =>
      if Qlt_bool (key x) (key best) then min_from key x r
      else min_from key best r
  end.

Definition min_by {A : Type} (key : A -> Q) (l : list A) : option A :=
  match l with
  | [] => None
  | x :: r => Some (min_from key x r)
  end.

(** [sorted(l)] on pairs with distinct string first components: a stable
    insertion sort on the first component, ordered by code point. *)
Fixpoint insert_by {A : Type} (key : A -> string) (x : A) (l : list A)
  : list A :=
  match l with
  | [] => [x]
  | y :: r =>
      if (key x <? key y)%string then x :: y :: r
      else y :: insert_by key x r
  end.

Definition sorted_by {A : Type} (key : A -> string) (l : list A) : list A :=
  fold_left (fun acc x => insert_by key x acc) l [].

(** [sorted(set(l))] on strings. *)
Definition sorted_set (l : list string) : list string :=
  sorted_by (fun s => s) (nodup string_dec l).

End Py.

Import Py.

(** ** class SpectralIndex *)

Module SI.

(** A requirement of [bands_required]: a [(min, max)] tuple, or a single
    target wavelength (the branch [can_calculate_index] and
    [find_closest_band] take when the value is not a tuple). *)
Inductive wavelength_req : Type :=
  | Range (lo hi : Q)
  | Single (target : Q).

(** The formula lambdas are f-strings over [b['ROLE']] look-ups: a list of
    literal pieces and role references. *)
Inductive piece : Type :=
  | Lit (text : string)
  | Role (role : string).

Record SpectralIndex : Type := {
  name : string;
  description : string;
  formula : list piece;
  bands_required : dict string wavelength_req;
  reference : string;
  theme : string;
  normalize_range : option (Z * Z)
}.

(** Calling [index.formula(b)]: [None] is the [KeyError] of [b[role]]. *)
Fixpoint apply_formula (f : list piece) (b : dict string string)
  : option string :=
  match f with
  | [] => Some ""
  | Lit s :: r =>
      match apply_formula r b with
      | Some t => Some (s ++ t)
      | None => None
      end
  | Role x :: r =>
      match dict_get String.eqb x b with
      | Some v =>
          match apply_formula r b with
          | Some t => Some (v ++ t)
          | None => None
          end
      | None => None
      end
  end.

End SI.

Import SI.

(** ** The catalog of [_initialize_indices] *)

Open Scope Q_scope.

(* indices_db['NDVI'], source line 230 *)
Definition idx_NDVI : SpectralIndex :=
  {| name := "NDVI";
     description := "Normalized Difference Vegetation Index";
     formula :=
       [Lit "float("; Role "NIR"; Lit " - "; Role "RED"; Lit ") / (";
        Role "NIR"; Lit " + "; Role "RED"; Lit ")"];
     bands_required :=
       [("RED", Range 620 690); ("NIR", Range 760 900)];
     reference := "Rouse et al. 1974";
     theme := "vegetation";
     normalize_range := Some (-1, 1)%Z |}.

(* indices_db['EVI'], source line 240 *)
Definition idx_EVI : SpectralIndex :=
  {| name := "EVI";
     description := "Enhanced Vegetation Index";
     formula :=
       [Lit "2.5 * ("; Role "NIR"; Lit " - "; Role "RED"; Lit ") / (";
        Role "NIR"; Lit " + 6 * "; Role "RED"; Lit " - 7.5 * ";
        Role "BLUE"; Lit " + 1)"];
     bands_required :=
       [("BLUE", Range 450 520); ("RED", Range 620 690);
        ("NIR", Range 760 900)];
     reference := "Huete et al. 2002";
     theme := "vegetation";
     normalize_range := Some (-1, 1)%Z |}.

(* indices_db['SAVI'], source line 250 *)
Definition idx_SAVI : SpectralIndex :=
  {| name := "SAVI";
     description := "Soil Adjusted Vegetation Index";
     formula :=
       [Lit "((1 + 0.5) * ("; Role "NIR"; Lit " - "; Role "RED";
        Lit ")) / ("; Role "NIR"; Lit " + "; Role "RED"; Lit " + 0.5)"];
     bands_required :=
       [("RED", Range 620 690); ("NIR", Range 760 900)];
     reference := "Huete 1988";
     theme := "vegetation";
     normalize_range := Some (-1, 1)%Z |}.

(* indices_db['MSAVI'], source line 260 *)
Definition idx_MSAVI : SpectralIndex :=
  {| name := "MSAVI";
     description := "Modified Soil Adjusted Vegetation Index";
     formula :=
       [Lit "(2 * "; Role "NIR"; Lit " + 1 - sqrt((2 * "; Role "NIR";
        Lit " + 1)^2 - 8 * ("; Role "NIR"; Lit " - "; Role "RED";
        Lit "))) / 2"];
     bands_required :=
       [("RED", Range 620 690); ("NIR", Range 760 900)];
     reference := "Qi et al. 1994";
     theme := "vegetation";
     normalize_range := None |}.

(* indices_db['GNDVI'], source line 269 *)
Definition idx_GNDVI : SpectralIndex :=
  {| name := "GNDVI";
     description := "Green Normalized Difference Vegetation Index";
     formula :=
       [Lit "float("; Role "NIR"; Lit " - "; Role "GREEN"; Lit ") / (";
        Role "NIR"; Lit " + "; Role "GREEN"; Lit ")"];
     bands_required :=
       [("GREEN", Range 520 600); ("NIR", Range 760 900)];
     reference := "Gitelson et al. 1996";
     theme := "vegetation";
     normalize_range := Some (-1, 1)%Z |}.

(* indices_db['NDRE'], source line 279 *)
Definition idx_NDRE : SpectralIndex :=
  {| name := "NDRE";
     description := "Normalized Difference Red Edge";
     formula :=
       [Lit "float("; Role "NIR"; Lit " - "; Role "REDEDGE"; Lit ") / (";
        Role "NIR"; Lit " + "; Role "REDEDGE"; Lit ")"];
     bands_required :=
       [("REDEDGE", Range 690 730); ("NIR", Range 760 900)];
     reference := "Gitelson and Merzlyak 1994";
     theme := "vegetation";
     normalize_range := Some (-1, 1)%Z |}.

(* indices_db['CIrededge'], source line 289 *)
Definition idx_CIrededge : SpectralIndex :=
  {| name := "CIrededge";
     description := "Chlorophyll Index Red Edge";
     formula :=
       [Lit "("; Role "NIR"; Lit " / "; Role "REDEDGE"; Lit ") - 1"];
     bands_required :=
       [("REDEDGE", Range 690 730); ("NIR", Range 760 900)];
     reference := "Gitelson et al. 2003";
     theme := "vegetation";
     normalize_range := None |}.

(* indices_db['MTCI'], source line 298 *)
Definition idx_MTCI : SpectralIndex :=
  {| name := "MTCI";
     description := "MERIS Terrestrial Chlorophyll Index";
     formula :=
       [Lit "("; Role "NIR"; Lit " - "; Role "REDEDGE"; Lit ") / (";
        Role "REDEDGE"; Lit " - "; Role "RED"; Lit ")"];
     bands_required :=
       [("RED", Range 620 690); ("REDEDGE", Range 690 730);
        ("NIR", Range 760 900)];
     reference := "Dash and Curran 2004";
     theme := "vegetation";
     normalize_range := None |}.

(* indices_db['MCARI'], source line 307 *)
Definition idx_MCARI : SpectralIndex :=
  {| name := "MCARI";
     description := "Modified Chlorophyll Absorption Ratio Index";
     formula :=
       [Lit "(("; Role "REDEDGE"; Lit " - "; Role "RED"; Lit ") - 0.2 * (";
        Role "REDEDGE"; Lit " - "; Role "GREEN"; Lit ")) * (";
        Role "REDEDGE"; Lit " / "; Role "RED"; Lit ")"];
     bands_required :=
       [("GREEN", Range 520 600); ("RED", Range 620 690);
        ("REDEDGE", Range 690 730)];
     reference := "Daughtry et al. 2000";
     theme := "vegetation";
     normalize_range := None |}.

(* indices_db['REIP'], source line 316 *)
Definition idx_REIP : SpectralIndex :=
  {| name := "REIP";
     description := "Red Edge Inflection Point";
     formula :=
       [Lit "700 + 40 * ((("; Role "RED"; Lit " + "; Role "NIR";
        Lit ") / 2) - "; Role "RE1"; Lit ") / ("; Role "RE2"; Lit " - ";
        Role "RE1"; Lit ")"];
     bands_required :=
       [("RED", Range 620 690); ("RE1", Range 697 712);
        ("RE2", Range 732 748); ("NIR", Range 760 900)];
     reference := "Guyot et al. 1988";
     theme := "vegetation";
     normalize_range := None |}.

(* indices_db['ARVI'], source line 325 *)
Definition idx_ARVI : SpectralIndex :=
  {| name := "ARVI";
     description := "Atmospherically Resistant Vegetation Index";
     formula :=
       [Lit "("; Role "NIR"; Lit " - (2 * "; Role "RED"; Lit " - ";
        Role "BLUE"; Lit ")) / ("; Role "NIR"; Lit " + (2 * "; Role "RED";
        Lit " - "; Role "BLUE"; Lit "))"];
     bands_required :=
       [("BLUE", Range 450 520); ("RED", Range 620 690);
        ("NIR", Range 760 900)];
     reference := "Kaufman and Tanre 1992";
     theme := "vegetation";
     normalize_range := None |}.

(* indices_db['VARI'], source line 334 *)
Definition idx_VARI : SpectralIndex :=
  {| name := "VARI";
     description := "Visible Atmospherically Resistant Index";
     formula :=
       [Lit "("; Role "GREEN"; Lit " - "; Role "RED"; Lit ") / (";
        Role "GREEN"; Lit " + "; Role "RED"; Lit " - "; Role "BLUE";
        Lit ")"];
     bands_required :=
       [("BLUE", Range 450 520); ("GREEN", Range 520 600);
        ("RED", Range 620 690)];
     reference := "Gitelson et al. 2002";
     theme := "vegetation";
     normalize_range := None |}.

(* indices_db['DVI'], source line 343 *)
Definition idx_DVI : SpectralIndex :=
  {| name := "DVI";
     description := "Difference Vegetation Index";
     formula :=
       [Role "NIR"; Lit " - "; Role "RED"];
     bands_required :=
       [("RED", Range 620 690); ("NIR", Range 760 900)];
     reference := "Tucker 1979";
     theme := "vegetation";
     normalize_range := None |}.

(* indices_db['TVI'], source line 352 *)
Definition idx_TVI : SpectralIndex :=
  {| name := "TVI";
     description := "Triangular Vegetation Index";
     formula :=
       [Lit "0.5 * (120 * ("; Role "NIR"; Lit " - "; Role "GREEN";
        Lit ") - 200 * ("; Role "RED"; Lit " - "; Role "GREEN"; Lit "))"];
     bands_required :=
       [("GREEN", Range 520 600); ("RED", Range 620 690);
        ("NIR", Range 760 900)];
     reference := "Broge and Leblanc 2001";
     theme := "vegetation";
     normalize_range := None |}.

(* indices_db['ARI1'], source line 366 *)
Definition idx_ARI1 : SpectralIndex :=
  {| name := "ARI1";
     description := "Anthocyanin Reflectance Index 1";
     formula :=
       [Lit "(1 / "; Role "GREEN"; Lit ") - (1 / "; Role "REDEDGE";
        Lit ")"];
     bands_required :=
       [("GREEN", Range 520 600); ("REDEDGE", Range 690 730)];
     reference := "Gitelson et al. 2001";
     theme := "pigments";
     normalize_range := None |}.

(* indices_db['ARI2'], source line 375 *)
Definition idx_ARI2 : SpectralIndex :=
  {| name := "ARI2";
     description := "Anthocyanin Reflectance Index 2";
     formula :=
       [Role "NIR"; Lit " * ((1 / "; Role "GREEN"; Lit ") - (1 / ";
        Role "REDEDGE"; Lit "))"];
     bands_required :=
       [("GREEN", Range 520 600); ("REDEDGE", Range 690 730);
        ("NIR", Range 760 900)];
     reference := "Gitelson et al. 2001";
     theme := "pigments";
     normalize_range := None |}.

(* indices_db['CRI550'], source line 384 *)
Definition idx_CRI550 : SpectralIndex :=
  {| name := "CRI550";
     description := "Carotenoid Reflectance Index 550";
     formula :=
       [Lit "(1 / "; Role "B510"; Lit ") - (1 / "; Role "B550"; Lit ")"];
     bands_required :=
       [("B510", Range 505 515); ("B550", Range 545 555)];
     reference := "Gitelson et al. 2002";
     theme := "pigments";
     normalize_range := None |}.

(* indices_db['CRI700'], source line 393 *)
Definition idx_CRI700 : SpectralIndex :=
  {| name := "CRI700";
     description := "Carotenoid Reflectance Index 700";
     formula :=
       [Lit "(1 / "; Role "B510"; Lit ") - (1 / "; Role "B700"; Lit ")"];
     bands_required :=
       [("B510", Range 505 515); ("B700", Range 695 705)];
     reference := "Gitelson et al. 2002";
     theme := "pigments";
     normalize_range := None |}.

(* indices_db['CARI'], source line 402 *)
Definition idx_CARI : SpectralIndex :=
  {| name := "CARI";
     description := "Chlorophyll Absorption Ratio Index";
     formula :=
       [Lit "("; Role "RE700"; Lit " / "; Role "RED"; Lit ") * abs(((";
        Role "B550"; Lit " - "; Role "RED"; Lit ") / "; Role "RE700";
        Lit ") + "; Role "RED"; Lit " - "; Role "B550"; Lit ")"];
     bands_required :=
       [("B550", Range 545 555); ("RED", Range 620 690);
        ("RE700", Range 695 705)];
     reference := "Kim et al. 1994";
     theme := "pigments";
     normalize_range := None |}.

(* indices_db['MCARIOSAVI'], source line 411 *)
Definition idx_MCARIOSAVI : SpectralIndex :=
  {| name := "MCARIOSAVI";
     description := "MCARI/OSAVI ratio - Chlorophyll content";
     formula :=
       [Lit "((("; Role "RE700"; Lit " - "; Role "RED"; Lit ") - 0.2 * (";
        Role "RE700"; Lit " - "; Role "GREEN"; Lit ")) * ("; Role "RE700";
        Lit " / "; Role "RED"; Lit ")) / ((1.16 * ("; Role "NIR";
        Lit " - "; Role "RED"; Lit ") / ("; Role "NIR"; Lit " + ";
        Role "RED"; Lit " + 0.16)))"];
     bands_required :=
       [("GREEN", Range 520 600); ("RED", Range 620 690);
        ("RE700", Range 695 705); ("NIR", Range 760 900)];
     reference := "Daughtry et al. 2000";
     theme := "pigments";
     normalize_range := None |}.

(* indices_db['GITELSON'], source line 420 *)
Definition idx_GITELSON : SpectralIndex :=
  {| name := "GITELSON";
     description := "Gitelson Chlorophyll Index";
     formula :=
       [Lit "("; Role "NIR"; Lit " / "; Role "GREEN"; Lit ") - 1"];
     bands_required :=
       [("GREEN", Range 520 600); ("NIR", Range 760 900)];
     reference := "Gitelson et al. 2003";
     theme := "pigments";
     normalize_range := None |}.

(* indices_db['GITELSON2'], source line 429 *)
Definition idx_GITELSON2 : SpectralIndex :=
  {| name := "GITELSON2";
     description := "Gitelson Chlorophyll Index 2";
     formula :=
       [Lit "("; Role "NIR"; Lit " / "; Role "REDEDGE"; Lit ") - 1"];
     bands_required :=
       [("REDEDGE", Range 690 730); ("NIR", Range 760 900)];
     reference := "Gitelson et al. 2003";
     theme := "pigments";
     normalize_range := None |}.

(* indices_db['MCARI1'], source line 438 *)
Definition idx_MCARI1 : SpectralIndex :=
  {| name := "MCARI1";
     description := "Modified Chlorophyll Absorption Ratio Index 1";
     formula :=
       [Lit "1.2 * (2.5 * ("; Role "NIR"; Lit " - "; Role "RED";
        Lit ") - 1.3 * ("; Role "NIR"; Lit " - "; Role "GREEN"; Lit "))"];
     bands_required :=
       [("GREEN", Range 520 600); ("RED", Range 620 690);
        ("NIR", Range 760 900)];
     reference := "Haboudane et al. 2004";
     theme := "pigments";
     normalize_range := None |}.

(* indices_db['MCARI2'], source line 447 *)
Definition idx_MCARI2 : SpectralIndex :=
  {| name := "MCARI2";
     description := "Modified Chlorophyll Absorption Ratio Index 2";
     formula :=
       [Lit "(1.5 * (2.5 * ("; Role "NIR"; Lit " - "; Role "RED";
        Lit ") - 1.3 * ("; Role "NIR"; Lit " - "; Role "GREEN";
        Lit "))) / sqrt((2 * "; Role "NIR"; Lit " + 1)^2 - (6 * ";
        Role "NIR"; Lit " - 5 * sqrt("; Role "RED"; Lit ")) - 0.5)"];
     bands_required :=
       [("GREEN", Range 520 600); ("RED", Range 620 690);
        ("NIR", Range 760 900)];
     reference := "Haboudane et al. 2004";
     theme := "pigments";
     normalize_range := None |}.

(* indices_db['RDVI'], source line 456 *)
Definition idx_RDVI : SpectralIndex :=
  {| name := "RDVI";
     description := "Renormalized Difference Vegetation Index";
     formula :=
       [Lit "("; Role "NIR"; Lit " - "; Role "RED"; Lit ") / sqrt(";
        Role "NIR"; Lit " + "; Role "RED"; Lit ")"];
     bands_required :=
       [("RED", Range 620 690); ("NIR", Range 760 900)];
     reference := "Roujean and Breon 1995";
     theme := "pigments";
     normalize_range := None |}.

(* indices_db['MARI'], source line 465 *)
Definition idx_MARI : SpectralIndex :=
  {| name := "MARI";
     description := "Modified Anthocyanin Reflectance Index";
     formula :=
       [Lit "((1 / "; Role "GREEN"; Lit ") - (1 / "; Role "REDEDGE";
        Lit ")) * "; Role "NIR"];
     bands_required :=
       [("GREEN", Range 520 600); ("REDEDGE", Range 690 730);
        ("NIR", Range 760 900)];
     reference := "Gitelson et al. 2006";
     theme := "pigments";
     normalize_range := None |}.

(* indices_db['VREI1'], source line 474 *)
Definition idx_VREI1 : SpectralIndex :=
  {| name := "VREI1";
     description := "Vogelmann Red Edge Index 1";
     formula :=
       [Role "RE740"; Lit " / "; Role "RE720"];
     bands_required :=
       [("RE720", Range 715 725); ("RE740", Range 735 745)];
     reference := "Vogelmann et al. 1993";
     theme := "pigments";
     normalize_range := None |}.

(* indices_db['VREI2'], source line 483 *)
Definition idx_VREI2 : SpectralIndex :=
  {| name := "VREI2";
     description := "Vogelmann Red Edge Index 2";
     formula :=
       [Lit "("; Role "RE734"; Lit " - "; Role "RE747"; Lit ") / (";
        Role "RE715"; Lit " + "; Role "RE726"; Lit ")"];
     bands_required :=
       [("RE715", Range 710 720); ("RE726", Range 721 731);
        ("RE734", Range 729 739); ("RE747", Range 742 752)];
     reference := "Vogelmann et al. 1993";
     theme := "pigments";
     normalize_range := None |}.

(* indices_db['DD'], source line 492 *)
Definition idx_DD : SpectralIndex :=
  {| name := "DD";
     description := "Double Difference Index - Chlorophyll";
     formula :=
       [Lit "("; Role "RE749"; Lit " - "; Role "RE720"; Lit ") - (";
        Role "RE701"; Lit " - "; Role "RE672"; Lit ")"];
     bands_required :=
       [("RE672", Range 667 677); ("RE701", Range 696 706);
        ("RE720", Range 715 725); ("RE749", Range 744 754)];
     reference := "le Maire et al. 2004";
     theme := "pigments";
     normalize_range := None |}.

(* indices_db['WI'], source line 506 *)
Definition idx_WI : SpectralIndex :=
  {| name := "WI";
     description := "Water Index - Leaf water content";
     formula :=
       [Role "B900"; Lit " / "; Role "B970"];
     bands_required :=
       [("B900", Range 895 905); ("B970", Range 965 975)];
     reference := "Penuelas et al. 1997";
     theme := "metabolism";
     normalize_range := None |}.

(* indices_db['NDWI1240'], source line 515 *)
Definition idx_NDWI1240 : SpectralIndex :=
  {| name := "NDWI1240";
     description := "Normalized Difference Water Index 1240";
     formula :=
       [Lit "("; Role "B860"; Lit " - "; Role "B1240"; Lit ") / (";
        Role "B860"; Lit " + "; Role "B1240"; Lit ")"];
     bands_required :=
       [("B860", Range 855 865); ("B1240", Range 1235 1245)];
     reference := "Gao 1996";
     theme := "metabolism";
     normalize_range := None |}.

(* indices_db['NDWI2130'], source line 524 *)
Definition idx_NDWI2130 : SpectralIndex :=
  {| name := "NDWI2130";
     description := "Normalized Difference Water Index 2130";
     formula :=
       [Lit "("; Role "B860"; Lit " - "; Role "B2130"; Lit ") / (";
        Role "B860"; Lit " + "; Role "B2130"; Lit ")"];
     bands_required :=
       [("B860", Range 855 865); ("B2130", Range 2125 2135)];
     reference := "Gao 1996";
     theme := "metabolism";
     normalize_range := None |}.

(* indices_db['LWCI'], source line 533 *)
Definition idx_LWCI : SpectralIndex :=
  {| name := "LWCI";
     description := "Leaf Water Content Index";
     formula :=
       [Lit "log(1 - ("; Role "B970"; Lit " - "; Role "B900";
        Lit ")) / log(1 - ("; Role "B970"; Lit " - "; Role "B955";
        Lit "))"];
     bands_required :=
       [("B900", Range 895 905); ("B955", Range 950 960);
        ("B970", Range 965 975)];
     reference := "Galvao et al. 2005";
     theme := "metabolism";
     normalize_range := None |}.

(* indices_db['NDII'], source line 542 *)
Definition idx_NDII : SpectralIndex :=
  {| name := "NDII";
     description := "Normalized Difference Infrared Index";
     formula :=
       [Lit "("; Role "B819"; Lit " - "; Role "B1649"; Lit ") / (";
        Role "B819"; Lit " + "; Role "B1649"; Lit ")"];
     bands_required :=
       [("B819", Range 814 824); ("B1649", Range 1644 1654)];
     reference := "Hardisky et al. 1983";
     theme := "metabolism";
     normalize_range := None |}.

(* indices_db['SRWI'], source line 551 *)
Definition idx_SRWI : SpectralIndex :=
  {| name := "SRWI";
     description := "Simple Ratio Water Index";
     formula :=
       [Role "B860"; Lit " / "; Role "B1240"];
     bands_required :=
       [("B860", Range 855 865); ("B1240", Range 1235 1245)];
     reference := "Zarco-Tejada et al. 2003";
     theme := "metabolism";
     normalize_range := None |}.

(* indices_db['DATT'], source line 560 *)
Definition idx_DATT : SpectralIndex :=
  {| name := "DATT";
     description := "Datt Index - Leaf pigment";
     formula :=
       [Lit "("; Role "B850"; Lit " - "; Role "B710"; Lit ") / (";
        Role "B850"; Lit " - "; Role "B680"; Lit ")"];
     bands_required :=
       [("B680", Range 675 685); ("B710", Range 705 715);
        ("B850", Range 845 855)];
     reference := "Datt 1999";
     theme := "metabolism";
     normalize_range := None |}.

(* indices_db['CARTER1'], source line 569 *)
Definition idx_CARTER1 : SpectralIndex :=
  {| name := "CARTER1";
     description := "Carter Index 1 - Stress";
     formula :=
       [Role "B695"; Lit " / "; Role "B420"];
     bands_required :=
       [("B420", Range 415 425); ("B695", Range 690 700)];
     reference := "Carter 1994";
     theme := "metabolism";
     normalize_range := None |}.

(* indices_db['CARTER2'], source line 578 *)
Definition idx_CARTER2 : SpectralIndex :=
  {| name := "CARTER2";
     description := "Carter Index 2 - Stress";
     formula :=
       [Role "B695"; Lit " / "; Role "B760"];
     bands_required :=
       [("B695", Range 690 700); ("B760", Range 755 765)];
     reference := "Carter 1994";
     theme := "metabolism";
     normalize_range := None |}.

(* indices_db['GMI'], source line 587 *)
Definition idx_GMI : SpectralIndex :=
  {| name := "GMI";
     description := "Gamon Index - Photosynthetic efficiency";
     formula :=
       [Role "B750"; Lit " / "; Role "B550"];
     bands_required :=
       [("B550", Range 545 555); ("B750", Range 745 755)];
     reference := "Gamon et al. 1990";
     theme := "metabolism";
     normalize_range := None |}.

(* indices_db['NPQI'], source line 596 *)
Definition idx_NPQI : SpectralIndex :=
  {| name := "NPQI";
     description := "Normalized Phaeophytinization Index";
     formula :=
       [Lit "("; Role "B415"; Lit " - "; Role "B435"; Lit ") / (";
        Role "B415"; Lit " + "; Role "B435"; Lit ")"];
     bands_required :=
       [("B415", Range 410 420); ("B435", Range 430 440)];
     reference := "Barnes et al. 1992";
     theme := "metabolism";
     normalize_range := None |}.

(* indices_db['NPCI'], source line 605 *)
Definition idx_NPCI : SpectralIndex :=
  {| name := "NPCI";
     description := "Normalized Pigment Chlorophyll Index";
     formula :=
       [Lit "("; Role "B680"; Lit " - "; Role "B430"; Lit ") / (";
        Role "B680"; Lit " + "; Role "B430"; Lit ")"];
     bands_required :=
       [("B430", Range 425 435); ("B680", Range 675 685)];
     reference := "Penuelas et al. 1994";
     theme := "metabolism";
     normalize_range := None |}.

(* indices_db['RGRI'], source line 614 *)
Definition idx_RGRI : SpectralIndex :=
  {| name := "RGRI";
     description := "Red-Green Ratio Index";
     formula :=
       [Role "RED"; Lit " / "; Role "GREEN"];
     bands_required :=
       [("GREEN", Range 520 600); ("RED", Range 620 690)];
     reference := "Gamon and Surfus 1999";
     theme := "metabolism";
     normalize_range := None |}.

(* indices_db['CAI'], source line 628 *)
Definition idx_CAI : SpectralIndex :=
  {| name := "CAI";
     description := "Cellulose Absorption Index";
     formula :=
       [Lit "0.5 * ("; Role "SWIR1"; Lit " + "; Role "SWIR2"; Lit ") - ";
        Role "SWIR3"];
     bands_required :=
       [("SWIR1", Range 2000 2100); ("SWIR2", Range 2100 2300);
        ("SWIR3", Range 2000 2100)];
     reference := "Nagler et al. 2000";
     theme := "biochemical";
     normalize_range := None |}.

(* indices_db['NDLI'], source line 637 *)
Definition idx_NDLI : SpectralIndex :=
  {| name := "NDLI";
     description := "Normalized Difference Lignin Index";
     formula :=
       [Lit "(log(1/"; Role "SWIR1"; Lit ") - log(1/"; Role "SWIR2";
        Lit ")) / (log(1/"; Role "SWIR1"; Lit ") + log(1/"; Role "SWIR2";
        Lit "))"];
     bands_required :=
       [("SWIR1", Range 1680 1750); ("SWIR2", Range 1754 1850)];
     reference := "Serrano et al. 2002";
     theme := "biochemical";
     normalize_range := None |}.

(* indices_db['PRI'], source line 646 *)
Definition idx_PRI : SpectralIndex :=
  {| name := "PRI";
     description := "Photochemical Reflectance Index";
     formula :=
       [Lit "("; Role "GREEN1"; Lit " - "; Role "GREEN2"; Lit ") / (";
        Role "GREEN1"; Lit " + "; Role "GREEN2"; Lit ")"];
     bands_required :=
       [("GREEN1", Range 528 532); ("GREEN2", Range 565 570)];
     reference := "Gamon et al. 1992";
     theme := "biochemical";
     normalize_range := Some (-1, 1)%Z |}.

(* indices_db['SIPI'], source line 656 *)
Definition idx_SIPI : SpectralIndex :=
  {| name := "SIPI";
     description := "Structure Insensitive Pigment Index";
     formula :=
       [Lit "("; Role "NIR"; Lit " - "; Role "BLUE"; Lit ") / (";
        Role "NIR"; Lit " - "; Role "RED"; Lit ")"];
     bands_required :=
       [("BLUE", Range 445 455); ("RED", Range 620 690);
        ("NIR", Range 760 900)];
     reference := "Penuelas et al. 1995";
     theme := "biochemical";
     normalize_range := None |}.

(* indices_db['PSRI'], source line 665 *)
Definition idx_PSRI : SpectralIndex :=
  {| name := "PSRI";
     description := "Plant Senescence Reflectance Index";
     formula :=
       [Lit "("; Role "RED"; Lit " - "; Role "GREEN"; Lit ") / ";
        Role "REDEDGE"];
     bands_required :=
       [("GREEN", Range 520 600); ("RED", Range 620 690);
        ("REDEDGE", Range 690 730)];
     reference := "Merzlyak et al. 1999";
     theme := "biochemical";
     normalize_range := None |}.

(* indices_db['NDWI'], source line 679 *)
Definition idx_NDWI : SpectralIndex :=
  {| name := "NDWI";
     description := "Normalized Difference Water Index";
     formula :=
       [Lit "float("; Role "GREEN"; Lit " - "; Role "NIR"; Lit ") / (";
        Role "GREEN"; Lit " + "; Role "NIR"; Lit ")"];
     bands_required :=
       [("GREEN", Range 520 600); ("NIR", Range 760 900)];
     reference := "McFeeters 1996";
     theme := "water";
     normalize_range := Some (-1, 1)%Z |}.

(* indices_db['MNDWI'], source line 689 *)
Definition idx_MNDWI : SpectralIndex :=
  {| name := "MNDWI";
     description := "Modified Normalized Difference Water Index";
     formula :=
       [Lit "float("; Role "GREEN"; Lit " - "; Role "SWIR"; Lit ") / (";
        Role "GREEN"; Lit " + "; Role "SWIR"; Lit ")"];
     bands_required :=
       [("GREEN", Range 520 600); ("SWIR", Range 1550 1750)];
     reference := "Xu 2006";
     theme := "water";
     normalize_range := Some (-1, 1)%Z |}.

(* indices_db['NDMI'], source line 699 *)
Definition idx_NDMI : SpectralIndex :=
  {| name := "NDMI";
     description := "Normalized Difference Moisture Index";
     formula :=
       [Lit "float("; Role "NIR"; Lit " - "; Role "SWIR"; Lit ") / (";
        Role "NIR"; Lit " + "; Role "SWIR"; Lit ")"];
     bands_required :=
       [("NIR", Range 760 900); ("SWIR", Range 1550 1750)];
     reference := "Wilson and Sader 2002";
     theme := "water";
     normalize_range := Some (-1, 1)%Z |}.

(* indices_db['BI'], source line 714 *)
Definition idx_BI : SpectralIndex :=
  {| name := "BI";
     description := "Brightness Index";
     formula :=
       [Lit "sqrt(("; Role "RED"; Lit "^2 + "; Role "GREEN";
        Lit "^2) / 2)"];
     bands_required :=
       [("GREEN", Range 520 600); ("RED", Range 620 690)];
     reference := "Escadafal et al. 1994";
     theme := "soil";
     normalize_range := None |}.

(* indices_db['CI'], source line 723 *)
Definition idx_CI : SpectralIndex :=
  {| name := "CI";
     description := "Coloration Index";
     formula :=
       [Lit "("; Role "RED"; Lit " - "; Role "GREEN"; Lit ") / ";
        Role "RED"];
     bands_required :=
       [("GREEN", Range 520 600); ("RED", Range 620 690)];
     reference := "Escadafal et al. 1994";
     theme := "soil";
     normalize_range := None |}.

(* indices_db['RI'], source line 732 *)
Definition idx_RI : SpectralIndex :=
  {| name := "RI";
     description := "Redness Index";
     formula :=
       [Role "RED"; Lit "^2 / ("; Role "GREEN"; Lit "^3)"];
     bands_required :=
       [("GREEN", Range 520 600); ("RED", Range 620 690)];
     reference := "Madeira et al. 1997";
     theme := "soil";
     normalize_range := None |}.

(* indices_db['NDBI'], source line 746 *)
Definition idx_NDBI : SpectralIndex :=
  {| name := "NDBI";
     description := "Normalized Difference Built-up Index";
     formula :=
       [Lit "float("; Role "SWIR"; Lit " - "; Role "NIR"; Lit ") / (";
        Role "SWIR"; Lit " + "; Role "NIR"; Lit ")"];
     bands_required :=
       [("NIR", Range 760 900); ("SWIR", Range 1550 1750)];
     reference := "Zha et al. 2003";
     theme := "urban";
     normalize_range := Some (-1, 1)%Z |}.

(* indices_db['UI'], source line 756 *)
Definition idx_UI : SpectralIndex :=
  {| name := "UI";
     description := "Urban Index";
     formula :=
       [Lit "("; Role "SWIR"; Lit " - "; Role "NIR"; Lit ") / (";
        Role "SWIR"; Lit " + "; Role "NIR"; Lit ")"];
     bands_required :=
       [("NIR", Range 760 900); ("SWIR", Range 1550 1750)];
     reference := "Kawamura et al. 1996";
     theme := "urban";
     normalize_range := None |}.

(* indices_db['MSI'], source line 770 *)
Definition idx_MSI : SpectralIndex :=
  {| name := "MSI";
     description := "Moisture Stress Index";
     formula :=
       [Role "SWIR"; Lit " / "; Role "NIR"];
     bands_required :=
       [("NIR", Range 760 900); ("SWIR", Range 1550 1750)];
     reference := "Rock et al. 1986";
     theme := "stress";
     normalize_range := None |}.

(* indices_db['NDNI'], source line 779 *)
Definition idx_NDNI : SpectralIndex :=
  {| name := "NDNI";
     description := "Normalized Difference Nitrogen Index";
     formula :=
       [Lit "(log(1/"; Role "NIR1"; Lit ") - log(1/"; Role "NIR2";
        Lit ")) / (log(1/"; Role "NIR1"; Lit ") + log(1/"; Role "NIR2";
        Lit "))"];
     bands_required :=
       [("NIR1", Range 1510 1520); ("NIR2", Range 1680 1690)];
     reference := "Serrano et al. 2002";
     theme := "stress";
     normalize_range := None |}.

(* indices_db['TCARI'], source line 788 *)
Definition idx_TCARI : SpectralIndex :=
  {| name := "TCARI";
     description := "Transformed Chlorophyll Absorption Ratio";
     formula :=
       [Lit "3 * (("; Role "REDEDGE"; Lit " - "; Role "RED";
        Lit ") - 0.2 * ("; Role "REDEDGE"; Lit " - "; Role "GREEN";
        Lit ") * ("; Role "REDEDGE"; Lit " / "; Role "RED"; Lit "))"];
     bands_required :=
       [("GREEN", Range 520 600); ("RED", Range 620 690);
        ("REDEDGE", Range 690 730)];
     reference := "Haboudane et al. 2002";
     theme := "stress";
     normalize_range := None |}.

(* indices_db['HI'], source line 803 *)
Definition idx_HI : SpectralIndex :=
  {| name := "HI";
     description := "Hydrocarbon Index - Oil & gas detection";
     formula :=
       [Lit "("; Role "SWIR2200"; Lit " * "; Role "SWIR2400"; Lit ") / (";
        Role "SWIR2300"; Lit "^2)"];
     bands_required :=
       [("SWIR2200", Range 2195 2205); ("SWIR2300", Range 2295 2305);
        ("SWIR2400", Range 2395 2405)];
     reference := "Cloutis 1989";
     theme := "materials";
     normalize_range := None |}.

(* indices_db['THI'], source line 812 *)
Definition idx_THI : SpectralIndex :=
  {| name := "THI";
     description := "Tentative Hydrocarbon Index";
     formula :=
       [Lit "("; Role "SWIR1730"; Lit " + "; Role "SWIR2450";
        Lit ") / (2 * "; Role "SWIR2210"; Lit ")"];
     bands_required :=
       [("SWIR1730", Range 1725 1735); ("SWIR2210", Range 2205 2215);
        ("SWIR2450", Range 2445 2455)];
     reference := "Kühn et al. 2004";
     theme := "materials";
     normalize_range := None |}.

(* indices_db['OHI'], source line 821 *)
Definition idx_OHI : SpectralIndex :=
  {| name := "OHI";
     description := "Oil and Hydrocarbon Index";
     formula :=
       [Lit "("; Role "SWIR1650"; Lit " + "; Role "SWIR2450"; Lit ") / ";
        Role "SWIR2210"];
     bands_required :=
       [("SWIR1650", Range 1645 1655); ("SWIR2210", Range 2205 2215);
        ("SWIR2450", Range 2445 2455)];
     reference := "Lammoglia and Filho 2011";
     theme := "materials";
     normalize_range := None |}.

(* indices_db['TPI'], source line 830 *)
Definition idx_TPI : SpectralIndex :=
  {| name := "TPI";
     description := "Tar/Petroleum Index";
     formula :=
       [Role "SWIR2300"; Lit " / "; Role "SWIR1650"];
     bands_required :=
       [("SWIR1650", Range 1645 1655); ("SWIR2300", Range 2295 2305)];
     reference := "Martinez and Le Toan 2007";
     theme := "materials";
     normalize_range := None |}.

(* indices_db['COAL'], source line 839 *)
Definition idx_COAL : SpectralIndex :=
  {| name := "COAL";
     description := "Coal/Carbon Index";
     formula :=
       [Lit "("; Role "SWIR2200"; Lit " / "; Role "SWIR1600"; Lit ") * (";
        Role "SWIR2200"; Lit " / "; Role "NIR"; Lit ")"];
     bands_required :=
       [("NIR", Range 760 900); ("SWIR1600", Range 1595 1605);
        ("SWIR2200", Range 2195 2205)];
     reference := "van der Meer 1995";
     theme := "materials";
     normalize_range := None |}.

(* indices_db['PLASTIC'], source line 849 *)
Definition idx_PLASTIC : SpectralIndex :=
  {| name := "PLASTIC";
     description := "Plastic Detection Index";
     formula :=
       [Lit "("; Role "NIR"; Lit " / "; Role "SWIR1600"; Lit ") - (";
        Role "SWIR2200"; Lit " / "; Role "SWIR1600"; Lit ")"];
     bands_required :=
       [("NIR", Range 760 900); ("SWIR1600", Range 1595 1605);
        ("SWIR2200", Range 2195 2205)];
     reference := "Garaba and Dierssen 2018";
     theme := "materials";
     normalize_range := None |}.

(* indices_db['PDI'], source line 858 *)
Definition idx_PDI : SpectralIndex :=
  {| name := "PDI";
     description := "Plastic Debris Index";
     formula :=
       [Lit "("; Role "NIR"; Lit " - "; Role "RED"; Lit ") / (";
        Role "NIR"; Lit " + "; Role "RED"; Lit ") - ("; Role "SWIR1600";
        Lit " - "; Role "NIR"; Lit ") / ("; Role "SWIR1600"; Lit " + ";
        Role "NIR"; Lit ")"];
     bands_required :=
       [("RED", Range 620 690); ("NIR", Range 760 900);
        ("SWIR1600", Range 1595 1605)];
     reference := "Biermann et al. 2020";
     theme := "materials";
     normalize_range := None |}.

(* indices_db['FPI'], source line 867 *)
Definition idx_FPI : SpectralIndex :=
  {| name := "FPI";
     description := "Floating Plastic Index";
     formula :=
       [Role "NIR"; Lit " / ("; Role "RED"; Lit " + "; Role "SWIR1600";
        Lit ") * 100"];
     bands_required :=
       [("RED", Range 620 690); ("NIR", Range 760 900);
        ("SWIR1600", Range 1595 1605)];
     reference := "Themistocleous et al. 2020";
     theme := "materials";
     normalize_range := None |}.

(* indices_db['RSWIR'], source line 876 *)
Definition idx_RSWIR : SpectralIndex :=
  {| name := "RSWIR";
     description := "Reversed SWIR Index - Marine debris";
     formula :=
       [Role "SWIR1600"; Lit " / "; Role "NIR"];
     bands_required :=
       [("NIR", Range 760 900); ("SWIR1600", Range 1595 1605)];
     reference := "Kikaki et al. 2020";
     theme := "materials";
     normalize_range := None |}.

(* indices_db['NDPI'], source line 885 *)
Definition idx_NDPI : SpectralIndex :=
  {| name := "NDPI";
     description := "Normalized Difference Plastic Index";
     formula :=
       [Lit "("; Role "SWIR1650"; Lit " - "; Role "NIR"; Lit ") / (";
        Role "SWIR1650"; Lit " + "; Role "NIR"; Lit ")"];
     bands_required :=
       [("NIR", Range 760 900); ("SWIR1650", Range 1645 1655)];
     reference := "Themistocleous et al. 2020";
     theme := "materials";
     normalize_range := None |}.

(* indices_db['MPDI'], source line 894 *)
Definition idx_MPDI : SpectralIndex :=
  {| name := "MPDI";
     description := "Marine Plastic Detection Index";
     formula :=
       [Lit "("; Role "B490"; Lit " - "; Role "B560"; Lit ") / (";
        Role "B490"; Lit " + "; Role "B560"; Lit ") + ("; Role "B665";
        Lit " - "; Role "B865"; Lit ") / ("; Role "B665"; Lit " + ";
        Role "B865"; Lit ")"];
     bands_required :=
       [("B490", Range 485 495); ("B560", Range 555 565);
        ("B665", Range 660 670); ("B865", Range 860 870)];
     reference := "Biermann et al. 2020";
     theme := "materials";
     normalize_range := None |}.

(* indices_db['FERRIC'], source line 904 *)
Definition idx_FERRIC : SpectralIndex :=
  {| name := "FERRIC";
     description := "Ferric Iron Index";
     formula :=
       [Role "SWIR1650"; Lit " / "; Role "B830"];
     bands_required :=
       [("B830", Range 825 835); ("SWIR1650", Range 1645 1655)];
     reference := "Segal 1982";
     theme := "materials";
     normalize_range := None |}.

(* indices_db['FERROUS'], source line 913 *)
Definition idx_FERROUS : SpectralIndex :=
  {| name := "FERROUS";
     description := "Ferrous Iron Index";
     formula :=
       [Role "SWIR1650"; Lit " / "; Role "B1550"];
     bands_required :=
       [("B1550", Range 1545 1555); ("SWIR1650", Range 1645 1655)];
     reference := "Segal 1982";
     theme := "materials";
     normalize_range := None |}.

(* indices_db['LATERITE'], source line 922 *)
Definition idx_LATERITE : SpectralIndex :=
  {| name := "LATERITE";
     description := "Laterite Index - Iron-rich materials";
     formula :=
       [Lit "("; Role "SWIR1650"; Lit " + "; Role "RED"; Lit ") / ";
        Role "NIR"];
     bands_required :=
       [("RED", Range 620 690); ("NIR", Range 760 900);
        ("SWIR1650", Range 1645 1655)];
     reference := "Pour and Hashim 2012";
     theme := "materials";
     normalize_range := None |}.

(* indices_db['GOSSAN'], source line 931 *)
Definition idx_GOSSAN : SpectralIndex :=
  {| name := "GOSSAN";
     description := "Gossan Index - Weathered sulfides";
     formula :=
       [Lit "("; Role "RED"; Lit " * "; Role "SWIR1650"; Lit ") / (";
        Role "GREEN"; Lit "^2)"];
     bands_required :=
       [("GREEN", Range 520 600); ("RED", Range 620 690);
        ("SWIR1650", Range 1645 1655)];
     reference := "Rajendran and Nasir 2019";
     theme := "materials";
     normalize_range := None |}.

(* indices_db['SINDEX'], source line 940 *)
Definition idx_SINDEX : SpectralIndex :=
  {| name := "SINDEX";
     description := "S-Index - Soil/sediment composition";
     formula :=
       [Lit "sqrt("; Role "RED"; Lit " * "; Role "NIR"; Lit ")"];
     bands_required :=
       [("RED", Range 620 690); ("NIR", Range 760 900)];
     reference := "Escadafal and Huete 1991";
     theme := "materials";
     normalize_range := None |}.

(* indices_db['PAINT'], source line 950 *)
Definition idx_PAINT : SpectralIndex :=
  {| name := "PAINT";
     description := "Paint Detection Index (synthetic coatings)";
     formula :=
       [Lit "("; Role "B450"; Lit " + "; Role "B650"; Lit ") / (2 * ";
        Role "B550"; Lit ")"];
     bands_required :=
       [("B450", Range 445 455); ("B550", Range 545 555);
        ("B650", Range 645 655)];
     reference := "Based on pigment absorption features";
     theme := "materials";
     normalize_range := None |}.

(* indices_db['ASPHALT'], source line 959 *)
Definition idx_ASPHALT : SpectralIndex :=
  {| name := "ASPHALT";
     description := "Asphalt/Bitumen Index";
     formula :=
       [Lit "("; Role "SWIR1600"; Lit " - "; Role "SWIR2200"; Lit ") / (";
        Role "SWIR1600"; Lit " + "; Role "SWIR2200"; Lit ")"];
     bands_required :=
       [("SWIR1600", Range 1595 1605); ("SWIR2200", Range 2195 2205)];
     reference := "Herold et al. 2004";
     theme := "materials";
     normalize_range := None |}.

(* indices_db['CONCRETE'], source line 968 *)
Definition idx_CONCRETE : SpectralIndex :=
  {| name := "CONCRETE";
     description := "Concrete Detection Index";
     formula :=
       [Lit "("; Role "B500"; Lit " + "; Role "SWIR2200"; Lit ") / ";
        Role "NIR"];
     bands_required :=
       [("B500", Range 495 505); ("NIR", Range 760 900);
        ("SWIR2200", Range 2195 2205)];
     reference := "Dópido et al. 2012";
     theme := "materials";
     normalize_range := None |}.

(** The assignments [self.indices_db[KEY] = SpectralIndex(...)], in source order. *)
Definition catalog_assignments : list (string * SpectralIndex) :=
  [("NDVI", idx_NDVI); ("EVI", idx_EVI); ("SAVI", idx_SAVI);
   ("MSAVI", idx_MSAVI); ("GNDVI", idx_GNDVI); ("NDRE", idx_NDRE);
   ("CIrededge", idx_CIrededge); ("MTCI", idx_MTCI); ("MCARI", idx_MCARI);
   ("REIP", idx_REIP); ("ARVI", idx_ARVI); ("VARI", idx_VARI);
   ("DVI", idx_DVI); ("TVI", idx_TVI); ("ARI1", idx_ARI1);
   ("ARI2", idx_ARI2); ("CRI550", idx_CRI550); ("CRI700", idx_CRI700);
   ("CARI", idx_CARI); ("MCARIOSAVI", idx_MCARIOSAVI);
   ("GITELSON", idx_GITELSON); ("GITELSON2", idx_GITELSON2);
   ("MCARI1", idx_MCARI1); ("MCARI2", idx_MCARI2); ("RDVI", idx_RDVI);
   ("MARI", idx_MARI); ("VREI1", idx_VREI1); ("VREI2", idx_VREI2);
   ("DD", idx_DD); ("WI", idx_WI); ("NDWI1240", idx_NDWI1240);
   ("NDWI2130", idx_NDWI2130); ("LWCI", idx_LWCI); ("NDII", idx_NDII);
   ("SRWI", idx_SRWI); ("DATT", idx_DATT); ("CARTER1", idx_CARTER1);
   ("CARTER2", idx_CARTER2); ("GMI", idx_GMI); ("NPQI", idx_NPQI);
   ("NPCI", idx_NPCI); ("RGRI", idx_RGRI); ("CAI", idx_CAI);
   ("NDLI", idx_NDLI); ("PRI", idx_PRI); ("SIPI", idx_SIPI);
   ("PSRI", idx_PSRI); ("NDWI", idx_NDWI); ("MNDWI", idx_MNDWI);
   ("NDMI", idx_NDMI); ("BI", idx_BI); ("CI", idx_CI); ("RI", idx_RI);
   ("NDBI", idx_NDBI); ("UI", idx_UI); ("MSI", idx_MSI); ("NDNI", idx_NDNI);
   ("TCARI", idx_TCARI); ("HI", idx_HI); ("THI", idx_THI); ("OHI", idx_OHI);
   ("TPI", idx_TPI); ("COAL", idx_COAL); ("PLASTIC", idx_PLASTIC);
   ("PDI", idx_PDI); ("FPI", idx_FPI); ("RSWIR", idx_RSWIR);
   ("NDPI", idx_NDPI); ("MPDI", idx_MPDI); ("FERRIC", idx_FERRIC);
   ("FERROUS", idx_FERROUS); ("LATERITE", idx_LATERITE);
   ("GOSSAN", idx_GOSSAN); ("SINDEX", idx_SINDEX); ("PAINT", idx_PAINT);
   ("ASPHALT", idx_ASPHALT); ("CONCRETE", idx_CONCRETE)].

(** [_initialize_indices]: every assignment, one after the other, on the
    dict it is given. *)
Definition initialize_indices (self_indices_db : dict string SpectralIndex)
  : dict string SpectralIndex :=
  fold_left (fun d kv => dict_set String.eqb (fst kv) (snd kv) d)
    catalog_assignments self_indices_db.

(** [HyperspectralIndices.__init__]: the empty dict, then
    [_initialize_indices]. *)
Definition indices_db : dict string SpectralIndex := initialize_indices [].

(** ** class HyperspectralIndices *)

Module HyperspectralIndices.

(** [target_center] of [find_closest_band]: the centre of a range, or the
    single target itself. *)
Definition target_center (wavelength_target : wavelength_req) : Q :=
  match wavelength_target with
  | Range lo hi => (lo + hi) / 2
  | Single w => w
  end.

(** [find_closest_band] with the wavelengths read as exact rationals (no
    NaN, no rounding; [Double.find_closest_band] below is the function on
    floats): [None] is the [ValueError] of [min] on an empty list. *)
Definition find_closest_band (wavelength_target : wavelength_req)
    (available_wavelengths : list Q) : option Q :=
  let c := target_center wavelength_target in
  min_by (fun x => Qabs (x - c)) available_wavelengths.

(** The test of the inner loop of [can_calculate_index] on one
    wavelength. *)
Definition wl_matches (wavelength_range : wavelength_req) (wl : Q) : bool :=
  match wavelength_range with
  | Range lo hi => Qle_bool lo wl && Qle_bool wl hi
  | Single t => Qlt_bool (Qabs (wl - t)) 50
  end.

(** The inner loop: [found] after scanning [available_wavelengths]. *)
Definition found (wavelength_range : wavelength_req)
    (available_wavelengths : list Q) : bool :=
  existsb (wl_matches wavelength_range) available_wavelengths.

(** The second component of the result of [can_calculate_index]:
    ["Index not found"], ["Required band {band_name} ({wavelength_range}
    nm) not available"], or ["OK"]. *)
Inductive message : Type :=
  | Index_not_found
  | Required_band_not_available (band_name : string)
      (wavelength_range : wavelength_req)
  | OK.

(** The outer loop over [index.bands_required.items()]. *)
Fixpoint check_bands (items : list (string * wavelength_req))
    (available_wavelengths : list Q) : bool * message :=
  match items with
  | [] => (true, OK)
  | (band_name, wavelength_range) :: rest =>
      if found wavelength_range available_wavelengths
      then check_bands rest available_wavelengths
      else (false, Required_band_not_available band_name wavelength_range)
  end.

Definition can_calculate_index (self : dict string SpectralIndex)
    (index_name : string) (available_wavelengths : list Q)
  : bool * message :=
  match dict_get String.eqb (upper index_name) self with
  | None => (false, Index_not_found)
  | Some index =>
      check_bands (dict_items (bands_required index)) available_wavelengths
  end.

(** The loop of [get_band_mapping]; [None] is an escaping [ValueError]
    (of [min]) or [KeyError] (of [wavelength_to_band[closest_wl]]). *)
Fixpoint bind_roles (items : list (string * wavelength_req))
    (wavelength_to_band : dict Q string) (available_wl : list Q)
    (mapping : dict string string) : option (dict string string) :=
  match items with
  | [] => Some mapping
  | (band_name, wavelength_range) :: rest =>
      match find_closest_band wavelength_range available_wl with
      | None => None
      | Some closest_wl =>
          match dict_get Qeq_bool closest_wl wavelength_to_band with
          | None => None
          | Some band =>
              bind_roles rest wavelength_to_band available_wl
                (dict_set String.eqb band_name band mapping)
          end
      end
  end.

(** [get_band_mapping]; [None] also when [self.indices_db[...]] raises
    [KeyError]. *)
Definition get_band_mapping (self : dict string SpectralIndex)
    (index_name : string) (wavelength_to_band : dict Q string)
  : option (dict string string) :=
  match dict_get String.eqb (upper index_name) self with
  | None => None
  | Some index =>
      bind_roles (dict_items (bands_required index)) wavelength_to_band
        (dict_keys wavelength_to_band) []
  end.

(** The loop test of [list_indices]: [theme and index.theme != theme]
    skips the entry. *)
Definition skipped_by_theme (theme : option string) (index : SpectralIndex)
  : bool :=
  match theme with
  | None => false
  | Some t => truthy t && negb (String.eqb (SI.theme index) t)
  end.

Definition list_indices (self : dict string SpectralIndex)
    (theme : option string) : list SpectralIndex :=
  map snd
    (filter (fun kv => negb (skipped_by_theme theme (snd kv)))
       (sorted_by fst (dict_items self))).

Definition get_themes (self : dict string SpectralIndex) : list string :=
  sorted_set (map SI.theme (dict_values self)).

End HyperspectralIndices.

Import HyperspectralIndices.

(** ** main *)

(** The option strings and flags returned by [gs.parser()]; an option that
    was not given is the empty string. *)
Record options : Type := {
  opt_input : string;
  opt_wavelengths : string;
  opt_output_prefix : string;
  opt_indices : string;
  opt_theme : string
}.

Record flags : Type := {
  flag_l : bool;
  flag_i : bool;
  flag_n : bool
}.

(** The calls [main] makes into the raster engine. *)
Inductive engine_call : Type :=
  | Mapcalc (expression : string)
  | GRename (raster : string)
  | RColors (map_name color : string).

(** The [gs.fatal] exits of the validation block. *)
Inductive fatal_error : Type :=
  | Input_not_set
  | Wavelengths_not_set
  | Output_prefix_not_set
  | Invalid_wavelength_values
  | Band_count_mismatch (bands wavelengths : nat).

(** What happened to one requested index; the three [Skipped] reasons are
    the three [gs.warning] calls of the loop. *)
Inductive outcome : Type :=
  | Calculated
  | Skipped_not_found
  | Skipped_cannot_calculate (msg : message)
  | Skipped_failed
  | Crashed.

Inductive main_result : Type :=
  | Listed
  | Fatal (err : fatal_error)
  | Uncaught
  | Summary (calculated skipped : nat).

(** [float(wl)] on decimal digit strings; enough for the examples. *)
Definition float_of_digits (s : string) : option Q :=
  option_map (fun u => inject_Z (Z.of_uint u)) (NilZero.uint_of_string s).

(** The index selection block: theme first, then the literal [all], then the
    comma-separated list. *)
Definition select_indices (self : dict string SpectralIndex)
    (indices_str theme : string) : list string :=
  if truthy theme then map name (list_indices self (Some theme))
  else if String.eqb (lower indices_str) "all" then dict_keys self
  else map (fun idx => upper (strip idx)) (split "," indices_str).

(** The normalization statements of the [try] block. *)
Definition norm_formula (output_name : string) (range : Z * Z) : string :=
  let '(min_val, max_val) := range in
  "(" ++ output_name ++ " - " ++ str_of_int min_val ++ ") / (" ++
  str_of_int max_val ++ " - " ++ str_of_int min_val ++ ")".

Definition normalization_calls (n : bool) (index_def : SpectralIndex)
    (output_name : string) : list engine_call :=
  match normalize_range index_def with
  | Some range =>
      if n then
        let temp_name := output_name ++ "_temp" in
        [Mapcalc (temp_name ++ " = " ++ norm_formula output_name range);
         GRename (temp_name ++ "," ++ output_name)]
      else []
  | None => []
  end.

(** The colour table chosen at the end of the [try] block. *)
Definition color_table (index_name : string) (index_def : SpectralIndex)
  : string :=
  if contains "NDV" index_name || contains "EVI" index_name
     || String.eqb (theme index_def) "vegetation" then "ndvi"
  else if String.eqb (theme index_def) "water" then "water"
  else "viridis".

(** All engine calls of the [try] block, in program order.  None of them
    depends on the answer of an earlier one, only on its not raising. *)
Definition try_block_calls (n : bool) (index_name output_name formula : string)
    (index_def : SpectralIndex) : list engine_call :=
  Mapcalc (output_name ++ " = " ++ formula)
  :: normalization_calls n index_def output_name
  ++ [RColors output_name (color_table index_name index_def)].

Section Main.

(** [float]: [None] is [ValueError]. *)
Variable float : string -> option Q.

(** The raster engine: a call either returns ([true]) or raises
    [CalledModuleError] ([false]), and moves the engine to a new state. *)
Variable Engine : Type.
Variable engine : engine_call -> Engine -> bool * Engine.

(** Run the calls in order up to and including the first one that raises;
    the trace lists the calls that were made. *)
Fixpoint run_calls (cs : list engine_call) (e : Engine)
  : bool * Engine * list engine_call :=
  match cs with
  | [] => (true, e, [])
  | c :: rest =>
      let '(ok, e1) := engine c e in
      if ok then
        let '(ok', e2, made) := run_calls rest e1 in (ok', e2, c :: made)
      else (false, e1, [c])
  end.

(** One iteration of the calculation loop. *)
Definition process_index (self : dict string SpectralIndex)
    (wavelengths : list Q) (wavelength_to_band : dict Q string)
    (output_prefix : string) (n : bool) (index_name : string) (e : Engine)
  : outcome * Engine * list engine_call :=
  if negb (dict_contains String.eqb index_name self)
  then (Skipped_not_found, e, [])
  else
    let '(can_calc, msg) := can_calculate_index self index_name wavelengths in
    if negb can_calc then (Skipped_cannot_calculate msg, e, [])
    else
      match get_band_mapping self index_name wavelength_to_band with
      | None => (Crashed, e, [])
      | Some band_mapping =>
          match dict_get String.eqb index_name self with
          | None => (Crashed, e, [])
          | Some index_def =>
              match apply_formula (formula index_def) band_mapping with
              | None => (Crashed, e, [])
              | Some formula =>
                  let output_name := output_prefix ++ "_" ++ index_name in
                  let '(ok, e', made) :=
                    run_calls
                      (try_block_calls n index_name output_name formula
                         index_def) e in
                  (if ok then Calculated else Skipped_failed, e', made)
              end
          end
      end.

(** The state carried round the loop: the two counters, the engine, the
    engine calls made so far and the outcome recorded for every index
    processed so far. *)
Record loop_state : Type := {
  calculated : nat;
  skipped : nat;
  engine_state : Engine;
  calls : list engine_call;
  outcomes : list (string * outcome)
}.

Definition record_outcome (st : loop_state) (index_name : string)
    (o : outcome) (e : Engine) (made : list engine_call) : loop_state :=
  {| calculated :=
       match o with Calculated => S (calculated st) | _ => calculated st end;
     skipped :=
       match o with
       | Calculated | Crashed => skipped st
       | _ => S (skipped st)
       end;
     engine_state := e;
     calls := calls st ++ made;
     outcomes := outcomes st ++ [(index_name, o)] |}.

(** [for index_name in indices_to_calc]; the second component is [false]
    when an exception left the loop. *)
Fixpoint calculation_loop (self : dict string SpectralIndex)
    (wavelengths : list Q) (wavelength_to_band : dict Q string)
    (output_prefix : string) (n : bool) (indices_to_calc : list string)
    (st : loop_state) : loop_state * bool :=
  match indices_to_calc with
  | [] => (st, true)
  | index_name :: rest =>
      let '(o, e, made) :=
        process_index self wavelengths wavelength_to_band output_prefix n
          index_name (engine_state st) in
      let st' := record_outcome st index_name o e made in
      match o with
      | Crashed => (st', false)
      | _ =>
          calculation_loop self wavelengths wavelength_to_band output_prefix
            n rest st'
      end
  end.

Definition initial_state (e : Engine) : loop_state :=
  {| calculated := 0; skipped := 0; engine_state := e; calls := [];
     outcomes := [] |}.

(** [[float(wl) for wl in wavelengths_str]]. *)
Fixpoint parse_wavelengths (l : list string) : option (list Q) :=
  match l with
  | [] => Some []
  | s :: r =>
      match float s, parse_wavelengths r with
      | Some w, Some ws => Some (w :: ws)
      | _, _ => None
      end
  end.

Definition main (options : options) (flags : flags) (e : Engine)
  : main_result * loop_state :=
  let indices_obj := indices_db in
  if flag_l flags then (Listed, initial_state e)
  else if negb (truthy (opt_input options))
  then (Fatal Input_not_set, initial_state e)
  else if negb (truthy (opt_wavelengths options))
  then (Fatal Wavelengths_not_set, initial_state e)
  else if negb (truthy (opt_output_prefix options))
  then (Fatal Output_prefix_not_set, initial_state e)
  else
    let input_bands := split "," (opt_input options) in
    let wavelengths_str := split "," (opt_wavelengths options) in
    match parse_wavelengths wavelengths_str with
    | None => (Fatal Invalid_wavelength_values, initial_state e)
    | Some wavelengths =>
        if negb (length input_bands =? length wavelengths)%nat
        then (Fatal (Band_count_mismatch (length input_bands)
                       (length wavelengths)), initial_state e)
        else
          let wavelength_to_band :=
            dict_of Qeq_bool (zip wavelengths input_bands) in
          let indices_to_calc :=
            select_indices indices_obj (opt_indices options)
              (opt_theme options) in
          let '(st, finished) :=
            calculation_loop indices_obj wavelengths wavelength_to_band
              (opt_output_prefix options) (flag_n flags) indices_to_calc
              (initial_state e) in
          if finished then (Summary (calculated st) (skipped st), st)
          else (Uncaught, st)
    end.

End Main.

(** An engine that records nothing and never raises, and one that raises on
    every call. *)
Definition engine_ok (c : engine_call) (e : unit) : bool * unit := (true, e).
Definition engine_failing (c : engine_call) (e : unit) : bool * unit :=
  (false, e).

(** ** Arithmetic expressions of the raster calculator

    The part of the [r.mapcalc] expression language that the [NDVI] formula
    and the normalization step produce, with its concrete syntax and its value
    over the rationals; [float(e)] is a coercion and leaves the value
    unchanged. *)
Inductive expr : Type :=
  | Var (raster : string)
  | Num (z : Z)
  | Add (a b : expr)
  | Sub (a b : expr)
  | Div (a b : expr)
  | Float (a : expr)
  | Paren (a : expr).

Fixpoint print_expr (e : expr) : string :=
  match e with
  | Var r => r
  | Num z => str_of_int z
  | Add a b => print_expr a ++ " + " ++ print_expr b
  | Sub a b => print_expr a ++ " - " ++ print_expr b
  | Div a b => print_expr a ++ " / " ++ print_expr b
  | Float a => "float(" ++ print_expr a ++ ")"
  | Paren a => "(" ++ print_expr a ++ ")"
  end.

Fixpoint eval_expr (env : string -> Q) (e : expr) : Q :=
  match e with
  | Var r => env r
  | Num z => inject_Z z
  | Add a b => eval_expr env a + eval_expr env b
  | Sub a b => eval_expr env a - eval_expr env b
  | Div a b => eval_expr env a / eval_expr env b
  | Float a => eval_expr env a
  | Paren a => eval_expr env a
  end.

(** ** Specification-side predicates *)

(** The point [find_closest_band] measures distances to. *)
Definition target_point (t : wavelength_req) : Q :=
  match t with
  | Range lo hi => (lo + hi) / 2
  | Single v => v
  end.


(** The value the last pair with a key equal to [k] gives it: in a dict
    built from [l], later pairs hide earlier ones. *)
Fixpoint last_match {K V : Type} (eqb : K -> K -> bool) (k : K)
    (l : list (K * V)) : option V :=
  match l with
  | [] => None
  | (k', v) :: r =>
      match last_match eqb k r with
      | Some x => Some x
      | None => if eqb k' k then Some v else None
      end
  end.

(** *** Checks on catalog entries *)

(** The roles a formula looks up. *)
Fixpoint formula_roles (f : list piece) : list string :=
  match f with
  | [] => []
  | Lit _ :: r => formula_roles r
  | Role x :: r => x :: formula_roles r
  end.

Definition string_in (x : string) (l : list string) : bool :=
  existsb (String.eqb x) l.

Fixpoint distinct (l : list string) : bool :=
  match l with
  | [] => true
  | x :: r => negb (string_in x r) && distinct r
  end.

(** The role names of [bands_required] are pairwise distinct and are exactly
    the roles of the formula. *)
Definition index_well_formed (index : SpectralIndex) : bool :=
  let roles := dict_keys (bands_required index) in
  distinct roles
  && forallb (fun r => string_in r roles) (formula_roles (formula index))
  && forallb (fun r => string_in r (formula_roles (formula index))) roles.

(** An entry is stored under its own name, has a theme, and is the entry the
    upper-cased key leads to whenever that key leads anywhere. *)
Definition entry_consistent (self : dict string SpectralIndex)
    (kv : string * SpectralIndex) : bool :=
  index_well_formed (snd kv)
  && String.eqb (name (snd kv)) (fst kv)
  && truthy (theme (snd kv))
  && (negb (dict_contains String.eqb (upper (fst kv)) self)
      || String.eqb (upper (fst kv)) (fst kv)).

(** *** Reading the outcome log *)

Definition is_calculated (o : string * outcome) : bool :=
  match snd o with Calculated => true | _ => false end.

Definition is_crashed (o : string * outcome) : bool :=
  match snd o with Crashed => true | _ => false end.

(** *** Expressions the claims name *)

(** [float(b2 - b1) / (b2 + b1)]. *)
Definition ndvi_b1_b2 : expr :=
  Div (Float (Sub (Var "b2") (Var "b1"))) (Paren (Add (Var "b2") (Var "b1"))).

(** [(result - lo) / (hi - lo)] over the raster [result]. *)
Definition rescale (result : string) (lo hi : Z) : expr :=
  Div (Paren (Sub (Var result) (Num lo))) (Paren (Sub (Num hi) (Num lo))).

(** *** Order of names *)

(** Code-point order on strings, as a relation. *)
Definition string_lt (a b : string) : Prop := (a <? b)%string = true.

Definition name_lt (a b : SpectralIndex) : Prop := string_lt (name a) (name b).

(** Every element is below its successor. *)
Fixpoint ascending (l : list string) : bool :=
  match l with
  | [] => true
  | x :: r =>
      match r with
      | [] => true
      | y :: _ => (x <? y)%string && ascending r
      end
  end.

(** The listing of every theme that [get_themes] returns, one after the
    other. *)
Definition all_theme_listings (self : dict string SpectralIndex)
  : list SpectralIndex :=
  concat (map (fun t => list_indices self (Some t)) (get_themes self)).

(** *** Keys of a dict built from pairs *)

(** The members of [l] that equal no earlier member and no member of
    [seen], in order. *)
Fixpoint first_occurrences {K : Type} (eqb : K -> K -> bool)
    (seen l : list K) : list K :=
  match l with
  | [] => []
  | x :: r =>
      if existsb (fun s => eqb s x) seen then first_occurrences eqb seen r
      else x :: first_occurrences eqb (seen ++ [x]) r
  end.

(** *** One band at the centre of every requirement *)

Definition centre_wavelengths (index : SpectralIndex) : list Q :=
  map (fun kv => target_point (snd kv)) (bands_required index).

(** A proper range: a tuple with [lo <= hi]. *)
Definition proper_range (req : wavelength_req) : bool :=
  match req with
  | Range lo hi => Qle_bool lo hi
  | Single _ => false
  end.

(** The palette the colour step would choose from the theme alone. *)
Definition palette_of_theme (t : string) : string :=
  if String.eqb t "vegetation" then "ndvi"
  else if String.eqb t "water" then "water"
  else "viridis".

(** *** list_available_indices *)









(** ** find_closest_band on double-precision floats *)

Module Double.

(** A Python float: an IEEE binary64 value. *)
Definition float : Type := spec_float.
Definition prec : Z := 53.
Definition emax : Z := 1024.

(** The float of an int (the conversion of an int operand). *)
Definition of_int (z : Z) : float := binary_normalize prec emax z 0 false.

Definition nan : float := S754_nan.

Definition is_nan (x : float) : bool :=
  match x with
  | S754_nan => true
  | _ => false
  end.

Definition sub : float -> float -> float := SFsub prec emax.
Definition div : float -> float -> float := SFdiv prec emax.
Definition abs : float -> float := SFabs.
Definition ltb : float -> float -> bool := SFltb.
Definition leb : float -> float -> bool := SFleb.

(** The real number a finite float stands for. *)
Definition value (x : float) : Q :=
  match x with
  | S754_finite s m e =>
      (if s then - inject_Z (Zpos m) else inject_Z (Zpos m)) * 2 ^ e
  | _ => 0
  end.

(** A Python number: an int (unbounded) or a float. *)
Inductive number : Type :=
  | Int (n : Z)
  | Float (x : float).

(** The argument [wavelength_target]: a tuple (every [bands_required] entry
    of the catalog is a tuple of two ints) or a single value. *)
Inductive wavelength_target : Type :=
  | Range (lo hi : number)
  | Single (target : number).

(** [None] is [OverflowError]: an operation on ints whose float result is
    out of range raises instead of giving an infinity. *)
Definition in_range (x : float) : option float :=
  match x with
  | S754_infinity _ => None
  | _ => Some x
  end.

(** The conversion of an int operand in arithmetic with a float. *)
Definition to_float (v : number) : option float :=
  match v with
  | Int n => in_range (of_int n)
  | Float x => Some x
  end.

(** [a + b]: exact on two ints, in double precision otherwise. *)
Definition add (a b : number) : option number :=
  match a, b with
  | Int x, Int y => Some (Int (x + y))
  | _, _ =>
      match to_float a, to_float b with
      | Some x, Some y => Some (Float (SFadd prec emax x y))
      | _, _ => None
      end
  end.

(** [v / 2]: true division of an int by an int gives the quotient rounded
    to the nearest float; a float is divided by [2.0]. *)
Definition half (v : number) : option float :=
  match v with
  | Int n => in_range (binary_normalize prec emax n (-1) false)
  | Float x => Some (div x (of_int 2))
  end.

(** [(wavelength_target[0] + wavelength_target[1]) / 2] for a tuple, the
    value itself otherwise (as the float that [x - target_center] makes of
    it). *)
Definition target_center (t : wavelength_target) : option float :=
  match t with
  | Range lo hi =>
      match add lo hi with
      | Some s => half s
      | None => None
      end
  | Single v => to_float v
  end.

(** A tuple of two ints. *)
Definition range (lo hi : Z) : wavelength_target := Range (Int lo) (Int hi).

(** The key of [min]: [abs(x - target_center)]. *)
Definition distance (target_center x : float) : float :=
  abs (sub x target_center).

(** [min(l, key=key)] with float keys compared by [<]. *)
Fixpoint min_from {A : Type} (key : A -> float) (best : A) (l : list A) : A :=
  match l with
  | [] => best
  | x :: r =>
      if ltb (key x) (key best) then min_from key x r
      else min_from key best r
  end.

Definition min_by {A : Type} (key : A -> float) (l : list A) : option A :=
  match l with
  | [] => None
  | x :: r => Some (min_from key x r)
  end.

(** [None] is an [OverflowError] of the arithmetic on the target or the
    [ValueError] of [min] on an empty list. *)
Definition find_closest_band (wavelength_target : wavelength_target)
    (available_wavelengths : list float) : option float :=
  match target_center wavelength_target with
  | None => None
  | Some c => min_by (distance c) available_wavelengths
  end.

(** [w] is the earliest member of [ws] whose key no member undercuts. *)
Definition earliest_least (key : float -> float) (ws : list float) (w : float)
  : Prop :=
  exists pre post,
    ws = (pre ++ w :: post)%list
    /\ (forall x, In x pre -> ltb (key w) (key x) = true)
    /\ (forall x, In x post -> leb (key w) (key x) = true).

(** The place of a float in the order of [<]: sign class first, then
    exponent, then mantissa. *)
Definition rank (x : float) : Z * Z * Z :=
  match x with
  | S754_zero _ => (0, 0, 0)%Z
  | S754_infinity true => (-2, 0, 0)%Z
  | S754_infinity false => (2, 0, 0)%Z
  | S754_nan => (3, 0, 0)%Z
  | S754_finite false m e => (1, e, Zpos m)%Z
  | S754_finite true m e => (-1, - e, Zneg m)%Z
  end.

Definition rank_lt (a b : Z * Z * Z) : Prop :=
  let '(a1, a2, a3) := a in
  let '(b1, b2, b3) := b in
  (a1 < b1 \/ (a1 = b1 /\ (a2 < b2 \/ (a2 = b2 /\ a3 < b3))))%Z.

Definition rank_le (a b : Z * Z * Z) : Prop :=
  let '(a1, a2, a3) := a in
  let '(b1, b2, b3) := b in
  (a1 < b1 \/ (a1 = b1 /\ (a2 < b2 \/ (a2 = b2 /\ a3 <= b3))))%Z.

(** The floats of [float("300")] and of [float("300.00000000000006")], the
    next double above it. *)
Definition f300 : float := of_int 300.
Definition f300_next : float := S754_finite false 5277655813324801 (-44).

End Double.

(** ** Facts about the builtins *)

Lemma Qlt_bool_true (x y : Q) : Qlt_bool x y = true <-> x < y.
Proof.
  unfold Qlt_bool. rewrite negb_true_iff.
  split; intro H.
  - apply Qnot_le_lt. intro Hle. apply Qle_bool_iff in Hle. congruence.
  - destruct (Qle_bool y x) eqn:E; [|reflexivity].
    apply Qle_bool_iff in E. exfalso. apply (Qlt_not_le _ _ H E).
Qed.

Lemma Qlt_bool_false (x y : Q) : Qlt_bool x y = false <-> y <= x.
Proof.
  unfold Qlt_bool. rewrite negb_false_iff. apply Qle_bool_iff.
Qed.

(** [min_from] keeps the first element of least key: everything before the
    result has a strictly larger key, everything after a key at least as
    large. *)
Lemma min_from_first_least {A : Type} (key : A -> Q) (l : list A) :
  forall (seen : list A) (best : A) (mid : list A),
    (forall x, In x seen -> key best < key x) ->
    (forall x, In x mid -> key best <= key x) ->
    exists pre post,
      (seen ++ best :: mid ++ l = pre ++ min_from key best l :: post)%list
      /\ (forall x, In x pre -> key (min_from key best l) < key x)
      /\ (forall x, In x post -> key (min_from key best l) <= key x).
Proof.
  induction l as [|x l IH]; intros seen best mid Hseen Hmid; simpl.
  - exists seen, mid. rewrite app_nil_r. auto.
  - destruct (Qlt_bool (key x) (key best)) eqn:E.
    + apply Qlt_bool_true in E.
      destruct (IH (seen ++ best :: mid)%list x []) as (pre & post & Heq & Hpre & Hpost).
      * intros y Hy. apply in_app_or in Hy. destruct Hy as [Hy|[Hy|Hy]].
        -- specialize (Hseen y Hy). lra.
        -- subst y. exact E.
        -- specialize (Hmid y Hy). lra.
      * intros y [].
      * exists pre, post. split; [|auto].
        rewrite <- Heq. simpl. rewrite <- app_assoc. reflexivity.
    + apply Qlt_bool_false in E.
      destruct (IH seen best (mid ++ [x])%list) as (pre & post & Heq & Hpre & Hpost).
      * exact Hseen.
      * intros y Hy. apply in_app_or in Hy. destruct Hy as [Hy|[Hy|[]]].
        -- auto.
        -- subst y. exact E.
      * exists pre, post. split; [|auto].
        rewrite <- Heq. rewrite <- app_assoc. reflexivity.
Qed.

Lemma min_by_first_least {A : Type} (key : A -> Q) (l : list A) :
  l <> [] ->
  exists m pre post,
    min_by key l = Some m /\ l = (pre ++ m :: post)%list
    /\ (forall x, In x pre -> key m < key x)
    /\ (forall x, In x post -> key m <= key x).
Proof.
  destruct l as [|a l]; [congruence|]. intros _.
  destruct (min_from_first_least key l [] a []) as (pre & post & Heq & Hpre & Hpost).
  - intros x [].
  - intros x [].
  - exists (min_from key a l), pre, post. simpl in *. auto.
Qed.

Lemma target_center_point (t : wavelength_req) :
  target_center t = target_point t.
Proof. destruct t; reflexivity. Qed.

(** ** The feasibility check *)








(** ** Facts about dicts *)

Section DictFacts.
Context {K V : Type} (eqb : K -> K -> bool).
Hypothesis eqb_refl : forall k, eqb k k = true.
Hypothesis eqb_sym : forall a b, eqb a b = eqb b a.
Hypothesis eqb_trans :
  forall a b c, eqb a b = true -> eqb b c = true -> eqb a c = true.

Lemma dict_get_of_key (k : K) (d : dict K V) :
  In k (dict_keys d) -> exists v, dict_get eqb k d = Some v.
Proof.
  induction d as [|[k' v'] d IH]; simpl; [intros []|].
  intros [Heq|Hin].
  - subst k'. rewrite eqb_refl. eauto.
  - destruct (eqb k' k); eauto.
Qed.

Lemma dict_get_set (k k' : K) (v : V) (d : dict K V) :
  dict_get eqb k (dict_set eqb k' v d)
  = if eqb k' k then Some v else dict_get eqb k d.
Proof.
  induction d as [|[k0 v0] d IH]; simpl.
  - reflexivity.
  - destruct (eqb k0 k') eqn:E0; simpl.
    + destruct (eqb k0 k) eqn:E1.
      * rewrite (eqb_trans k' k0 k); [reflexivity| |exact E1].
        rewrite eqb_sym. exact E0.
      * destruct (eqb k' k) eqn:E2; [|reflexivity].
        rewrite (eqb_trans k0 k' k E0 E2) in E1. discriminate.
    + destruct (eqb k0 k) eqn:E1.
      * destruct (eqb k' k) eqn:E2; [|reflexivity].
        assert (eqb k0 k' = true).
        { apply (eqb_trans k0 k k' E1). rewrite eqb_sym. exact E2. }
        congruence.
      * exact IH.
Qed.

Lemma dict_get_fold_set (k : K) (l : list (K * V)) :
  forall acc,
    dict_get eqb k
      (fold_left (fun d kv => dict_set eqb (fst kv) (snd kv) d) l acc)
    = match last_match eqb k l with
      | Some v => Some v
      | None => dict_get eqb k acc
      end.
Proof.
  induction l as [|[k' v] l IH]; intro acc; simpl; [reflexivity|].
  rewrite IH. destruct (last_match eqb k l); [reflexivity|].
  rewrite dict_get_set. destruct (eqb k' k); reflexivity.
Qed.

Lemma dict_get_dict_of (k : K) (l : list (K * V)) :
  dict_get eqb k (dict_of eqb l) = last_match eqb k l.
Proof.
  unfold dict_of. rewrite dict_get_fold_set.
  destruct (last_match eqb k l); reflexivity.
Qed.

Lemma dict_set_nonempty (k : K) (v : V) (d : dict K V) :
  dict_set eqb k v d <> [].
Proof.
  destruct d as [|[k0 v0] d]; simpl; [discriminate|].
  destruct (eqb k0 k); discriminate.
Qed.

Lemma fold_set_nonempty (l : list (K * V)) :
  forall acc,
    acc <> [] ->
    fold_left (fun d kv => dict_set eqb (fst kv) (snd kv) d) l acc <> [].
Proof.
  induction l as [|[k' v'] l IH]; intros acc Hacc; simpl; [exact Hacc|].
  apply IH. apply dict_set_nonempty.
Qed.

Lemma dict_of_nonempty (l : list (K * V)) : l <> [] -> dict_of eqb l <> [].
Proof.
  destruct l as [|[k v] l]; [congruence|]. intros _.
  unfold dict_of. cbn [fold_left fst snd].
  apply fold_set_nonempty. apply dict_set_nonempty.
Qed.

End DictFacts.

Lemma Qeq_bool_sym (a b : Q) : Qeq_bool a b = Qeq_bool b a.
Proof.
  destruct (Qeq_bool a b) eqn:E1, (Qeq_bool b a) eqn:E2; try reflexivity.
  - apply Qeq_bool_iff in E1. symmetry in E1. apply Qeq_bool_iff in E1.
    congruence.
  - apply Qeq_bool_iff in E2. symmetry in E2. apply Qeq_bool_iff in E2.
    congruence.
Qed.

Lemma Qeq_bool_trans (a b c : Q) :
  Qeq_bool a b = true -> Qeq_bool b c = true -> Qeq_bool a c = true.
Proof.
  rewrite !Qeq_bool_iff. intros H1 H2. now rewrite H1.
Qed.

Lemma Qeq_bool_reflexive (a : Q) : Qeq_bool a a = true.
Proof. apply Qeq_bool_iff. reflexivity. Qed.

Lemma string_eqb_sym (a b : string) : String.eqb a b = String.eqb b a.
Proof.
  destruct (String.eqb_spec a b), (String.eqb_spec b a); congruence.
Qed.

Lemma string_eqb_trans (a b c : string) :
  String.eqb a b = true -> String.eqb b c = true -> String.eqb a c = true.
Proof. rewrite !String.eqb_eq. congruence. Qed.

(** With string keys: assigning a key that is not yet present appends it. *)
Lemma dict_set_fresh {V : Type} (k : string) (v : V) (d : dict string V) :
  ~ In k (dict_keys d) -> dict_set String.eqb k v d = (d ++ [(k, v)])%list.
Proof.
  induction d as [|[k0 v0] d IH]; simpl; intro Hnin; [reflexivity|].
  destruct (String.eqb_spec k0 k) as [->|Hne]; [tauto|].
  rewrite IH; [reflexivity|tauto].
Qed.

Lemma dict_get_string_some_in {V : Type} (k : string) (v : V)
    (d : dict string V) :
  dict_get String.eqb k d = Some v -> In (k, v) d.
Proof.
  induction d as [|[k0 v0] d IH]; simpl; [discriminate|].
  destruct (String.eqb_spec k0 k) as [->|Hne].
  - intros H. inversion H. now left.
  - intros H. right. auto.
Qed.

Lemma dict_contains_string_in {V : Type} (k : string) (d : dict string V) :
  dict_contains String.eqb k d = true ->
  exists v, dict_get String.eqb k d = Some v /\ In (k, v) d.
Proof.
  unfold dict_contains. destruct (dict_get String.eqb k d) as [v|] eqn:E;
    [|discriminate].
  intros _. exists v. split; [reflexivity|].
  now apply dict_get_string_some_in.
Qed.

(** ** Facts about the catalog *)

Lemma string_in_iff (x : string) (l : list string) :
  string_in x l = true <-> In x l.
Proof.
  unfold string_in. rewrite existsb_exists. split.
  - intros (y & Hin & Heq). apply String.eqb_eq in Heq. now subst.
  - intros Hin. exists x. split; [exact Hin|apply String.eqb_refl].
Qed.

Lemma distinct_NoDup (l : list string) : distinct l = true -> NoDup l.
Proof.
  induction l as [|x l IH]; simpl; [constructor|].
  rewrite andb_true_iff, negb_true_iff. intros [Hx Hl].
  constructor; [|auto].
  intro Hin. apply string_in_iff in Hin. congruence.
Qed.

Lemma catalog_consistent :
  forallb (entry_consistent indices_db) indices_db = true.
Proof. vm_compute. reflexivity. Qed.

Lemma catalog_entry (k : string) (index : SpectralIndex) :
  dict_get String.eqb k indices_db = Some index ->
  entry_consistent indices_db (k, index) = true.
Proof.
  intros H. apply dict_get_string_some_in in H.
  exact (proj1 (forallb_forall _ _) catalog_consistent _ H).
Qed.

Lemma catalog_entry_facts (k : string) (index : SpectralIndex) :
  dict_get String.eqb k indices_db = Some index ->
  NoDup (dict_keys (bands_required index))
  /\ (forall r, In r (formula_roles (formula index)) <->
                In r (dict_keys (bands_required index)))
  /\ name index = k
  /\ theme index <> ""
  /\ (forall index', dict_get String.eqb (upper k) indices_db = Some index' ->
                     index' = index).
Proof.
  intros Hget. pose proof (catalog_entry k index Hget) as H.
  unfold entry_consistent, index_well_formed in H. cbn [fst snd] in H.
  rewrite !andb_true_iff in H.
  destruct H as [[[[[Hd Hsub] Hsup] Hname] Hth] Hup].
  split; [now apply distinct_NoDup|].
  split.
  { intro r. split; intro Hin.
    - apply string_in_iff.
      exact (proj1 (forallb_forall _ _) Hsub r Hin).
    - apply string_in_iff.
      exact (proj1 (forallb_forall _ _) Hsup r Hin). }
  split; [now apply String.eqb_eq|].
  split.
  { unfold truthy in Hth. rewrite negb_true_iff in Hth.
    now apply String.eqb_neq. }
  intros index' Hget'. apply orb_true_iff in Hup. destruct Hup as [Hup|Hup].
  - unfold dict_contains in Hup. rewrite Hget' in Hup. discriminate.
  - apply String.eqb_eq in Hup. rewrite Hup in Hget'. congruence.
Qed.

(** ** Role binding *)

Lemma find_closest_band_in (req : wavelength_req) (ws : list Q) :
  ws <> [] -> exists w, find_closest_band req ws = Some w /\ In w ws.
Proof.
  intros Hne. unfold find_closest_band.
  destruct (min_by_first_least (fun x => Qabs (x - target_center req)) ws Hne)
    as (m & pre & post & Hm & Heq & _).
  exists m. split; [exact Hm|]. rewrite Heq. apply in_elt.
Qed.

Lemma dict_get_string_key {V : Type} (k : string) (v : V) (d : dict string V) :
  dict_get String.eqb k d = Some v -> In k (dict_keys d).
Proof.
  intros H. apply dict_get_string_some_in in H.
  unfold dict_keys. change k with (fst (k, v)). now apply in_map.
Qed.

(** On a non-empty wavelength list whose members all have a band, the loop
    of [get_band_mapping] binds every role, in order, to the band of the
    wavelength [find_closest_band] picks among all of them. *)
Lemma bind_roles_total (wavelength_to_band : dict Q string)
    (available_wl : list Q)
    (Hne : available_wl <> [])
    (Hall : forall w, In w available_wl ->
              exists b, dict_get Qeq_bool w wavelength_to_band = Some b)
    (items : list (string * wavelength_req)) :
  forall mapping,
    NoDup (dict_keys mapping ++ map fst items) ->
    exists m,
      bind_roles items wavelength_to_band available_wl mapping = Some m
      /\ dict_keys m = (dict_keys mapping ++ map fst items)%list
      /\ (forall role req, In (role, req) items ->
            exists w b,
              find_closest_band req available_wl = Some w
              /\ dict_get Qeq_bool w wavelength_to_band = Some b
              /\ dict_get String.eqb role m = Some b)
      /\ (forall k v, dict_get String.eqb k mapping = Some v ->
                      dict_get String.eqb k m = Some v).
Proof.
  induction items as [|[role req] items IH]; intros mapping Hnd; simpl.
  - exists mapping. rewrite app_nil_r. repeat split; auto. intros ? ? [].
  - destruct (find_closest_band_in req available_wl Hne) as (w & Hw & Hin).
    destruct (Hall w Hin) as (b & Hb). rewrite Hw, Hb.
    assert (Hfresh : ~ In role (dict_keys mapping)).
    { intro Hr. apply NoDup_remove_2 in Hnd. apply Hnd.
      apply in_or_app. now left. }
    rewrite (dict_set_fresh role b mapping Hfresh).
    destruct (IH (mapping ++ [(role, b)])%list) as (m & Hm & Hkeys & Hroles & Hkeep).
    { unfold dict_keys. rewrite map_app. simpl. rewrite <- app_assoc.
      exact Hnd. }
    exists m. split; [exact Hm|]. split.
    { rewrite Hkeys. unfold dict_keys. rewrite map_app, <- app_assoc.
      reflexivity. }
    assert (Hrole : dict_get String.eqb role m = Some b).
    { apply Hkeep. rewrite <- (dict_set_fresh role b mapping Hfresh).
      rewrite (dict_get_set String.eqb string_eqb_sym string_eqb_trans).
      now rewrite String.eqb_refl. }
    split.
    + intros r q [Heq|Hin'].
      * inversion Heq; subst. exists w, b. auto.
      * apply Hroles. exact Hin'.
    + intros k v Hk. apply Hkeep.
      rewrite <- (dict_set_fresh role b mapping Hfresh).
      rewrite (dict_get_set String.eqb string_eqb_sym string_eqb_trans).
      destruct (String.eqb_spec role k) as [->|Hne']; [|exact Hk].
      exfalso. apply Hfresh. eapply dict_get_string_key. exact Hk.
Qed.

(** A formula whose roles are all bound renders to a string. *)
Lemma apply_formula_total (f : list piece) (b : dict string string) :
  (forall r, In r (formula_roles f) -> In r (dict_keys b)) ->
  exists s, apply_formula f b = Some s.
Proof.
  induction f as [|[s|x] f IH]; simpl; intro H.
  - eauto.
  - destruct IH as (t & ->); eauto.
  - destruct (dict_get_of_key String.eqb String.eqb_refl x b) as (v & ->).
    { apply H. now left. }
    destruct IH as (t & ->); eauto.
Qed.

(** The dict that [main] builds from the wavelength and band lists. *)
Lemma wavelength_to_band_total (ws : list Q) (bs : list string) :
  let w2b := dict_of Qeq_bool (zip ws bs) in
  forall w, In w (dict_keys w2b) ->
    exists b, dict_get Qeq_bool w w2b = Some b.
Proof.
  intros w2b w Hin.
  exact (dict_get_of_key Qeq_bool Qeq_bool_reflexive w w2b Hin).
Qed.

Lemma wavelength_to_band_nonempty (ws : list Q) (bs : list string) :
  ws <> [] -> length bs = length ws ->
  dict_keys (dict_of Qeq_bool (zip ws bs)) <> [].
Proof.
  intros Hne Hlen.
  assert (Hz : zip ws bs <> []).
  { destruct ws; [congruence|]. destruct bs; [discriminate|]. discriminate. }
  pose proof (dict_of_nonempty Qeq_bool (zip ws bs) Hz) as H.
  unfold dict_keys. destruct (dict_of Qeq_bool (zip ws bs)); [congruence|].
  discriminate.
Qed.

(** [get_band_mapping] on a catalog entry and a non-empty band list. *)
Lemma get_band_mapping_total (index_name : string) (index : SpectralIndex)
    (ws : list Q) (bs : list string) :
  dict_get String.eqb (upper index_name) indices_db = Some index ->
  ws <> [] -> length bs = length ws ->
  let w2b := dict_of Qeq_bool (zip ws bs) in
  exists mapping,
    get_band_mapping indices_db index_name w2b = Some mapping
    /\ dict_keys mapping = dict_keys (bands_required index)
    /\ (forall role req, In (role, req) (bands_required index) ->
          exists w b,
            find_closest_band req (dict_keys w2b) = Some w
            /\ dict_get Qeq_bool w w2b = Some b
            /\ dict_get String.eqb role mapping = Some b).
Proof.
  intros Hget Hne Hlen w2b. unfold get_band_mapping. rewrite Hget.
  destruct (catalog_entry_facts _ _ Hget) as (Hnd & _).
  destruct (bind_roles_total w2b (dict_keys w2b)
              (wavelength_to_band_nonempty ws bs Hne Hlen)
              (wavelength_to_band_total ws bs)
              (dict_items (bands_required index)) [])
    as (m & Hm & Hkeys & Hroles & _).
  { exact Hnd. }
  exists m. split; [exact Hm|]. split; [exact Hkeys|exact Hroles].
Qed.

Lemma check_bands_no_wavelengths (items : list (string * wavelength_req)) :
  fst (check_bands items []) = true -> items = [].
Proof.
  destruct items as [|[r q] items]; [reflexivity|]. simpl. discriminate.
Qed.

(** A feasible entry of the catalog: the upper-cased name leads to the same
    entry, and either there are wavelengths or there is no role to bind. *)
Lemma feasible_entry (index_name : string) (index : SpectralIndex)
    (ws : list Q) :
  dict_get String.eqb index_name indices_db = Some index ->
  fst (can_calculate_index indices_db index_name ws) = true ->
  dict_get String.eqb (upper index_name) indices_db = Some index
  /\ (ws <> [] \/ bands_required index = []).
Proof.
  intros Hin Hf. unfold can_calculate_index in Hf.
  destruct (dict_get String.eqb (upper index_name) indices_db) as [index'|] eqn:E;
    [|discriminate].
  destruct (catalog_entry_facts _ _ Hin) as (_ & _ & _ & _ & Hsame).
  rewrite (Hsame index' E) in *. split; [reflexivity|].
  destruct ws as [|w ws]; [right|left; discriminate].
  now apply check_bands_no_wavelengths.
Qed.

(** ** Resolution *)

(** What [main] relies on between the feasibility check and the [try]
    block: the binding exists, has the required roles as keys, and the
    formula renders on it. *)
Lemma feasible_resolution (index_name : string) (index : SpectralIndex)
    (ws : list Q) (bs : list string) :
  length bs = length ws ->
  dict_get String.eqb index_name indices_db = Some index ->
  fst (can_calculate_index indices_db index_name ws) = true ->
  exists mapping,
    get_band_mapping indices_db index_name (dict_of Qeq_bool (zip ws bs))
    = Some mapping
    /\ dict_keys mapping = dict_keys (bands_required index)
    /\ (forall role req, In (role, req) (bands_required index) ->
          exists w b,
            find_closest_band req
              (dict_keys (dict_of Qeq_bool (zip ws bs))) = Some w
            /\ dict_get Qeq_bool w (dict_of Qeq_bool (zip ws bs)) = Some b
            /\ dict_get String.eqb role mapping = Some b)
    /\ exists expression,
         apply_formula (formula index) mapping = Some expression.
Proof.
  intros Hlen Hin Hfeasible.
  destruct (feasible_entry _ _ _ Hin Hfeasible) as (Hup & Hws).
  destruct (catalog_entry_facts _ _ Hin) as (_ & Hroles & _).
  assert (Hmap : exists mapping,
    get_band_mapping indices_db index_name (dict_of Qeq_bool (zip ws bs))
    = Some mapping
    /\ dict_keys mapping = dict_keys (bands_required index)
    /\ (forall role req, In (role, req) (bands_required index) ->
          exists w b,
            find_closest_band req
              (dict_keys (dict_of Qeq_bool (zip ws bs))) = Some w
            /\ dict_get Qeq_bool w (dict_of Qeq_bool (zip ws bs)) = Some b
            /\ dict_get String.eqb role mapping = Some b)).
  { destruct Hws as [Hne|Hnil].
    - exact (get_band_mapping_total index_name index ws bs Hup Hne Hlen).
    - unfold get_band_mapping. rewrite Hup, Hnil. simpl.
      exists []. repeat split; auto. intros ? ? []. }
  destruct Hmap as (mapping & Hm & Hkeys & Hbind).
  exists mapping. repeat split; auto.
  apply apply_formula_total. intros r Hr. rewrite Hkeys. now apply Hroles.
Qed.

(** C4.  For an index of the catalog that passed the feasibility check,
    [get_band_mapping] returns a binding whose keys are exactly the required
    role names, in order; every role is bound, on its own, to the band of the
    wavelength that [find_closest_band] picks among all the keys of the
    wavelength-to-band dict; the formula applied to this binding finds every
    role it looks up; and two roles may share one band, as SWIR1 and SWIR3 of
    CAI do. *)
Theorem get_band_mapping_binds_required_roles
    (index_name : string) (index : SpectralIndex)
    (ws : list Q) (bs : list string)
    (Hlen : length bs = length ws)
    (Hin : dict_get String.eqb index_name indices_db = Some index)
    (Hfeasible : fst (can_calculate_index indices_db index_name ws) = true) :
  (exists mapping,
      get_band_mapping indices_db index_name (dict_of Qeq_bool (zip ws bs))
      = Some mapping
      /\ dict_keys mapping = dict_keys (bands_required index)
      /\ (forall role req, In (role, req) (bands_required index) ->
            exists w b,
              find_closest_band req
                (dict_keys (dict_of Qeq_bool (zip ws bs))) = Some w
              /\ dict_get Qeq_bool w (dict_of Qeq_bool (zip ws bs)) = Some b
              /\ dict_get String.eqb role mapping = Some b)
      /\ exists expression,
           apply_formula (formula index) mapping = Some expression)
  /\ get_band_mapping indices_db "CAI"
       (dict_of Qeq_bool (zip [2050; 2200] ["b1"; "b2"]))
     = Some [("SWIR1", "b1"); ("SWIR2", "b2"); ("SWIR3", "b1")].
Proof.
  split; [|reflexivity].
  now apply feasible_resolution.
Qed.

Lemma get_band_mapping_binds_required_roles_witness :
  exists mapping,
    get_band_mapping indices_db "NDVI"
      (dict_of Qeq_bool (zip [665; 850] ["b1"; "b2"]))
    = Some mapping
    /\ dict_keys mapping = dict_keys (bands_required idx_NDVI)
    /\ (forall role req, In (role, req) (bands_required idx_NDVI) ->
          exists w b,
            find_closest_band req
              (dict_keys (dict_of Qeq_bool (zip [665; 850] ["b1"; "b2"])))
            = Some w
            /\ dict_get Qeq_bool w
                 (dict_of Qeq_bool (zip [665; 850] ["b1"; "b2"])) = Some b
            /\ dict_get String.eqb role mapping = Some b)
    /\ exists expression,
         apply_formula (formula idx_NDVI) mapping = Some expression.
Proof.
  refine (proj1 (get_band_mapping_binds_required_roles "NDVI" idx_NDVI
                   [665; 850] ["b1"; "b2"] _ _ _)); reflexivity.
Defined.

(** ** Duplicate wavelengths *)

Lemma nth_error_zip {A B : Type} (xs : list A) (ys : list B) :
  forall j x y,
    nth_error (zip xs ys) j = Some (x, y) <->
    nth_error xs j = Some x /\ nth_error ys j = Some y.
Proof.
  unfold zip. revert ys.
  induction xs as [|a xs IH]; intros ys j x y.
  - destruct j; simpl; split; try discriminate; intros [H _]; discriminate.
  - destruct ys as [|b ys].
    + destruct j; simpl; split; try discriminate; intros [_ H]; discriminate.
    + destruct j as [|j]; simpl.
      * split; [intros H; inversion H; auto|intros [H1 H2]; congruence].
      * apply IH.
Qed.

(** [last_match] returns the value of the last pair whose key equals [k]. *)
Lemma last_match_last {K V : Type} (eqb : K -> K -> bool) (k : K)
    (l : list (K * V)) :
  match last_match eqb k l with
  | Some v =>
      exists j k',
        nth_error l j = Some (k', v) /\ eqb k' k = true
        /\ forall j' k'' v'',
             (j < j')%nat -> nth_error l j' = Some (k'', v'') ->
             eqb k'' k = false
  | None =>
      forall j k' v', nth_error l j = Some (k', v') -> eqb k' k = false
  end.
Proof.
  induction l as [|[k0 v0] l IH]; simpl.
  - intros j k' v' H. destruct j; discriminate.
  - destruct (last_match eqb k l) as [v|].
    + destruct IH as (j & k' & Hj & Hk & Hlast).
      exists (S j), k'. split; [exact Hj|]. split; [exact Hk|].
      intros j' k'' v'' Hlt Hn. destruct j' as [|j']; [lia|].
      simpl in Hn. apply (Hlast j' k'' v''); [lia|exact Hn].
    + destruct (eqb k0 k) eqn:E.
      * exists 0%nat, k0. split; [reflexivity|]. split; [exact E|].
        intros j' k'' v'' Hlt Hn. destruct j' as [|j']; [lia|].
        simpl in Hn. eapply IH. exact Hn.
      * intros j k' v' Hn. destruct j as [|j]; simpl in Hn.
        -- inversion Hn; subst. exact E.
        -- eapply IH. exact Hn.
Qed.

(** C9.  With duplicate wavelengths in the input the wavelength-to-band dict
    is still defined on every supplied wavelength, and gives it the band
    supplied at its last occurrence; [get_band_mapping] on a non-empty input
    still binds every required role of a catalog index; for wavelengths
    [665, 850, 665] and bands [b1, b2, b3] the RED role of NDVI is bound to
    b3. *)
Theorem duplicate_wavelengths_later_band_wins
    (ws : list Q) (bs : list string) (Hlen : length bs = length ws) :
  (forall i w,
      nth_error ws i = Some w ->
      exists j w' b,
        (i <= j)%nat
        /\ nth_error ws j = Some w' /\ w' == w
        /\ nth_error bs j = Some b
        /\ dict_get Qeq_bool w (dict_of Qeq_bool (zip ws bs)) = Some b
        /\ forall j' w'',
             (j < j')%nat -> nth_error ws j' = Some w'' -> ~ w'' == w)
  /\ (ws <> [] ->
      forall index_name index,
        dict_get String.eqb (upper index_name) indices_db = Some index ->
        exists mapping,
          get_band_mapping indices_db index_name
            (dict_of Qeq_bool (zip ws bs)) = Some mapping
          /\ dict_keys mapping = dict_keys (bands_required index)
          /\ forall role req, In (role, req) (bands_required index) ->
               exists w b,
                 find_closest_band req
                   (dict_keys (dict_of Qeq_bool (zip ws bs))) = Some w
                 /\ dict_get Qeq_bool w (dict_of Qeq_bool (zip ws bs))
                    = Some b
                 /\ dict_get String.eqb role mapping = Some b)
  /\ get_band_mapping indices_db "NDVI"
       (dict_of Qeq_bool (zip [665; 850; 665] ["b1"; "b2"; "b3"]))
     = Some [("RED", "b3"); ("NIR", "b2")].
Proof.
  split; [|split; [|reflexivity]].
  - intros i w Hi.
    rewrite (dict_get_dict_of Qeq_bool Qeq_bool_sym Qeq_bool_trans).
    pose proof (last_match_last Qeq_bool w (zip ws bs)) as H.
    assert (Hb : exists b0, nth_error bs i = Some b0).
    { destruct (nth_error bs i) as [b0|] eqn:E; [eauto|].
      apply nth_error_None in E.
      assert (Hs : nth_error ws i <> None) by congruence.
      apply nth_error_Some in Hs. lia. }
    destruct Hb as (b0 & Hb0).
    destruct (last_match Qeq_bool w (zip ws bs)) as [b|].
    + destruct H as (j & w' & Hj & Hk & Hlast).
      apply nth_error_zip in Hj. destruct Hj as [Hjw Hjb].
      exists j, w', b.
      assert (Hle : (i <= j)%nat).
      { destruct (Nat.le_gt_cases i j) as [Hle|Hgt]; [exact Hle|].
        assert (Hz : nth_error (zip ws bs) i = Some (w, b0))
          by (apply nth_error_zip; auto).
        specialize (Hlast i w b0 Hgt Hz).
        rewrite Qeq_bool_reflexive in Hlast. discriminate. }
      split; [exact Hle|]. split; [exact Hjw|].
      split; [now apply Qeq_bool_iff|]. split; [exact Hjb|].
      split; [reflexivity|].
      intros j' w'' Hlt Hj' Heq.
      assert (Hb' : exists b', nth_error bs j' = Some b').
      { destruct (nth_error bs j') as [b'|] eqn:E; [eauto|].
        apply nth_error_None in E.
        assert (Hs : nth_error ws j' <> None) by congruence.
        apply nth_error_Some in Hs. lia. }
      destruct Hb' as (b' & Hb').
      assert (Hz : nth_error (zip ws bs) j' = Some (w'', b'))
        by (apply nth_error_zip; auto).
      specialize (Hlast j' w'' b' Hlt Hz).
      apply Qeq_bool_iff in Heq. congruence.
    + exfalso.
      assert (Hz : nth_error (zip ws bs) i = Some (w, b0))
        by (apply nth_error_zip; auto).
      specialize (H i w b0 Hz). rewrite Qeq_bool_reflexive in H.
      discriminate.
  - intros Hne index_name index Hget.
    exact (get_band_mapping_total index_name index ws bs Hget Hne Hlen).
Qed.

Lemma duplicate_wavelengths_later_band_wins_witness :
  exists j w' b,
    (0 <= j)%nat
    /\ nth_error [665; 850; 665] j = Some w' /\ w' == 665
    /\ nth_error ["b1"; "b2"; "b3"] j = Some b
    /\ dict_get Qeq_bool 665
         (dict_of Qeq_bool (zip [665; 850; 665] ["b1"; "b2"; "b3"])) = Some b
    /\ forall j' w'',
         (j < j')%nat -> nth_error [665; 850; 665] j' = Some w'' ->
         ~ w'' == 665.
Proof.
  refine (proj1 (duplicate_wavelengths_later_band_wins [665; 850; 665]
                   ["b1"; "b2"; "b3"] _) 0%nat 665 _); reflexivity.
Defined.

(** ** The calculation loop *)

Lemma truthy_iff (s : string) : truthy s = true <-> s <> "".
Proof.
  unfold truthy. rewrite negb_true_iff. apply String.eqb_neq.
Qed.

Lemma split_nonempty (sep : ascii) (s : string) : split sep s <> [].
Proof.
  destruct s as [|c s]; simpl; [discriminate|].
  destruct (Ascii.eqb c sep); [discriminate|].
  destruct (split sep s); discriminate.
Qed.

Section LoopFacts.
Variable float : string -> option Q.
Variable Engine : Type.
Variable engine : engine_call -> Engine -> bool * Engine.

Lemma parse_wavelengths_length (l : list string) :
  forall ws, parse_wavelengths float l = Some ws -> length ws = length l.
Proof.
  induction l as [|s l IH]; simpl; intros ws H.
  - inversion H. reflexivity.
  - destruct (float s); [|discriminate].
    destruct (parse_wavelengths float l) as [ws'|]; [|discriminate].
    inversion H. simpl. f_equal. now apply IH.
Qed.

(** No exception leaves one iteration of the loop: the three guards in front
    of the [try] block make the binding and the formula succeed. *)
Lemma process_index_never_crashes (ws : list Q) (bs : list string)
    (output_prefix : string) (n : bool) (index_name : string) (e : Engine) :
  length bs = length ws ->
  fst (fst (process_index Engine engine indices_db ws
              (dict_of Qeq_bool (zip ws bs)) output_prefix n index_name e))
  <> Crashed.
Proof.
  intros Hlen. unfold process_index.
  destruct (dict_contains String.eqb index_name indices_db) eqn:Hc;
    cbn [negb fst]; [|discriminate].
  destruct (can_calculate_index indices_db index_name ws) as [can msg] eqn:Hcc.
  destruct can; cbn [negb fst]; [|discriminate].
  destruct (dict_contains_string_in _ _ Hc) as (index & Hget & _).
  destruct (feasible_resolution index_name index ws bs Hlen Hget)
    as (mapping & Hm & _ & _ & expression & Hex).
  { now rewrite Hcc. }
  rewrite Hm, Hget, Hex.
  destruct (run_calls Engine engine _ e) as [[ok e'] made].
  destruct ok; discriminate.
Qed.

(** The loop visits every requested name, whatever happened to the names
    before it, and the two counters add up to the number of names. *)
Lemma calculation_loop_total (ws : list Q) (bs : list string)
    (output_prefix : string) (n : bool) (Hlen : length bs = length ws)
    (names : list string) :
  forall st,
    exists st' new,
      calculation_loop Engine engine indices_db ws
        (dict_of Qeq_bool (zip ws bs)) output_prefix n names st = (st', true)
      /\ outcomes Engine st' = (outcomes Engine st ++ new)%list
      /\ map fst new = names
      /\ calculated Engine st'
         = (calculated Engine st + length (filter is_calculated new))%nat
      /\ skipped Engine st'
         = (skipped Engine st
            + length (filter (fun o => negb (is_calculated o)) new))%nat
      /\ Forall
           (fun o =>
              exists e,
                snd o
                = fst (fst (process_index Engine engine indices_db ws
                              (dict_of Qeq_bool (zip ws bs)) output_prefix n
                              (fst o) e)))
           new.
Proof.
  induction names as [|index_name names IH]; intro st; simpl.
  - exists st, []. rewrite app_nil_r. simpl. repeat split; auto; lia.
  - pose proof (process_index_never_crashes ws bs output_prefix n index_name
                  (engine_state Engine st) Hlen) as Hnc.
    destruct (process_index Engine engine indices_db ws
                (dict_of Qeq_bool (zip ws bs)) output_prefix n index_name
                (engine_state Engine st)) as [[o e] made] eqn:Hp.
    simpl in Hnc.
    destruct (IH (record_outcome Engine st index_name o e made))
      as (st' & new & Hloop & Hout & Hnames & Hcalc & Hskip & Hall).
    exists st', ((index_name, o) :: new).
    split.
    { destruct o; try exact Hloop. congruence. }
    split.
    { rewrite Hout. simpl. rewrite <- app_assoc. reflexivity. }
    split; [simpl; now rewrite Hnames|].
    split.
    { rewrite Hcalc.
      destruct o;
        cbn [record_outcome calculated filter is_calculated snd length];
        lia. }
    split.
    { rewrite Hskip.
      destruct o;
        cbn [record_outcome skipped filter is_calculated snd negb length];
        try lia. congruence. }
    constructor; [|exact Hall].
    exists (engine_state Engine st). simpl. now rewrite Hp.
Qed.

End LoopFacts.

(** C5.  A run that passes the validation block ends with the summary: the
    loop records an outcome for every selected name, in order, none of which
    is an escaping exception; each outcome is what processing that name alone
    gives from the engine state reached; [calculated] counts the [Calculated]
    outcomes, [skipped] all the others, and together they count the selected
    names.  An unknown name followed by a good index gives one skipped and
    one calculated; with an engine that always fails, a good index, an
    infeasible one and an unknown name give three skipped and none
    calculated. *)
Theorem main_batch_always_summarized
    (float : string -> option Q) (Engine : Type)
    (engine : engine_call -> Engine -> bool * Engine)
    (options : options) (flags : flags) (e : Engine) (ws : list Q)
    (Hl : flag_l flags = false)
    (Hi : opt_input options <> "")
    (Hw : opt_wavelengths options <> "")
    (Hp : opt_output_prefix options <> "")
    (Hparse :
       parse_wavelengths float (split "," (opt_wavelengths options)) = Some ws)
    (Hcount : length (split "," (opt_input options)) = length ws) :
  (exists st,
      main float Engine engine options flags e
      = (Summary (calculated Engine st) (skipped Engine st), st)
      /\ map fst (outcomes Engine st)
         = select_indices indices_db (opt_indices options) (opt_theme options)
      /\ calculated Engine st
         = length (filter is_calculated (outcomes Engine st))
      /\ skipped Engine st
         = length (filter (fun o => negb (is_calculated o))
                     (outcomes Engine st))
      /\ (calculated Engine st + skipped Engine st
          = length (select_indices indices_db (opt_indices options)
                      (opt_theme options)))%nat
      /\ Forall
           (fun o =>
              is_crashed o = false
              /\ exists e',
                   snd o
                   = fst (fst (process_index Engine engine indices_db ws
                                 (dict_of Qeq_bool
                                    (zip ws (split "," (opt_input options))))
                                 (opt_output_prefix options) (flag_n flags)
                                 (fst o) e')))
           (outcomes Engine st))
  /\ (let r :=
        main float_of_digits unit engine_ok
          {| opt_input := "b1,b2"; opt_wavelengths := "665,850";
             opt_output_prefix := "out"; opt_indices := "nosuch,ndvi";
             opt_theme := "" |}
          {| flag_l := false; flag_i := false; flag_n := false |} tt in
      fst r = Summary 1 1
      /\ outcomes unit (snd r)
         = [("NOSUCH", Skipped_not_found); ("NDVI", Calculated)])
  /\ (let r :=
        main float_of_digits unit engine_failing
          {| opt_input := "b1,b2"; opt_wavelengths := "665,850";
             opt_output_prefix := "out"; opt_indices := "ndvi,evi,nosuch";
             opt_theme := "" |}
          {| flag_l := false; flag_i := false; flag_n := false |} tt in
      fst r = Summary 0 3
      /\ outcomes unit (snd r)
         = [("NDVI", Skipped_failed);
            ("EVI",
             Skipped_cannot_calculate
               (Required_band_not_available "BLUE" (Range 450 520)));
            ("NOSUCH", Skipped_not_found)]).
Proof.
  split; [|split; vm_compute; split; reflexivity].
  unfold main. rewrite Hl.
  rewrite (proj2 (truthy_iff _) Hi), (proj2 (truthy_iff _) Hw),
    (proj2 (truthy_iff _) Hp).
  cbn [negb]. rewrite Hparse, Hcount, Nat.eqb_refl. cbn [negb].
  destruct (calculation_loop_total Engine engine ws
              (split "," (opt_input options)) (opt_output_prefix options)
              (flag_n flags) Hcount
              (select_indices indices_db (opt_indices options)
                 (opt_theme options))
              (initial_state Engine e))
    as (st & new & Hloop & Hout & Hnames & Hcalc & Hskip & Hall).
  rewrite Hloop. exists st.
  cbn [initial_state outcomes calculated skipped app Nat.add] in Hout, Hcalc, Hskip.
  subst new.
  split; [reflexivity|]. split; [exact Hnames|].
  split; [exact Hcalc|]. split; [exact Hskip|].
  split.
  { rewrite Hcalc, Hskip, <- Hnames, length_map.
    generalize (outcomes Engine st). intro l.
    induction l as [|o l IH]; simpl; [reflexivity|].
    destruct (is_calculated o); simpl; lia. }
  rewrite Forall_forall in Hall |- *. intros o Ho.
  destruct (Hall o Ho) as (e' & He'). split; [|eauto].
  unfold is_crashed. rewrite He'.
  pose proof (process_index_never_crashes Engine engine ws
                (split "," (opt_input options)) (opt_output_prefix options)
                (flag_n flags) (fst o) e' Hcount) as Hnc.
  destruct (fst (fst (process_index Engine engine indices_db ws _ _ _ _ e')));
    congruence.
Qed.

Lemma main_batch_always_summarized_witness :
  exists st,
    main float_of_digits unit engine_ok
      {| opt_input := "b1,b2,b3"; opt_wavelengths := "560,665,850";
         opt_output_prefix := "out"; opt_indices := "ndvi";
         opt_theme := "water" |}
      {| flag_l := false; flag_i := false; flag_n := true |} tt
    = (Summary (calculated unit st) (skipped unit st), st)
    /\ map fst (outcomes unit st) = ["MNDWI"; "NDMI"; "NDWI"]
    /\ calculated unit st = 1%nat
    /\ skipped unit st = 2%nat.
Proof.
  destruct (proj1 (main_batch_always_summarized float_of_digits unit engine_ok
              {| opt_input := "b1,b2,b3"; opt_wavelengths := "560,665,850";
                 opt_output_prefix := "out"; opt_indices := "ndvi";
                 opt_theme := "water" |}
              {| flag_l := false; flag_i := false; flag_n := true |} tt
              [560; 665; 850] eq_refl
              ltac:(discriminate) ltac:(discriminate) ltac:(discriminate)
              eq_refl eq_refl))
    as (st & Hmain & Hnames & Hcalc & Hskip & _).
  exists st. split; [exact Hmain|]. split; [exact Hnames|].
  vm_compute in Hmain. inversion Hmain. subst st. split; reflexivity.
Defined.

(** ** The expressions handed to the engine *)

Section EmissionFacts.
Variable Engine : Type.
Variable engine : engine_call -> Engine -> bool * Engine.

Lemma run_calls_first (c : engine_call) (cs : list engine_call) (e : Engine) :
  exists rest, snd (run_calls Engine engine (c :: cs) e) = c :: rest.
Proof.
  simpl. destruct (engine c e) as [ok e1]. destruct ok.
  - destruct (run_calls Engine engine cs e1) as [[ok' e2] made]. simpl. eauto.
  - simpl. eauto.
Qed.

(** The single iteration for NDVI on bands b1 (665 nm) and b2 (850 nm). *)
Lemma process_index_ndvi (output_prefix : string) (n : bool) (e : Engine) :
  process_index Engine engine indices_db [665; 850]
    [(665, "b1"); (850, "b2")] output_prefix n "NDVI" e
  = let '(ok, e', made) :=
      run_calls Engine engine
        (try_block_calls n "NDVI" (output_prefix ++ "_NDVI")
           "float(b2 - b1) / (b2 + b1)" idx_NDVI) e in
    (if ok then Calculated else Skipped_failed, e', made).
Proof.
  unfold process_index.
  replace (dict_contains String.eqb "NDVI" indices_db) with true
    by (vm_compute; reflexivity).
  replace (can_calculate_index indices_db "NDVI" [665; 850]) with (true, OK)
    by (vm_compute; reflexivity).
  replace (get_band_mapping indices_db "NDVI" [(665, "b1"); (850, "b2")])
    with (Some [("RED", "b1"); ("NIR", "b2")]) by (vm_compute; reflexivity).
  replace (dict_get String.eqb "NDVI" indices_db) with (Some idx_NDVI)
    by reflexivity.
  reflexivity.
Qed.

End EmissionFacts.

(** C6.  For input b1,b2 with wavelengths 665,850 and the single index NDVI,
    the first call to the engine assigns, to the raster named by the prefix
    followed by [_NDVI], the expression [float(b2 - b1) / (b2 + b1)]: its
    value is that of (b2 - b1) / (b2 + b1) for all band values, and it
    carries the [float(] coercion. *)
Theorem ndvi_primary_expression
    (Engine : Type) (engine : engine_call -> Engine -> bool * Engine)
    (e : Engine) (output_prefix : string) (i n : bool)
    (Hp : output_prefix <> "") :
  (exists rest,
      calls Engine
        (snd (main float_of_digits Engine engine
                {| opt_input := "b1,b2"; opt_wavelengths := "665,850";
                   opt_output_prefix := output_prefix; opt_indices := "NDVI";
                   opt_theme := "" |}
                {| flag_l := false; flag_i := i; flag_n := n |} e))
      = Mapcalc ((output_prefix ++ "_NDVI") ++ " = " ++ print_expr ndvi_b1_b2)
        :: rest)
  /\ print_expr ndvi_b1_b2 = "float(b2 - b1) / (b2 + b1)"
  /\ (forall env : string -> Q,
         eval_expr env ndvi_b1_b2
         == (env "b2" - env "b1") / (env "b2" + env "b1"))
  /\ contains "float(" (print_expr ndvi_b1_b2) = true.
Proof.
  split; [|split; [reflexivity|split; [intro env; reflexivity|reflexivity]]].
  unfold main.
  cbn [flag_l flag_n opt_input opt_wavelengths opt_output_prefix opt_indices
       opt_theme].
  rewrite (proj2 (truthy_iff _) Hp).
  replace (truthy "b1,b2") with true by reflexivity.
  replace (truthy "665,850") with true by reflexivity.
  cbn [negb].
  replace (parse_wavelengths float_of_digits (split "," "665,850"))
    with (Some [665; 850]) by (vm_compute; reflexivity).
  replace (split "," "b1,b2") with ["b1"; "b2"] by reflexivity.
  replace (length ["b1"; "b2"] =? length [665; 850])%nat with true
    by reflexivity.
  cbn [negb].
  replace (dict_of Qeq_bool (zip [665; 850] ["b1"; "b2"]))
    with [(665, "b1"); (850, "b2")] by (vm_compute; reflexivity).
  replace (select_indices indices_db "NDVI" "") with ["NDVI"]
    by (vm_compute; reflexivity).
  cbn [calculation_loop initial_state engine_state].
  rewrite process_index_ndvi.
  destruct (run_calls_first Engine engine
              (Mapcalc ((output_prefix ++ "_NDVI") ++ " = "
                        ++ "float(b2 - b1) / (b2 + b1)"))
              (normalization_calls n idx_NDVI (output_prefix ++ "_NDVI")
               ++ [RColors (output_prefix ++ "_NDVI")
                     (color_table "NDVI" idx_NDVI)])%list e)
    as (rest & Hrest).
  exists rest. unfold try_block_calls.
  destruct (run_calls Engine engine _ e) as [[ok e'] made].
  simpl in Hrest. subst made.
  destruct ok; reflexivity.
Qed.

Lemma ndvi_primary_expression_witness :
  exists rest,
    calls unit
      (snd (main float_of_digits unit engine_ok
              {| opt_input := "b1,b2"; opt_wavelengths := "665,850";
                 opt_output_prefix := "field"; opt_indices := "NDVI";
                 opt_theme := "" |}
              {| flag_l := false; flag_i := false; flag_n := false |} tt))
    = Mapcalc (("field" ++ "_NDVI") ++ " = " ++ print_expr ndvi_b1_b2)
      :: rest.
Proof.
  refine (proj1 (ndvi_primary_expression unit engine_ok tt "field" false false
                   _)).
  discriminate.
Defined.

(** ** Normalization *)

Lemma string_app_assoc (a b c : string) : (a ++ b) ++ c = a ++ (b ++ c).
Proof.
  induction a as [|x a IH]; simpl; [reflexivity|]. now rewrite IH.
Qed.

Lemma norm_formula_rescale (output_name : string) (lo hi : Z) :
  norm_formula output_name (lo, hi) = print_expr (rescale output_name lo hi).
Proof.
  unfold norm_formula, rescale. cbn [print_expr].
  rewrite !string_app_assoc. reflexivity.
Qed.

(** C7.  With the [-n] flag, an index that carries a normalization range
    (lo, hi) gets, after its primary expression, a second expression whose
    value is (result - lo) / (hi - lo) over the raster the primary expression
    produced, followed by the rename over that raster; for the range (-1, 1)
    a result of 0 becomes 1/2.  An index without a range makes the same
    engine calls with and without the flag and is processed to the same
    outcome: MSAVI, which has no range, is calculated next to NDVI in a run
    with the flag on. *)
Theorem normalization_rescales_or_is_skipped
    (Engine : Type) (engine : engine_call -> Engine -> bool * Engine)
    (self : dict string SpectralIndex) (ws : list Q)
    (wavelength_to_band : dict Q string) (output_prefix index_name : string)
    (index_def : SpectralIndex) (e : Engine)
    (Hdef : dict_get String.eqb index_name self = Some index_def)
    (Hnone : normalize_range index_def = None) :
  process_index Engine engine self ws wavelength_to_band output_prefix true
    index_name e
  = process_index Engine engine self ws wavelength_to_band output_prefix false
      index_name e
  /\ (forall (name output_name formula : string) (index : SpectralIndex),
         try_block_calls true name output_name formula index
         = match normalize_range index with
           | Some (lo, hi) =>
               [Mapcalc (output_name ++ " = " ++ formula);
                Mapcalc ((output_name ++ "_temp") ++ " = "
                         ++ print_expr (rescale output_name lo hi));
                GRename ((output_name ++ "_temp") ++ "," ++ output_name);
                RColors output_name (color_table name index)]
           | None =>
               [Mapcalc (output_name ++ " = " ++ formula);
                RColors output_name (color_table name index)]
           end
         /\ try_block_calls false name output_name formula index
            = [Mapcalc (output_name ++ " = " ++ formula);
               RColors output_name (color_table name index)])
  /\ (forall (env : string -> Q) (result : string) (lo hi : Z),
         eval_expr env (rescale result lo hi)
         == (env result - inject_Z lo) / (inject_Z hi - inject_Z lo))
  /\ (forall result : string,
         eval_expr (fun _ => 0) (rescale result (-1) 1) == 1 # 2)
  /\ (let r :=
        main float_of_digits unit engine_ok
          {| opt_input := "b1,b2"; opt_wavelengths := "665,850";
             opt_output_prefix := "out"; opt_indices := "ndvi,msavi";
             opt_theme := "" |}
          {| flag_l := false; flag_i := false; flag_n := true |} tt in
      fst r = Summary 2 0
      /\ calls unit (snd r)
         = [Mapcalc "out_NDVI = float(b2 - b1) / (b2 + b1)";
            Mapcalc "out_NDVI_temp = (out_NDVI - -1) / (1 - -1)";
            GRename "out_NDVI_temp,out_NDVI";
            RColors "out_NDVI" "ndvi";
            Mapcalc
              "out_MSAVI = (2 * b2 + 1 - sqrt((2 * b2 + 1)^2 - 8 * (b2 - b1))) / 2";
            RColors "out_MSAVI" "ndvi"]).
Proof.
  split; [|split; [|split; [|split]]].
  - unfold process_index, dict_contains. rewrite Hdef. cbn [negb].
    destruct (can_calculate_index self index_name ws) as [can msg].
    destruct can; cbn [negb]; [|reflexivity].
    destruct (get_band_mapping self index_name wavelength_to_band);
      [|reflexivity].
    destruct (apply_formula (formula index_def) d); [|reflexivity].
    unfold try_block_calls, normalization_calls. rewrite Hnone. reflexivity.
  - intros name output_name formula index.
    unfold try_block_calls, normalization_calls.
    destruct (normalize_range index) as [[lo hi]|]; cbn [app].
    + rewrite norm_formula_rescale. split; reflexivity.
    + split; reflexivity.
  - intros env result lo hi. reflexivity.
  - intros result. reflexivity.
  - vm_compute. split; reflexivity.
Qed.

Lemma normalization_rescales_or_is_skipped_witness :
  process_index unit engine_ok indices_db [665; 850]
    [(665, "b1"); (850, "b2")] "out" true "MSAVI" tt
  = process_index unit engine_ok indices_db [665; 850]
      [(665, "b1"); (850, "b2")] "out" false "MSAVI" tt.
Proof.
  refine (proj1 (normalization_rescales_or_is_skipped unit engine_ok
                   indices_db [665; 850] [(665, "b1"); (850, "b2")] "out"
                   "MSAVI" idx_MSAVI tt _ _)); reflexivity.
Defined.

(** ** Listing by theme *)

Lemma string_compare_as_OT (a b : string) :
  String.compare a b = String_as_OT.compare a b.
Proof.
  revert b. induction a as [|x a IH]; destruct b as [|y b]; simpl;
    try reflexivity.
Qed.

Lemma string_lt_as_OT (a b : string) : string_lt a b <-> String_as_OT.lt a b.
Proof.
  unfold string_lt, String.ltb, String_as_OT.lt.
  rewrite (string_compare_as_OT a b).
  destruct (String_as_OT.compare a b); split; congruence.
Qed.

Lemma string_lt_trans (a b c : string) :
  string_lt a b -> string_lt b c -> string_lt a c.
Proof.
  rewrite !string_lt_as_OT. intros H1 H2. now transitivity b.
Qed.

Lemma string_lt_irrefl (a : string) : ~ string_lt a a.
Proof.
  rewrite string_lt_as_OT.
  exact (StrictOrder_Irreflexive (R := String_as_OT.lt) a).
Qed.

Lemma ascending_sorted (l : list string) :
  ascending l = true -> StronglySorted string_lt l.
Proof.
  intros H. apply Sorted_StronglySorted.
  { intros a b c. apply string_lt_trans. }
  induction l as [|x l IH]; [constructor|].
  simpl in H. destruct l as [|y l].
  - repeat constructor.
  - apply andb_true_iff in H. destruct H as [Hxy Hl].
    constructor; [auto|]. constructor. exact Hxy.
Qed.

Lemma StronglySorted_filter {A : Type} (R : A -> A -> Prop) (f : A -> bool)
    (l : list A) :
  StronglySorted R l -> StronglySorted R (filter f l).
Proof.
  induction 1 as [|a l Hl IH Ha]; simpl; [constructor|].
  destruct (f a); [|exact IH].
  constructor; [exact IH|].
  rewrite Forall_forall in Ha |- *. intros x Hx.
  apply filter_In in Hx. apply Ha. tauto.
Qed.

Lemma StronglySorted_map {A B : Type} (R : B -> B -> Prop) (g : A -> B)
    (l : list A) :
  StronglySorted R (map g l) -> StronglySorted (fun a b => R (g a) (g b)) l.
Proof.
  induction l as [|a l IH]; simpl; intro H; [constructor|].
  apply StronglySorted_inv in H. destruct H as [Hl Ha].
  constructor; [auto|].
  rewrite Forall_forall in Ha |- *. intros x Hx. apply Ha. now apply in_map.
Qed.

Lemma insert_by_perm {A : Type} (key : A -> string) (x : A) (l : list A) :
  Permutation (insert_by key x l) (x :: l).
Proof.
  induction l as [|y l IH]; simpl; [reflexivity|].
  destruct (key x <? key y)%string; [reflexivity|].
  rewrite IH. apply perm_swap.
Qed.

Lemma sorted_by_perm {A : Type} (key : A -> string) (l : list A) :
  Permutation (sorted_by key l) l.
Proof.
  unfold sorted_by.
  assert (H : forall acc,
             Permutation (fold_left (fun acc x => insert_by key x acc) l acc)
               (acc ++ l)).
  { induction l as [|x l IH]; intro acc; simpl.
    - now rewrite app_nil_r.
    - rewrite IH, insert_by_perm. apply Permutation_middle. }
  exact (H []).
Qed.

(** Splitting a list by a key over a duplicate-free list of keys that covers
    it rearranges the list. *)
Lemma concat_filter_perm {A : Type} (key : A -> string) (ts : list string)
    (l : list A) :
  NoDup ts ->
  (forall x, In x l -> In (key x) ts) ->
  Permutation
    (concat (map (fun t => filter (fun x => String.eqb (key x) t) l) ts)) l.
Proof.
  intros Hnd. induction l as [|x l IH]; intro Hcov.
  - simpl. clear. induction ts as [|t ts IH]; simpl; auto.
  - assert (Hx : In (key x) ts) by (apply Hcov; now left).
    specialize (IH (fun y Hy => Hcov y (or_intror Hy))).
    apply Permutation_trans
      with (x :: concat
                   (map (fun t => filter (fun y => String.eqb (key y) t) l)
                      ts));
      [|now apply perm_skip].
    clear IH Hcov.
    induction ts as [|t ts IHt]; [destruct Hx|].
    inversion Hnd as [|? ? Hnotin Hnd']; subst.
    cbn [map concat].
    assert (Hhead :
              filter (fun y => String.eqb (key y) t) (x :: l)
              = if String.eqb (key x) t
                then x :: filter (fun y => String.eqb (key y) t) l
                else filter (fun y => String.eqb (key y) t) l)
      by reflexivity.
    rewrite Hhead. clear Hhead.
    destruct (String.eqb_spec (key x) t) as [Heq|Hne].
    + assert (Hsame :
                map (fun t0 => filter (fun y => String.eqb (key y) t0) (x :: l))
                  ts
                = map (fun t0 => filter (fun y => String.eqb (key y) t0) l) ts).
      { apply map_ext_in. intros t0 Ht0. cbn [filter].
        destruct (String.eqb_spec (key x) t0) as [Heq0|]; [|reflexivity].
        exfalso. apply Hnotin. congruence. }
      rewrite Hsame. reflexivity.
    + destruct Hx as [Hx|Hx]; [congruence|].
      rewrite (IHt Hnd' Hx).
      apply Permutation_sym, Permutation_middle.
Qed.

Lemma list_indices_filter (self : dict string SpectralIndex) (t : string) :
  t <> "" ->
  list_indices self (Some t)
  = filter (fun index => String.eqb (theme index) t) (list_indices self None).
Proof.
  intro Ht. unfold list_indices, skipped_by_theme.
  rewrite (proj2 (truthy_iff t) Ht). cbn [andb negb].
  induction (sorted_by fst (dict_items self)) as [|[k v] l IH];
    simpl; [reflexivity|].
  rewrite negb_involutive.
  destruct (String.eqb (theme v) t); simpl; now rewrite IH.
Qed.

Lemma list_indices_perm (self : dict string SpectralIndex) :
  Permutation (list_indices self None) (dict_values self).
Proof.
  unfold list_indices, skipped_by_theme, dict_values, dict_items.
  cbn [negb].
  rewrite forallb_filter_id.
  - apply Permutation_map. apply sorted_by_perm.
  - apply forallb_forall. reflexivity.
Qed.

Lemma get_themes_perm (self : dict string SpectralIndex) :
  Permutation (get_themes self)
    (nodup string_dec (map theme (dict_values self))).
Proof. unfold get_themes, sorted_set. apply sorted_by_perm. Qed.

Lemma catalog_value_theme (index : SpectralIndex) :
  In index (dict_values indices_db) -> theme index <> "".
Proof.
  unfold dict_values. intros Hin. apply in_map_iff in Hin.
  destruct Hin as ([k v] & Hv & Hin). simpl in Hv. subst v.
  pose proof (proj1 (forallb_forall _ _) catalog_consistent _ Hin) as H.
  unfold entry_consistent in H. cbn [fst snd] in H.
  rewrite !andb_true_iff in H. destruct H as [[[_ _] Hth] _].
  now apply truthy_iff.
Qed.

Lemma get_themes_in (self : dict string SpectralIndex) (t : string) :
  In t (get_themes self) <->
  exists index, In index (dict_values self) /\ theme index = t.
Proof.
  split.
  - intros Hin. apply (Permutation_in _ (get_themes_perm self)) in Hin.
    apply nodup_In, in_map_iff in Hin.
    destruct Hin as (index & Hth & Hin). eauto.
  - intros (index & Hin & Hth).
    apply (Permutation_in _ (Permutation_sym (get_themes_perm self))).
    apply nodup_In, in_map_iff. eauto.
Qed.

Lemma get_themes_NoDup (self : dict string SpectralIndex) :
  NoDup (get_themes self).
Proof.
  apply (Permutation_NoDup (Permutation_sym (get_themes_perm self))).
  apply NoDup_nodup.
Qed.

Lemma all_theme_listings_perm :
  Permutation (all_theme_listings indices_db) (dict_values indices_db).
Proof.
  unfold all_theme_listings.
  apply Permutation_trans with (list_indices indices_db None);
    [|apply list_indices_perm].
  assert (Hmap :
            map (fun t => list_indices indices_db (Some t))
              (get_themes indices_db)
            = map (fun t =>
                     filter (fun index => String.eqb (theme index) t)
                       (list_indices indices_db None))
                (get_themes indices_db)).
  { apply map_ext_in. intros t Ht. apply list_indices_filter.
    apply get_themes_in in Ht. destruct Ht as (index & Hin & <-).
    now apply catalog_value_theme. }
  rewrite Hmap.
  apply concat_filter_perm; [apply get_themes_NoDup|].
  intros index Hin. apply get_themes_in. exists index. split; [|reflexivity].
  exact (Permutation_in _ (list_indices_perm indices_db) Hin).
Qed.

Lemma list_indices_all_sorted :
  StronglySorted name_lt (list_indices indices_db None).
Proof.
  apply (StronglySorted_map string_lt name).
  apply ascending_sorted. vm_compute. reflexivity.
Qed.

(** C8.  For a theme [t], [list_indices] returns exactly the catalog entries
    whose theme is [t], in ascending order of name; with no theme it returns
    every entry, in ascending order of name; [get_themes] is the ascending
    list of the themes that occur; and the listings of all these themes, put
    together, are a rearrangement of the catalog in which no name occurs
    twice. *)
Theorem list_indices_partitions_catalog (t : string) (Ht : t <> "") :
  (forall index,
      In index (list_indices indices_db (Some t)) <->
      In index (dict_values indices_db) /\ theme index = t)
  /\ list_indices indices_db (Some t)
     = filter (fun index => String.eqb (theme index) t)
         (list_indices indices_db None)
  /\ StronglySorted name_lt (list_indices indices_db (Some t))
  /\ StronglySorted name_lt (list_indices indices_db None)
  /\ Permutation (list_indices indices_db None) (dict_values indices_db)
  /\ (forall t',
         In t' (get_themes indices_db) <->
         exists index, In index (dict_values indices_db) /\ theme index = t')
  /\ StronglySorted string_lt (get_themes indices_db)
  /\ Permutation (all_theme_listings indices_db) (dict_values indices_db)
  /\ NoDup (map name (all_theme_listings indices_db)).
Proof.
  split; [|split; [|split; [|split; [|split; [|split; [|split; [|split]]]]]]].
  - intro index. rewrite (list_indices_filter indices_db t Ht), filter_In.
    rewrite String.eqb_eq. split; intros [Hin Hth]; (split; [|exact Hth]).
    + exact (Permutation_in _ (list_indices_perm indices_db) Hin).
    + exact (Permutation_in _
               (Permutation_sym (list_indices_perm indices_db)) Hin).
  - exact (list_indices_filter indices_db t Ht).
  - rewrite (list_indices_filter indices_db t Ht).
    apply StronglySorted_filter. exact list_indices_all_sorted.
  - exact list_indices_all_sorted.
  - apply list_indices_perm.
  - intro t'. apply get_themes_in.
  - apply ascending_sorted. vm_compute. reflexivity.
  - exact all_theme_listings_perm.
  - apply (Permutation_NoDup
             (Permutation_map name (Permutation_sym all_theme_listings_perm))).
    apply distinct_NoDup. vm_compute. reflexivity.
Qed.

Lemma list_indices_partitions_catalog_witness :
  list_indices indices_db (Some "water")
  = filter (fun index => String.eqb (theme index) "water")
      (list_indices indices_db None).
Proof.
  refine (proj1 (proj2 (list_indices_partitions_catalog "water" _))).
  discriminate.
Defined.

(** ** Selection *)

(** C10, as stated, fails: the comma-separated names are also stripped of
    surrounding white space before they are upper-cased, so [ndvi, evi]
    selects EVI and not a name with a leading blank. *)
Lemma select_indices_not_only_uppercased :
  select_indices indices_db "ndvi, evi" ""
  <> map upper (split "," "ndvi, evi").
Proof. vm_compute. discriminate. Qed.

(** C10, amended.  A theme, when given, alone determines the selection: the
    names of [list_indices] for it, whatever the indices option holds.
    Without a theme, the indices option is used: [all] in any letter case
    selects every key of the catalog, and any other value is split on
    commas, each piece stripped of surrounding white space and
    upper-cased. *)
Theorem select_indices_precedence (indices_str theme : string) :
  (theme <> "" ->
   select_indices indices_db indices_str theme
   = map name (list_indices indices_db (Some theme))
   /\ forall other,
        select_indices indices_db other theme
        = select_indices indices_db indices_str theme)
  /\ (theme = "" -> lower indices_str = "all" ->
      select_indices indices_db indices_str theme = dict_keys indices_db)
  /\ (theme = "" -> lower indices_str <> "all" ->
      select_indices indices_db indices_str theme
      = map (fun idx => upper (strip idx)) (split "," indices_str))
  /\ dict_keys indices_db = map name (dict_values indices_db).
Proof.
  unfold select_indices. split; [|split; [|split]].
  - intros Ht. rewrite (proj2 (truthy_iff theme) Ht). split; reflexivity.
  - intros -> Hall. cbn [truthy String.eqb negb]. rewrite Hall. reflexivity.
  - intros -> Hall. cbn [truthy String.eqb negb].
    apply String.eqb_neq in Hall. rewrite Hall. reflexivity.
  - vm_compute. reflexivity.
Qed.

Lemma select_indices_precedence_witness :
  select_indices indices_db "all" "soil"
  = map name (list_indices indices_db (Some "soil"))
  /\ forall other,
       select_indices indices_db other "soil"
       = select_indices indices_db "all" "soil".
Proof.
  refine (proj1 (select_indices_precedence "all" "soil") _).
  discriminate.
Defined.

(** ** Names and look-up *)

(** C1 fails on the code: the entry for the red-edge chlorophyll index is
    stored under the mixed-case key [CIrededge], the only key that is not its
    own upper-case form.  [can_calculate_index] upper-cases the name it is
    given, so it answers ["Index not found"] for this entry under every
    spelling, and a run over the vegetation theme skips the index although
    both of its bands are present.  The keys themselves are pairwise
    distinct. *)
Theorem can_calculate_index_misses_CIrededge :
  dict_get String.eqb "CIrededge" indices_db = Some idx_CIrededge
  /\ name idx_CIrededge = "CIrededge"
  /\ filter (fun k => negb (String.eqb (upper k) k)) (dict_keys indices_db)
     = ["CIrededge"]
  /\ (forall ws,
         can_calculate_index indices_db "CIrededge" ws
         = (false, Index_not_found))
  /\ (forall ws,
         can_calculate_index indices_db "cirededge" ws
         = (false, Index_not_found))
  /\ (forall ws,
         can_calculate_index indices_db "CIREDEDGE" ws
         = (false, Index_not_found))
  /\ found (Range 690 730) [705; 800] = true
  /\ found (Range 760 900) [705; 800] = true
  /\ In ("CIrededge", Skipped_cannot_calculate Index_not_found)
       (outcomes unit
          (snd (main float_of_digits unit engine_ok
                  {| opt_input := "b1,b2"; opt_wavelengths := "705,800";
                     opt_output_prefix := "out"; opt_indices := "ndvi";
                     opt_theme := "vegetation" |}
                  {| flag_l := false; flag_i := false; flag_n := false |}
                  tt)))
  /\ NoDup (dict_keys indices_db).
Proof.
  repeat split; try reflexivity.
  - vm_compute. tauto.
  - apply distinct_NoDup. vm_compute. reflexivity.
Qed.

(** * Further properties of the code *)

(** ** Feasibility and the set of wavelengths *)

Lemma found_incl (req : wavelength_req) (ws ws' : list Q) :
  incl ws ws' -> found req ws = true -> found req ws' = true.
Proof.
  intros Hincl H. unfold found in *. apply existsb_exists in H.
  destruct H as (w & Hin & Hw). apply existsb_exists. exists w. auto.
Qed.

Lemma found_same_set (req : wavelength_req) (ws ws' : list Q) :
  incl ws ws' -> incl ws' ws -> found req ws' = found req ws.
Proof.
  intros H1 H2.
  destruct (found req ws) eqn:E.
  - now apply (found_incl req ws ws').
  - destruct (found req ws') eqn:E'; [|reflexivity].
    apply (found_incl req ws' ws H2) in E'. congruence.
Qed.

Lemma check_bands_fst_true (items : list (string * wavelength_req))
    (ws : list Q) :
  fst (check_bands items ws) = true <->
  forall role req, In (role, req) items -> found req ws = true.
Proof.
  induction items as [|[r q] items IH]; simpl.
  - split; [intros _ ? ? []|reflexivity].
  - destruct (found q ws) eqn:E.
    + rewrite IH. split.
      * intros H role req [Heq|Hin]; [inversion Heq; subst; exact E|eauto].
      * intros H role req Hin. eauto.
    + simpl. split; [discriminate|].
      intros H. rewrite (H r q (or_introl eq_refl)) in E. discriminate.
Qed.

(** X3.  The verdict of [can_calculate_index] depends on the available
    wavelengths only as a set: supplying more wavelengths never turns a
    feasible index infeasible, and two lists with the same members (in any
    order, with any repetitions) give the same verdict and the same
    message. *)
Theorem can_calculate_index_set_of_wavelengths
    (self : dict string SpectralIndex) (index_name : string)
    (ws ws' : list Q) (Hincl : incl ws ws') :
  (fst (can_calculate_index self index_name ws) = true ->
   fst (can_calculate_index self index_name ws') = true)
  /\ (incl ws' ws ->
      can_calculate_index self index_name ws'
      = can_calculate_index self index_name ws).
Proof.
  unfold can_calculate_index.
  destruct (dict_get String.eqb (upper index_name) self) as [index|];
    [|split; [discriminate|reflexivity]].
  unfold dict_items. split.
  - rewrite !check_bands_fst_true. intros H role req Hin.
    apply (found_incl req ws ws' Hincl). eauto.
  - intros Hincl'.
    induction (bands_required index) as [|[r q] items IH]; simpl;
      [reflexivity|].
    rewrite (found_same_set q ws ws' Hincl Hincl'), IH. reflexivity.
Qed.

Lemma can_calculate_index_set_of_wavelengths_witness :
  (fst (can_calculate_index indices_db "ndvi" [850; 665]) = true ->
   fst (can_calculate_index indices_db "ndvi" [665; 480; 850; 665]) = true)
  /\ (incl [665; 480; 850; 665] [850; 665] ->
      can_calculate_index indices_db "ndvi" [665; 480; 850; 665]
      = can_calculate_index indices_db "ndvi" [850; 665]).
Proof.
  apply (can_calculate_index_set_of_wavelengths indices_db "ndvi"
           [850; 665] [665; 480; 850; 665]).
  intros x [<-|[<-|[]]]; simpl; auto.
Defined.

(** ** When [get_band_mapping] raises *)



(** ** Bands of the supplied wavelengths *)

Lemma dict_get_some_key {K V : Type} (eqb : K -> K -> bool) (k : K) (v : V)
    (d : dict K V) :
  dict_get eqb k d = Some v -> exists k', In (k', v) d /\ eqb k' k = true.
Proof.
  induction d as [|[k0 v0] d IH]; simpl; [discriminate|].
  destruct (eqb k0 k) eqn:E.
  - intros H. inversion H; subst. exists k0. auto.
  - intros H. destruct (IH H) as (k' & Hin & Hk). eauto.
Qed.

(** Every supplied wavelength has a band in the dict [main] builds. *)
Lemma wavelength_to_band_defined (ws : list Q) (bs : list string) (x : Q) :
  length bs = length ws -> In x ws ->
  exists b, dict_get Qeq_bool x (dict_of Qeq_bool (zip ws bs)) = Some b.
Proof.
  intros Hlen Hin.
  rewrite (dict_get_dict_of Qeq_bool Qeq_bool_sym Qeq_bool_trans).
  destruct (In_nth_error _ _ Hin) as (i & Hi).
  assert (Hb : exists b0, nth_error bs i = Some b0).
  { destruct (nth_error bs i) as [b0|] eqn:E; [eauto|].
    apply nth_error_None in E.
    assert (Hs : nth_error ws i <> None) by congruence.
    apply nth_error_Some in Hs. lia. }
  destruct Hb as (b0 & Hb0).
  pose proof (last_match_last Qeq_bool x (zip ws bs)) as H.
  destruct (last_match Qeq_bool x (zip ws bs)) as [b|]; [eauto|].
  assert (Hz : nth_error (zip ws bs) i = Some (x, b0))
    by (apply nth_error_zip; auto).
  specialize (H i x b0 Hz). rewrite Qeq_bool_reflexive in H. discriminate.
Qed.

(** ** Applying a formula *)

(** X6.  Applying a formula raises [KeyError] exactly when the binding lacks
    one of the roles the formula looks up; and the expression it returns
    depends only on what the binding gives to those roles. *)
Theorem apply_formula_depends_on_its_roles
    (f : list piece) (b b' : dict string string) :
  (apply_formula f b = None <->
   exists r, In r (formula_roles f) /\ dict_get String.eqb r b = None)
  /\ ((forall r, In r (formula_roles f) ->
         dict_get String.eqb r b' = dict_get String.eqb r b) ->
      apply_formula f b' = apply_formula f b).
Proof.
  split.
  - induction f as [|[s|x] f IH]; simpl.
    + split; [discriminate|]. intros (r & [] & _).
    + destruct (apply_formula f b) as [t|].
      * split; [discriminate|]. intros H. apply IH in H. discriminate.
      * split; [|reflexivity]. intros _. now apply IH.
    + destruct (dict_get String.eqb x b) as [v|] eqn:Ex.
      * destruct (apply_formula f b) as [t|].
        -- split; [discriminate|].
           intros (r & [Hr|Hr] & Hnone); [subst r; congruence|].
           assert (H : Some t = None) by (apply IH; eauto).
           discriminate H.
        -- split; [|reflexivity]. intros _.
           destruct (proj1 IH eq_refl) as (r & Hr & Hnone). eauto.
      * split; [|reflexivity]. intros _. exists x. auto.
  - induction f as [|[s|x] f IH]; simpl; intro Hagree.
    + reflexivity.
    + now rewrite IH.
    + rewrite (Hagree x (or_introl eq_refl)).
      rewrite IH; [reflexivity|]. intros r Hr. apply Hagree. now right.
Qed.

(** ** The engine calls of one index *)

Section CallFacts.
Variable Engine : Type.
Variable engine : engine_call -> Engine -> bool * Engine.

Lemma run_calls_trace (cs : list engine_call) :
  forall e,
    (fst (fst (run_calls Engine engine cs e)) = true ->
     snd (run_calls Engine engine cs e) = cs)
    /\ (fst (fst (run_calls Engine engine cs e)) = false ->
        exists pre c rest e0,
          snd (run_calls Engine engine cs e) = (pre ++ [c])%list
          /\ cs = (pre ++ c :: rest)%list
          /\ fst (engine c e0) = false).
Proof.
  induction cs as [|c cs IH]; intro e; simpl.
  - split; [reflexivity|discriminate].
  - destruct (engine c e) as [ok e1] eqn:Ec. destruct ok.
    + specialize (IH e1).
      destruct (run_calls Engine engine cs e1) as [[ok' e2] made].
      simpl in *. destruct IH as [IHt IHf]. split.
      * intros H. now rewrite (IHt H).
      * intros H. destruct (IHf H) as (pre & c' & rest & e0 & Hm & Hcs & Hc).
        exists (c :: pre), c', rest, e0. subst. auto.
    + simpl. split; [discriminate|]. intros _.
      exists [], c, cs, e. rewrite Ec. auto.
Qed.

(** The trace of one iteration, by outcome. *)
Lemma process_index_shape
    (self : dict string SpectralIndex) (ws : list Q)
    (wavelength_to_band : dict Q string) (output_prefix : string) (n : bool)
    (index_name : string) (e : Engine) :
  match process_index Engine engine self ws wavelength_to_band output_prefix
          n index_name e with
  | (Calculated, _, made) =>
      exists index_def formula,
        dict_get String.eqb index_name self = Some index_def
        /\ made
           = try_block_calls n index_name (output_prefix ++ "_" ++ index_name)
               formula index_def
  | (Skipped_failed, _, made) =>
      exists index_def formula pre c rest e0,
        dict_get String.eqb index_name self = Some index_def
        /\ made = (pre ++ [c])%list
        /\ try_block_calls n index_name (output_prefix ++ "_" ++ index_name)
             formula index_def
           = (pre ++ c :: rest)%list
        /\ fst (engine c e0) = false
  | (_, e', made) => made = [] /\ e' = e
  end.
Proof.
  unfold process_index.
  destruct (dict_contains String.eqb index_name self); cbn [negb];
    [|split; reflexivity].
  destruct (can_calculate_index self index_name ws) as [can msg].
  destruct can; cbn [negb]; [|split; reflexivity].
  destruct (get_band_mapping self index_name wavelength_to_band)
    as [band_mapping|]; [|split; reflexivity].
  destruct (dict_get String.eqb index_name self) as [index_def|];
    [|split; reflexivity].
  destruct (apply_formula (formula index_def) band_mapping) as [formula|];
    [|split; reflexivity].
  pose proof (run_calls_trace
                (try_block_calls n index_name
                   (output_prefix ++ "_" ++ index_name) formula index_def) e)
    as [Ht Hf].
  destruct (run_calls Engine engine _ e) as [[ok e'] made].
  simpl in Ht, Hf. destruct ok.
  - exists index_def, formula. split; [reflexivity|]. now apply Ht.
  - destruct (Hf eq_refl) as (pre & c & rest & e0 & Hm & Hcs & Hc).
    exists index_def, formula, pre, c, rest, e0. auto.
Qed.

(** X7.  What one iteration of the loop does to the engine, by outcome.  An
    index skipped before the [try] block (not in the database, or not
    feasible) makes no engine call and leaves the engine as it was.  An index
    counted as calculated made every call of its block: the primary
    expression, the normalization pair if any, and the colour table.  An
    index skipped because of the engine made the calls of its block up to and
    including one the engine refused, and none after it: in particular no
    colour table is set for a raster whose expression the engine refused. *)
Theorem process_index_engine_calls
    (self : dict string SpectralIndex) (ws : list Q)
    (wavelength_to_band : dict Q string) (output_prefix : string) (n : bool)
    (index_name : string) (e : Engine) :
  match process_index Engine engine self ws wavelength_to_band output_prefix
          n index_name e with
  | (Calculated, _, made) =>
      exists index_def formula,
        dict_get String.eqb index_name self = Some index_def
        /\ made
           = try_block_calls n index_name (output_prefix ++ "_" ++ index_name)
               formula index_def
  | (Skipped_failed, _, made) =>
      exists index_def formula pre c rest e0,
        dict_get String.eqb index_name self = Some index_def
        /\ made = (pre ++ [c])%list
        /\ try_block_calls n index_name (output_prefix ++ "_" ++ index_name)
             formula index_def
           = (pre ++ c :: rest)%list
        /\ fst (engine c e0) = false
  | (_, e', made) => made = [] /\ e' = e
  end.
Proof.
  exact (process_index_shape self ws wavelength_to_band
         output_prefix n index_name e).
Qed.

(** The calls of one iteration are an initial part of the calls of some
    [try] block. *)
Lemma process_index_calls_in_block
    (self : dict string SpectralIndex) (ws : list Q)
    (wavelength_to_band : dict Q string) (output_prefix : string) (n : bool)
    (index_name : string) (e : Engine) :
  snd (process_index Engine engine self ws wavelength_to_band output_prefix n
         index_name e) = []
  \/ exists index_def formula rest,
       try_block_calls n index_name (output_prefix ++ "_" ++ index_name)
         formula index_def
       = (snd (process_index Engine engine self ws wavelength_to_band
                 output_prefix n index_name e) ++ rest)%list.
Proof.
  pose proof (process_index_shape self ws wavelength_to_band output_prefix n
                index_name e) as H.
  destruct (process_index Engine engine self ws wavelength_to_band
              output_prefix n index_name e) as [[o e'] made].
  cbn [snd]. destruct o.
  - destruct H as (index_def & formula & _ & Hm). right.
    exists index_def, formula, []. now rewrite app_nil_r.
  - left. tauto.
  - left. tauto.
  - destruct H as (index_def & formula & pre & c & rest & e0 & _ & Hm & Hcs & _).
    right. exists index_def, formula, rest. subst made.
    rewrite <- app_assoc. exact Hcs.
  - left. tauto.
Qed.

End CallFacts.

(** ** The engine calls of a whole run *)

Section RunFacts.
Variable float : string -> option Q.
Variable Engine : Type.
Variable engine : engine_call -> Engine -> bool * Engine.

Lemma try_block_calls_length (n : bool) (index_name output_name f : string)
    (index_def : SpectralIndex) :
  (length (try_block_calls n index_name output_name f index_def)
   <= if n then 4 else 2)%nat.
Proof.
  unfold try_block_calls, normalization_calls.
  destruct (normalize_range index_def) as [[lo hi]|], n; simpl; lia.
Qed.

Lemma try_block_calls_no_rename (index_name output_name f : string)
    (index_def : SpectralIndex) :
  Forall (fun c => match c with GRename _ => False | _ => True end)
    (try_block_calls false index_name output_name f index_def).
Proof.
  unfold try_block_calls, normalization_calls.
  destruct (normalize_range index_def) as [[lo hi]|]; simpl;
    repeat constructor.
Qed.

(** Whatever holds of every call of every [try] block holds of every call the
    loop makes, and the loop makes at most as many calls per name as a block
    has. *)
Lemma calculation_loop_calls (P : engine_call -> Prop) (bound : nat)
    (self : dict string SpectralIndex) (ws : list Q)
    (wavelength_to_band : dict Q string) (output_prefix : string) (n : bool) :
  (forall index_name f index_def,
      Forall P
        (try_block_calls n index_name (output_prefix ++ "_" ++ index_name) f
           index_def)
      /\ (length
            (try_block_calls n index_name
               (output_prefix ++ "_" ++ index_name) f index_def)
          <= bound)%nat) ->
  forall names st,
    exists extra,
      calls Engine
        (fst (calculation_loop Engine engine self ws wavelength_to_band
                output_prefix n names st))
      = (calls Engine st ++ extra)%list
      /\ Forall P extra
      /\ (length extra <= bound * length names)%nat.
Proof.
  intros Hblock. induction names as [|index_name names IH]; intro st; simpl.
  - exists []. rewrite app_nil_r.
    split; [reflexivity|]. split; [constructor|simpl; lia].
  - pose proof (process_index_calls_in_block Engine engine self ws
                  wavelength_to_band output_prefix n index_name
                  (engine_state Engine st)) as Hmade.
    destruct (process_index Engine engine self ws wavelength_to_band
                output_prefix n index_name (engine_state Engine st))
      as [[o e] made].
    cbn [snd] in Hmade.
    assert (HP : Forall P made /\ (length made <= bound)%nat).
    { destruct Hmade as [->|(index_def & f & rest & Heq)].
      - split; [constructor|simpl; lia].
      - destruct (Hblock index_name f index_def) as [HF HL].
        rewrite Heq in HF, HL. split.
        + now apply Forall_app in HF.
        + rewrite length_app in HL. lia. }
    destruct HP as [HF HL].
    assert (Hstop :
              exists extra,
                calls Engine (record_outcome Engine st index_name o e made)
                = (calls Engine st ++ extra)%list
                /\ Forall P extra
                /\ (length extra <= bound * S (length names))%nat).
    { exists made. simpl. repeat split; [exact HF|nia]. }
    destruct (IH (record_outcome Engine st index_name o e made))
      as (extra & Hc & HFe & HLe).
    assert (Hgo :
              exists extra0,
                calls Engine
                  (fst (calculation_loop Engine engine self ws
                          wavelength_to_band output_prefix n names
                          (record_outcome Engine st index_name o e made)))
                = (calls Engine st ++ extra0)%list
                /\ Forall P extra0
                /\ (length extra0 <= bound * S (length names))%nat).
    { exists (made ++ extra)%list. rewrite Hc. simpl.
      rewrite <- app_assoc. repeat split.
      - apply Forall_app. auto.
      - rewrite length_app. nia. }
    destruct o; try exact Hgo. exact Hstop.
Qed.

(** The state [main] ends in: the initial one, or the one the loop leaves. *)
Lemma main_state (options : options) (flags : flags) (e : Engine) :
  snd (main float Engine engine options flags e) = initial_state Engine e
  \/ exists ws,
       snd (main float Engine engine options flags e)
       = fst (calculation_loop Engine engine indices_db ws
                (dict_of Qeq_bool (zip ws (split "," (opt_input options))))
                (opt_output_prefix options) (flag_n flags)
                (select_indices indices_db (opt_indices options)
                   (opt_theme options))
                (initial_state Engine e)).
Proof.
  unfold main.
  destruct (flag_l flags); [now left|].
  destruct (truthy (opt_input options)); cbn [negb]; [|now left].
  destruct (truthy (opt_wavelengths options)); cbn [negb]; [|now left].
  destruct (truthy (opt_output_prefix options)); cbn [negb]; [|now left].
  destruct (parse_wavelengths float (split "," (opt_wavelengths options)))
    as [ws|]; [|now left].
  destruct (length (split "," (opt_input options)) =? length ws)%nat;
    cbn [negb]; [|now left].
  right. exists ws.
  destruct (calculation_loop Engine engine indices_db ws _ _ _ _ _)
    as [st finished].
  destruct finished; reflexivity.
Qed.

(** X8.  Without the [-n] flag a run never renames a raster: every engine
    call is a [mapcalc] or a colour-table assignment. *)
Theorem main_renames_only_with_flag_n
    (options : options) (flags : flags) (e : Engine)
    (Hn : flag_n flags = false) :
  Forall (fun c => match c with GRename _ => False | _ => True end)
    (calls Engine (snd (main float Engine engine options flags e))).
Proof.
  destruct (main_state options flags e) as [->|(ws & ->)];
    [constructor|].
  rewrite Hn.
  destruct (calculation_loop_calls
              (fun c => match c with GRename _ => False | _ => True end) 2
              indices_db ws
              (dict_of Qeq_bool (zip ws (split "," (opt_input options))))
              (opt_output_prefix options) false)
    with (names := select_indices indices_db (opt_indices options)
                     (opt_theme options))
         (st := initial_state Engine e)
    as (extra & Hc & HF & _).
  { intros index_name f index_def. split.
    - apply try_block_calls_no_rename.
    - apply (try_block_calls_length false). }
  rewrite Hc. exact HF.
Qed.

(** X9.  A run makes at most four engine calls per selected name, and at most
    two without the [-n] flag, whatever the engine answers. *)
Theorem main_engine_calls_bounded
    (options : options) (flags : flags) (e : Engine) :
  (length (calls Engine (snd (main float Engine engine options flags e)))
   <= (if flag_n flags then 4 else 2)
      * length (select_indices indices_db (opt_indices options)
                  (opt_theme options)))%nat.
Proof.
  destruct (main_state options flags e) as [->|(ws & ->)];
    [simpl; lia|].
  destruct (calculation_loop_calls (fun _ => True)
              (if flag_n flags then 4 else 2)
              indices_db ws
              (dict_of Qeq_bool (zip ws (split "," (opt_input options))))
              (opt_output_prefix options) (flag_n flags))
    with (names := select_indices indices_db (opt_indices options)
                     (opt_theme options))
         (st := initial_state Engine e)
    as (extra & Hc & _ & HL).
  { intros index_name f index_def. split.
    - apply Forall_forall. auto.
    - apply try_block_calls_length. }
  rewrite Hc. exact HL.
Qed.

End RunFacts.

Lemma main_renames_only_with_flag_n_witness :
  Forall (fun c => match c with GRename _ => False | _ => True end)
    (calls unit
       (snd (main float_of_digits unit engine_ok
               {| opt_input := "b1,b2"; opt_wavelengths := "665,850";
                  opt_output_prefix := "out"; opt_indices := "ndvi,savi";
                  opt_theme := "" |}
               {| flag_l := false; flag_i := false; flag_n := false |} tt))).
Proof.
  apply (main_renames_only_with_flag_n float_of_digits unit engine_ok).
  reflexivity.
Defined.

(** ** Validation *)

Lemma truthy_false_iff (s : string) : truthy s = false <-> s = "".
Proof.
  unfold truthy. rewrite negb_false_iff. apply String.eqb_eq.
Qed.

(** X10.  [main] reaches the summary exactly when it is not asked to list,
    the three required options are non-empty, every wavelength parses, and
    there are as many bands as wavelengths.  In every other case it stops
    before the first engine call, with nothing calculated or skipped; and no
    exception ever leaves the calculation loop. *)
Theorem main_summary_iff_valid
    (float : string -> option Q) (Engine : Type)
    (engine : engine_call -> Engine -> bool * Engine)
    (options : options) (flags : flags) (e : Engine) :
  ((exists c s, fst (main float Engine engine options flags e) = Summary c s)
   <->
   flag_l flags = false
   /\ opt_input options <> ""
   /\ opt_wavelengths options <> ""
   /\ opt_output_prefix options <> ""
   /\ exists ws,
        parse_wavelengths float (split "," (opt_wavelengths options))
        = Some ws
        /\ length (split "," (opt_input options)) = length ws)
  /\ ((forall c s,
          fst (main float Engine engine options flags e) <> Summary c s) ->
      snd (main float Engine engine options flags e)
      = initial_state Engine e)
  /\ fst (main float Engine engine options flags e) <> Uncaught.
Proof.
  unfold main.
  destruct (flag_l flags) eqn:El.
  { cbn [fst snd]. split; [|split; [reflexivity|discriminate]].
    split; [intros (c & s & H); discriminate|].
    intros (H & _). discriminate. }
  destruct (truthy (opt_input options)) eqn:Ei; cbn [negb].
  2:{ cbn [fst snd]. split; [|split; [reflexivity|discriminate]].
      split; [intros (c & s & H); discriminate|].
      intros (_ & H & _). apply truthy_false_iff in Ei. contradiction. }
  destruct (truthy (opt_wavelengths options)) eqn:Ew; cbn [negb].
  2:{ cbn [fst snd]. split; [|split; [reflexivity|discriminate]].
      split; [intros (c & s & H); discriminate|].
      intros (_ & _ & H & _). apply truthy_false_iff in Ew. contradiction. }
  destruct (truthy (opt_output_prefix options)) eqn:Ep; cbn [negb].
  2:{ cbn [fst snd]. split; [|split; [reflexivity|discriminate]].
      split; [intros (c & s & H); discriminate|].
      intros (_ & _ & _ & H & _). apply truthy_false_iff in Ep.
      contradiction. }
  destruct (parse_wavelengths float (split "," (opt_wavelengths options)))
    as [ws|] eqn:Eparse.
  2:{ cbn [fst snd]. split; [|split; [reflexivity|discriminate]].
      split; [intros (c & s & H); discriminate|].
      intros (_ & _ & _ & _ & ws & H & _). discriminate. }
  destruct (length (split "," (opt_input options)) =? length ws)%nat
    eqn:Elen; cbn [negb].
  2:{ cbn [fst snd]. split; [|split; [reflexivity|discriminate]].
      split; [intros (c & s & H); discriminate|].
      intros (_ & _ & _ & _ & ws' & H & Hl). inversion H; subst ws'.
      apply Nat.eqb_neq in Elen. contradiction. }
  apply Nat.eqb_eq in Elen.
  destruct (calculation_loop_total Engine engine ws
              (split "," (opt_input options)) (opt_output_prefix options)
              (flag_n flags) Elen
              (select_indices indices_db (opt_indices options)
                 (opt_theme options))
              (initial_state Engine e))
    as (st & new & Hloop & _).
  rewrite Hloop. cbn [fst snd].
  split; [|split; [|discriminate]].
  - split; [|eauto]. intros _.
    apply truthy_iff in Ei, Ew, Ep. repeat split; auto. exists ws. auto.
  - intros H. exfalso. exact (H _ _ eq_refl).
Qed.

(** ** A theme that no index has *)

Lemma filter_none {A : Type} (f : A -> bool) (l : list A) :
  (forall x, In x l -> f x = false) -> filter f l = [].
Proof.
  induction l as [|x l IH]; simpl; intro H; [reflexivity|].
  rewrite (H x (or_introl eq_refl)). apply IH. intros y Hy. apply H.
  now right.
Qed.

Lemma list_indices_unknown_theme (self : dict string SpectralIndex)
    (t : string) :
  t <> "" -> ~ In t (get_themes self) -> list_indices self (Some t) = [].
Proof.
  intros Ht Hout. rewrite (list_indices_filter self t Ht).
  apply filter_none. intros index Hin.
  apply String.eqb_neq. intro Heq. apply Hout. apply get_themes_in.
  exists index. split; [|exact Heq].
  exact (Permutation_in _ (list_indices_perm self) Hin).
Qed.

(** X11.  A theme that no catalog entry has selects no index at all,
    whatever the indices option says: a valid run with such a theme goes
    straight to the summary with nothing calculated, nothing skipped and no
    engine call.  The value [all], which the theme option offers, is such a
    theme. *)
Theorem unknown_theme_calculates_nothing
    (float : string -> option Q) (Engine : Type)
    (engine : engine_call -> Engine -> bool * Engine)
    (options : options) (flags : flags) (e : Engine) (ws : list Q)
    (Ht : opt_theme options <> "")
    (Hout : ~ In (opt_theme options) (get_themes indices_db))
    (Hl : flag_l flags = false)
    (Hi : opt_input options <> "")
    (Hw : opt_wavelengths options <> "")
    (Hp : opt_output_prefix options <> "")
    (Hparse :
       parse_wavelengths float (split "," (opt_wavelengths options)) = Some ws)
    (Hcount : length (split "," (opt_input options)) = length ws) :
  select_indices indices_db (opt_indices options) (opt_theme options) = []
  /\ main float Engine engine options flags e
     = (Summary 0 0, initial_state Engine e)
  /\ ~ In "all" (get_themes indices_db).
Proof.
  assert (Hsel :
            select_indices indices_db (opt_indices options)
              (opt_theme options) = []).
  { unfold select_indices. rewrite (proj2 (truthy_iff _) Ht).
    now rewrite (list_indices_unknown_theme indices_db _ Ht Hout). }
  split; [exact Hsel|]. split.
  - unfold main. rewrite Hl.
    rewrite (proj2 (truthy_iff _) Hi), (proj2 (truthy_iff _) Hw),
      (proj2 (truthy_iff _) Hp).
    cbn [negb]. rewrite Hparse, Hcount, Nat.eqb_refl. cbn [negb].
    rewrite Hsel. reflexivity.
  - vm_compute. intuition discriminate.
Qed.

Lemma unknown_theme_calculates_nothing_witness :
  select_indices indices_db "ndvi" "all" = []
  /\ main float_of_digits unit engine_ok
       {| opt_input := "b1,b2"; opt_wavelengths := "665,850";
          opt_output_prefix := "out"; opt_indices := "ndvi";
          opt_theme := "all" |}
       {| flag_l := false; flag_i := false; flag_n := false |} tt
     = (Summary 0 0, initial_state unit tt)
  /\ ~ In "all" (get_themes indices_db).
Proof.
  apply (unknown_theme_calculates_nothing float_of_digits unit engine_ok
           {| opt_input := "b1,b2"; opt_wavelengths := "665,850";
              opt_output_prefix := "out"; opt_indices := "ndvi";
              opt_theme := "all" |}
           {| flag_l := false; flag_i := false; flag_n := false |} tt
           [665; 850]);
    try reflexivity; try discriminate.
  vm_compute. intuition discriminate.
Defined.

(** ** The keys of the wavelength-to-band dict *)

Section DictKeys.
Context {K V : Type} (eqb : K -> K -> bool).

Lemma dict_keys_set (k : K) (v : V) (d : dict K V) :
  dict_keys (dict_set eqb k v d)
  = if existsb (fun s => eqb s k) (dict_keys d) then dict_keys d
    else (dict_keys d ++ [k])%list.
Proof.
  induction d as [|[k0 v0] d IH]; simpl; [reflexivity|].
  destruct (eqb k0 k); simpl; [reflexivity|].
  rewrite IH. destruct (existsb (fun s => eqb s k) (dict_keys d));
    reflexivity.
Qed.

Lemma dict_keys_fold_set (l : list (K * V)) :
  forall acc,
    dict_keys (fold_left (fun d kv => dict_set eqb (fst kv) (snd kv) d) l acc)
    = (dict_keys acc
       ++ first_occurrences eqb (dict_keys acc) (map fst l))%list.
Proof.
  induction l as [|[k v] l IH]; intro acc; simpl.
  - now rewrite app_nil_r.
  - rewrite IH, dict_keys_set.
    destruct (existsb (fun s => eqb s k) (dict_keys acc)); [reflexivity|].
    now rewrite <- app_assoc.
Qed.

Lemma first_occurrences_spec (l : list K) :
  forall seen,
    ForallOrdPairs (fun a b => eqb a b = false)
      (first_occurrences eqb seen l)
    /\ (forall x, In x (first_occurrences eqb seen l) ->
          In x l /\ forall s, In s seen -> eqb s x = false).
Proof.
  induction l as [|x l IH]; intro seen; simpl.
  - split; [constructor|intros ? []].
  - destruct (existsb (fun s => eqb s x) seen) eqn:E.
    + destruct (IH seen) as [Hp Hin]. split; [exact Hp|].
      intros y Hy. destruct (Hin y Hy). auto.
    + destruct (IH (seen ++ [x])%list) as [Hp Hin]. split.
      * constructor; [|exact Hp].
        apply Forall_forall. intros y Hy. destruct (Hin y Hy) as [_ Hs].
        apply Hs. apply in_or_app. right. now left.
      * intros y [Hy|Hy].
        -- subst y. split; [now left|]. intros s Hs.
           destruct (eqb s x) eqn:Es; [|reflexivity].
           assert (Hex : existsb (fun s => eqb s x) seen = true)
             by (apply existsb_exists; eauto).
           congruence.
        -- destruct (Hin y Hy) as [Hl Hs]. split; [now right|].
           intros s Hsin. apply Hs. apply in_or_app. now left.
Qed.

End DictKeys.

Lemma ForallOrdPairs_impl {A : Type} (R R' : A -> A -> Prop) (l : list A) :
  (forall a b, R a b -> R' a b) ->
  ForallOrdPairs R l -> ForallOrdPairs R' l.
Proof.
  intros Himp. induction 1 as [|a l Ha Hl IH]; constructor; [|exact IH].
  rewrite Forall_forall in Ha |- *. auto.
Qed.

Lemma zip_fst {A B : Type} (xs : list A) (ys : list B) :
  length ys = length xs -> map fst (zip xs ys) = xs.
Proof.
  unfold zip. revert ys. induction xs as [|x xs IH]; intros [|y ys] H;
    simpl in *; try reflexivity; try discriminate.
  f_equal. apply IH. lia.
Qed.

(** X12.  The keys of the dict built from the wavelength and band lists are
    the wavelengths in the order of their first occurrence: a repeated
    wavelength keeps the position of its first occurrence (while its band is
    the one of its last occurrence), no two keys are equal, and every
    supplied wavelength equals one of the keys.  This is the candidate order
    in which [get_band_mapping] breaks ties. *)
Theorem wavelength_to_band_keys_first_occurrences
    (ws : list Q) (bs : list string) (Hlen : length bs = length ws) :
  dict_keys (dict_of Qeq_bool (zip ws bs)) = first_occurrences Qeq_bool [] ws
  /\ ForallOrdPairs (fun a b => ~ a == b)
       (dict_keys (dict_of Qeq_bool (zip ws bs)))
  /\ (forall k, In k (dict_keys (dict_of Qeq_bool (zip ws bs))) -> In k ws)
  /\ (forall w, In w ws ->
        exists k,
          In k (dict_keys (dict_of Qeq_bool (zip ws bs))) /\ k == w).
Proof.
  assert (Hkeys :
            dict_keys (dict_of Qeq_bool (zip ws bs))
            = first_occurrences Qeq_bool [] ws).
  { unfold dict_of. rewrite dict_keys_fold_set. simpl.
    now rewrite (zip_fst ws bs Hlen). }
  destruct (first_occurrences_spec Qeq_bool ws []) as [Hp Hin].
  split; [exact Hkeys|]. rewrite Hkeys. split; [|split].
  - apply (ForallOrdPairs_impl (fun a b => Qeq_bool a b = false)); [|exact Hp].
    intros a b Hab Heq. apply Qeq_bool_iff in Heq. congruence.
  - intros k Hk. now destruct (Hin k Hk).
  - intros w Hw. rewrite <- Hkeys.
    destruct (wavelength_to_band_defined ws bs w Hlen Hw) as (b & Hb).
    destruct (dict_get_some_key Qeq_bool w b _ Hb) as (k & Hk & Hkw).
    exists k. split.
    + unfold dict_keys. change k with (fst (k, b)). now apply in_map.
    + now apply Qeq_bool_iff.
Qed.

Lemma wavelength_to_band_keys_first_occurrences_witness :
  dict_keys (dict_of Qeq_bool (zip [850; 665; 850] ["b1"; "b2"; "b3"]))
  = first_occurrences Qeq_bool [] [850; 665; 850].
Proof.
  refine (proj1 (wavelength_to_band_keys_first_occurrences [850; 665; 850]
                   ["b1"; "b2"; "b3"] _)).
  reflexivity.
Defined.

(** ** Output names *)

Lemma string_app_inj_l (p a b : string) : p ++ a = p ++ b -> a = b.
Proof.
  induction p as [|c p IH]; simpl; intro H; [exact H|].
  inversion H. auto.
Qed.

(** X13.  Two different index names never share an output raster, and the
    temporary raster of the normalization step of one catalog index is never
    the output raster of another catalog index: within a run, no index
    overwrites what another index wrote. *)
Theorem output_names_do_not_collide (output_prefix a b : string) :
  (output_prefix ++ "_" ++ a = output_prefix ++ "_" ++ b -> a = b)
  /\ (In a (dict_keys indices_db) -> In b (dict_keys indices_db) ->
      (output_prefix ++ "_" ++ a) ++ "_temp" <> output_prefix ++ "_" ++ b).
Proof.
  split.
  - intros H. apply string_app_inj_l in H. now apply string_app_inj_l in H.
  - intros Ha Hb Heq.
    rewrite !string_app_assoc in Heq.
    apply string_app_inj_l in Heq. apply string_app_inj_l in Heq.
    assert (Hcheck :
              forallb
                (fun k => negb (string_in (k ++ "_temp")
                                  (dict_keys indices_db)))
                (dict_keys indices_db) = true)
      by (vm_compute; reflexivity).
    pose proof (proj1 (forallb_forall _ _) Hcheck a Ha) as Hk.
    apply negb_true_iff in Hk.
    rewrite Heq in Hk. apply string_in_iff in Hb. congruence.
Qed.

(** ** What decides the outcome of an index *)

(** How the outcome of one iteration is decided. *)
Lemma outcome_decided
    (Engine : Type) (engine : engine_call -> Engine -> bool * Engine)
    (ws : list Q) (bs : list string) (output_prefix : string) (n : bool)
    (index_name : string) (e : Engine) (o : outcome)
    (Hlen : length bs = length ws)
    (Ho : o = fst (fst (process_index Engine engine indices_db ws
                          (dict_of Qeq_bool (zip ws bs)) output_prefix n
                          index_name e))) :
  (o = Skipped_not_found <->
   dict_contains String.eqb index_name indices_db = false)
  /\ (forall msg,
         o = Skipped_cannot_calculate msg <->
         dict_contains String.eqb index_name indices_db = true
         /\ can_calculate_index indices_db index_name ws = (false, msg))
  /\ (o = Calculated \/ o = Skipped_failed <->
      dict_contains String.eqb index_name indices_db = true
      /\ fst (can_calculate_index indices_db index_name ws) = true)
  /\ ((forall c e0, fst (engine c e0) = true) ->
      (o = Calculated <->
       dict_contains String.eqb index_name indices_db = true
       /\ fst (can_calculate_index indices_db index_name ws) = true)).
Proof.
  subst o. unfold process_index.
  destruct (dict_contains String.eqb index_name indices_db) eqn:Hc;
    cbn [negb fst].
  2:{ split; [tauto|]. split; [|split].
      - intros msg. split; [discriminate|]. intros [H _]. discriminate.
      - split; [intros [H|H]; discriminate|]. intros [H _]. discriminate.
      - intros _. split; [discriminate|]. intros [H _]. discriminate. }
  destruct (can_calculate_index indices_db index_name ws) as [can msg0] eqn:Hcc.
  destruct can; cbn [negb fst].
  2:{ split; [split; discriminate|]. split; [|split].
      - intros msg. split.
        + intros H. inversion H. auto.
        + intros [_ H]. inversion H. reflexivity.
      - split; [intros [H|H]; discriminate|]. intros [_ H]. discriminate.
      - intros _. split; [discriminate|]. intros [_ H]. discriminate. }
  destruct (dict_contains_string_in _ _ Hc) as (index & Hget & _).
  destruct (feasible_resolution index_name index ws bs Hlen Hget)
    as (mapping & Hm & _ & _ & expression & Hex).
  { now rewrite Hcc. }
  rewrite Hm, Hget, Hex.
  pose proof (run_calls_trace Engine engine
                (try_block_calls n index_name
                   (output_prefix ++ "_" ++ index_name) expression index) e)
    as [_ Hf].
  destruct (run_calls Engine engine _ e) as [[ok e'] made].
  cbn [fst snd] in *.
  split; [split; [destruct ok|]; discriminate|].
  split; [|split].
  - intros msg. split; [destruct ok; discriminate|].
    intros [_ H]. discriminate.
  - split; [auto|]. intros _. destruct ok; auto.
  - intros Hnever. split; [auto|]. intros _.
    destruct ok; [reflexivity|].
    destruct (Hf eq_refl) as (pre & c & rest & e0 & _ & _ & Hc0).
    rewrite (Hnever c e0) in Hc0. discriminate.
Qed.

(** X14.  For the catalog and equally long band and wavelength lists, the
    outcome of an index is decided as follows, for every engine: it is
    skipped as not found exactly when its name is not a key of the database;
    skipped as not calculable, with the message of [can_calculate_index],
    exactly when it is a key and that check fails; and otherwise it is
    calculated or skipped for an engine failure.  With an engine that never
    raises, it is calculated exactly when it is a key and feasible. *)
Theorem process_index_outcome_decided
    (Engine : Type) (engine : engine_call -> Engine -> bool * Engine)
    (ws : list Q) (bs : list string) (output_prefix : string) (n : bool)
    (index_name : string) (e : Engine) (o : outcome)
    (Hlen : length bs = length ws)
    (Ho : o = fst (fst (process_index Engine engine indices_db ws
                          (dict_of Qeq_bool (zip ws bs)) output_prefix n
                          index_name e))) :
  (o = Skipped_not_found <->
   dict_contains String.eqb index_name indices_db = false)
  /\ (forall msg,
         o = Skipped_cannot_calculate msg <->
         dict_contains String.eqb index_name indices_db = true
         /\ can_calculate_index indices_db index_name ws = (false, msg))
  /\ (o = Calculated \/ o = Skipped_failed <->
      dict_contains String.eqb index_name indices_db = true
      /\ fst (can_calculate_index indices_db index_name ws) = true)
  /\ ((forall c e0, fst (engine c e0) = true) ->
      (o = Calculated <->
       dict_contains String.eqb index_name indices_db = true
       /\ fst (can_calculate_index indices_db index_name ws) = true)).
Proof.
  exact (outcome_decided Engine engine ws bs output_prefix n index_name e o
           Hlen Ho).
Qed.

Lemma process_index_outcome_decided_witness :
  Calculated = Calculated \/ Calculated = Skipped_failed <->
  dict_contains String.eqb "NDVI" indices_db = true
  /\ fst (can_calculate_index indices_db "NDVI" [665; 850]) = true.
Proof.
  refine (proj1 (proj2 (proj2
            (process_index_outcome_decided unit engine_ok [665; 850]
               ["b1"; "b2"] "out" false "NDVI" tt Calculated _ _))));
    reflexivity.
Defined.

(** ** The names a run selects *)

Lemma ascii_upper_idempotent (c : ascii) :
  ascii_upper (ascii_upper c) = ascii_upper c.
Proof.
  destruct c as [[] [] [] [] [] [] [] []]; reflexivity.
Qed.

Lemma upper_idempotent (s : string) : upper (upper s) = upper s.
Proof.
  unfold upper. induction s as [|c s IH]; simpl; [reflexivity|].
  now rewrite ascii_upper_idempotent, IH.
Qed.

Lemma sorted_names_NoDup (l : list SpectralIndex) :
  StronglySorted name_lt l -> NoDup (map name l).
Proof.
  induction 1 as [|a l Hl IH Ha]; simpl; constructor; [|exact IH].
  intro Hin. apply in_map_iff in Hin. destruct Hin as (x & Hx & Hin).
  rewrite Forall_forall in Ha. specialize (Ha x Hin).
  unfold name_lt in Ha. rewrite Hx in Ha.
  exact (string_lt_irrefl _ Ha).
Qed.

Lemma dict_contains_of_key {V : Type} (k : string) (d : dict string V) :
  In k (dict_keys d) -> dict_contains String.eqb k d = true.
Proof.
  intros Hin. unfold dict_contains.
  destruct (dict_get_of_key String.eqb String.eqb_refl k d Hin) as (v & ->).
  reflexivity.
Qed.

Lemma catalog_value_key (index : SpectralIndex) :
  In index (dict_values indices_db) -> In (name index) (dict_keys indices_db).
Proof.
  unfold dict_values. intros Hin. apply in_map_iff in Hin.
  destruct Hin as ([k v] & Hv & Hin). simpl in Hv. subst v.
  pose proof (proj1 (forallb_forall _ _) catalog_consistent _ Hin) as H.
  unfold entry_consistent in H. cbn [fst snd] in H.
  rewrite !andb_true_iff in H. destruct H as [[[_ Hname] _] _].
  apply String.eqb_eq in Hname. rewrite Hname.
  unfold dict_keys. change k with (fst (k, index)). now apply in_map.
Qed.

(** X15.  What the selection block can select.  With a theme, or with the
    literal [all], every selected name is a key of the catalog and no name is
    selected twice, so the "not found in database" branch of the loop is
    never taken.  With an explicit list, every selected name is its own
    upper-case form, whatever the user typed. *)
Theorem select_indices_selected_names (indices_str theme : string) :
  (theme <> "" \/ lower indices_str = "all" ->
   NoDup (select_indices indices_db indices_str theme)
   /\ forall nm,
        In nm (select_indices indices_db indices_str theme) ->
        dict_contains String.eqb nm indices_db = true)
  /\ (theme = "" -> lower indices_str <> "all" ->
      forall nm,
        In nm (select_indices indices_db indices_str theme) ->
        upper nm = nm).
Proof.
  unfold select_indices. split.
  - destruct (truthy theme) eqn:Et.
    + intros _. apply truthy_iff in Et. split.
      * apply sorted_names_NoDup.
        rewrite (list_indices_filter indices_db theme Et).
        apply StronglySorted_filter. exact list_indices_all_sorted.
      * intros nm Hin. apply in_map_iff in Hin.
        destruct Hin as (index & <- & Hin).
        apply dict_contains_of_key, catalog_value_key.
        rewrite (list_indices_filter indices_db theme Et) in Hin.
        apply filter_In in Hin. destruct Hin as [Hin _].
        exact (Permutation_in _ (list_indices_perm indices_db) Hin).
    + apply truthy_false_iff in Et. intros [H|H]; [contradiction|].
      rewrite H. cbn [String.eqb Ascii.eqb Bool.eqb]. split.
      * apply distinct_NoDup. vm_compute. reflexivity.
      * intros nm Hin. now apply dict_contains_of_key.
  - intros -> Hall. cbn [truthy String.eqb negb].
    apply String.eqb_neq in Hall. rewrite Hall.
    intros nm Hin. apply in_map_iff in Hin. destruct Hin as (s & <- & _).
    apply upper_idempotent.
Qed.

Lemma select_indices_selected_names_witness :
  NoDup (select_indices indices_db "ndvi,ndvi" "stress")
  /\ forall nm,
       In nm (select_indices indices_db "ndvi,ndvi" "stress") ->
       dict_contains String.eqb nm indices_db = true.
Proof.
  refine (proj1 (select_indices_selected_names "ndvi,ndvi" "stress") _).
  left. discriminate.
Defined.

(** ** Catalog-wide facts *)

(** X16.  For every index of the catalog the colour table follows from the
    theme alone: [ndvi] for the vegetation theme, [water] for the water
    theme, [viridis] otherwise.  The tests on the letters NDV and EVI in the
    name never change the choice. *)
Theorem color_table_follows_theme (k : string) (index : SpectralIndex)
    (Hget : dict_get String.eqb k indices_db = Some index) :
  color_table k index = palette_of_theme (theme index).
Proof.
  assert (Hcheck :
            forallb
              (fun kv =>
                 String.eqb (color_table (fst kv) (snd kv))
                   (palette_of_theme (theme (snd kv))))
              indices_db = true)
    by (vm_compute; reflexivity).
  apply dict_get_string_some_in in Hget.
  pose proof (proj1 (forallb_forall _ _) Hcheck _ Hget) as H.
  now apply String.eqb_eq in H.
Qed.

Lemma color_table_follows_theme_witness :
  color_table "NDWI" idx_NDWI = palette_of_theme (theme idx_NDWI).
Proof.
  apply (color_table_follows_theme "NDWI" idx_NDWI). reflexivity.
Defined.

(** X17.  Every requirement of every catalog index is a proper range with
    [lo <= hi], and every index has at least one; and every index other than
    CIrededge is calculated by an engine that never fails when it is given
    one band at the centre of each of its ranges.  CIrededge is the only
    index of the catalog that no input can calculate. *)
Theorem every_other_index_is_calculable
    (k : string) (index : SpectralIndex)
    (output_prefix : string) (n : bool)
    (Hget : dict_get String.eqb k indices_db = Some index) :
  (forall role req,
      In (role, req) (bands_required index) ->
      exists lo hi, req = Range lo hi /\ lo <= hi)
  /\ bands_required index <> []
  /\ (k <> "CIrededge" ->
      fst (fst (process_index unit engine_ok indices_db
                  (centre_wavelengths index)
                  (dict_of Qeq_bool
                     (zip (centre_wavelengths index)
                        (dict_keys (bands_required index))))
                  output_prefix n k tt))
      = Calculated).
Proof.
  assert (Hcheck :
            forallb
              (fun kv =>
                 forallb (fun rq => proper_range (snd rq))
                   (bands_required (snd kv))
                 && negb (length (bands_required (snd kv)) =? 0)%nat
                 && (String.eqb (fst kv) "CIrededge"
                     || fst (can_calculate_index indices_db (fst kv)
                               (centre_wavelengths (snd kv)))))
              indices_db = true)
    by (vm_compute; reflexivity).
  pose proof (dict_get_string_some_in _ _ _ Hget) as Hin.
  pose proof (proj1 (forallb_forall _ _) Hcheck _ Hin) as H.
  cbn [fst snd] in H. rewrite !andb_true_iff in H.
  destruct H as [[Hranges Hne] Hfeas].
  split; [|split].
  - intros role req Hr.
    pose proof (proj1 (forallb_forall _ _) Hranges _ Hr) as Hp.
    cbn [snd] in Hp. destruct req as [lo hi|t]; [|discriminate].
    exists lo, hi. split; [reflexivity|]. now apply Qle_bool_iff.
  - intro Hnil. rewrite Hnil in Hne. discriminate.
  - intros Hk. apply orb_true_iff in Hfeas.
    destruct Hfeas as [Hf|Hf]; [apply String.eqb_eq in Hf; contradiction|].
    assert (Hlen : length (dict_keys (bands_required index))
                   = length (centre_wavelengths index)).
    { unfold centre_wavelengths, dict_keys. now rewrite !length_map. }
    destruct (outcome_decided unit engine_ok (centre_wavelengths index)
                (dict_keys (bands_required index)) output_prefix n k tt _
                Hlen eq_refl) as (_ & _ & _ & Hok).
    apply (Hok (fun _ _ => eq_refl)).
    split; [|exact Hf]. unfold dict_contains. now rewrite Hget.
Qed.

Lemma every_other_index_is_calculable_witness :
  (forall role req,
      In (role, req) (bands_required idx_CAI) ->
      exists lo hi, req = Range lo hi /\ lo <= hi)
  /\ bands_required idx_CAI <> []
  /\ ("CAI" <> "CIrededge" ->
      fst (fst (process_index unit engine_ok indices_db
                  (centre_wavelengths idx_CAI)
                  (dict_of Qeq_bool
                     (zip (centre_wavelengths idx_CAI)
                        (dict_keys (bands_required idx_CAI))))
                  "out" true "CAI" tt))
      = Calculated).
Proof.
  apply (every_other_index_is_calculable "CAI" idx_CAI "out" true).
  reflexivity.
Defined.

(** ** The listing of [list_available_indices] *)






(** ** The normalized range *)

(** X19.  The normalization expression maps the declared range onto the unit
    interval: for [lo < hi] it evaluates to 0 at [lo], to 1 at [hi], and to
    a value between 0 and 1 wherever the primary result lies between [lo]
    and [hi].  Every normalization range in the catalog has [lo < hi], so
    the divisor of the expression is never zero. *)
Theorem normalization_maps_range_to_unit
    (env : string -> Q) (result : string) (lo hi : Z) (Hlt : (lo < hi)%Z) :
  norm_formula result (lo, hi) = print_expr (rescale result lo hi)
  /\ (inject_Z lo <= env result /\ env result <= inject_Z hi ->
      0 <= eval_expr env (rescale result lo hi)
      /\ eval_expr env (rescale result lo hi) <= 1)
  /\ (env result == inject_Z lo -> eval_expr env (rescale result lo hi) == 0)
  /\ (env result == inject_Z hi -> eval_expr env (rescale result lo hi) == 1)
  /\ (forall k index lo' hi',
         dict_get String.eqb k indices_db = Some index ->
         normalize_range index = Some (lo', hi') -> (lo' < hi')%Z).
Proof.
  assert (Hd : 0 < inject_Z hi - inject_Z lo).
  { rewrite Zlt_Qlt in Hlt. lra. }
  split; [apply norm_formula_rescale|].
  cbn [rescale eval_expr]. split; [|split; [|split]].
  - intros [Hl Hh]. split.
    + apply Qle_shift_div_l; [exact Hd|]. lra.
    + apply Qle_shift_div_r; [exact Hd|]. lra.
  - intros Heq. rewrite Heq. unfold Qdiv.
    setoid_replace (inject_Z lo - inject_Z lo) with 0 by ring. ring.
  - intros Heq. rewrite Heq. unfold Qdiv. apply Qmult_inv_r. lra.
  - intros k index lo' hi' Hget Hr.
    assert (Hcheck :
              forallb
                (fun kv =>
                   match normalize_range (snd kv) with
                   | Some (a, b) => (a <? b)%Z
                   | None => true
                   end)
                indices_db = true)
      by (vm_compute; reflexivity).
    apply dict_get_string_some_in in Hget.
    pose proof (proj1 (forallb_forall _ _) Hcheck _ Hget) as H.
    cbn [snd] in H. rewrite Hr in H. now apply Z.ltb_lt.
Qed.

Lemma normalization_maps_range_to_unit_witness :
  eval_expr (fun _ => 1 # 2) (rescale "out_NDVI" (-1) 1) <= 1.
Proof.
  refine (proj2 (proj1 (proj2
            (normalization_maps_range_to_unit (fun _ => 1 # 2) "out_NDVI"
               (-1) 1 _)) _)).
  - reflexivity.
  - split; discriminate.
Defined.

(** ** The closest band in double precision *)

(** [<] and [<=] on floats that are not NaN follow the rank. *)
Lemma double_compare_rank (a b : Double.float) :
  Double.is_nan a = false -> Double.is_nan b = false ->
  match SFcompare a b with
  | Some Lt => Double.rank_lt (Double.rank a) (Double.rank b)
  | Some Eq => Double.rank a = Double.rank b
  | Some Gt => Double.rank_lt (Double.rank b) (Double.rank a)
  | None => False
  end.
Proof.
  destruct a as [sa|sa| |sa ma ea], b as [sb|sb| |sb mb eb];
    try discriminate; intros _ _;
    try destruct sa; try destruct sb; cbn; try lia; try reflexivity.
  - destruct (Z.compare_spec ea eb) as [He|He|He]; cbn; try lia.
    change (Pos.compare_cont Eq ma mb) with (Pos.compare ma mb).
    destruct (Pos.compare_spec ma mb) as [Hm|Hm|Hm]; cbn; subst;
      try reflexivity; lia.
  - destruct (Z.compare_spec ea eb) as [He|He|He]; cbn; try lia.
    change (Pos.compare_cont Eq ma mb) with (Pos.compare ma mb).
    destruct (Pos.compare_spec ma mb) as [Hm|Hm|Hm]; cbn; subst;
      try reflexivity; lia.
Qed.

Lemma double_ltb_not_nan (a b : Double.float) :
  Double.ltb a b = true -> Double.is_nan a = false /\ Double.is_nan b = false.
Proof.
  destruct a, b; cbn; try discriminate; auto.
Qed.

Lemma double_leb_not_nan (a b : Double.float) :
  Double.leb a b = true -> Double.is_nan a = false /\ Double.is_nan b = false.
Proof.
  destruct a, b; cbn; try discriminate; auto.
Qed.

Lemma double_ltb_rank (a b : Double.float) :
  Double.is_nan a = false -> Double.is_nan b = false ->
  (Double.ltb a b = true <-> Double.rank_lt (Double.rank a) (Double.rank b)).
Proof.
  intros Ha Hb. pose proof (double_compare_rank a b Ha Hb) as H.
  unfold Double.ltb, SFltb.
  destruct (SFcompare a b) as [[| |]|]; [| | |contradiction].
  - rewrite H. split; [discriminate|].
    destruct (Double.rank b) as [[b1 b2] b3]. cbn. lia.
  - tauto.
  - split; [discriminate|].
    destruct (Double.rank a) as [[a1 a2] a3],
      (Double.rank b) as [[b1 b2] b3]. cbn in *. lia.
Qed.

Lemma double_leb_rank (a b : Double.float) :
  Double.is_nan a = false -> Double.is_nan b = false ->
  (Double.leb a b = true <-> Double.rank_le (Double.rank a) (Double.rank b)).
Proof.
  intros Ha Hb. pose proof (double_compare_rank a b Ha Hb) as H.
  unfold Double.leb, SFleb.
  destruct (SFcompare a b) as [[| |]|]; [| | |contradiction].
  - rewrite H. split; [intros _|reflexivity].
    destruct (Double.rank b) as [[b1 b2] b3]. cbn. lia.
  - split; [intros _|reflexivity].
    destruct (Double.rank a) as [[a1 a2] a3],
      (Double.rank b) as [[b1 b2] b3]. cbn in *. lia.
  - split; [discriminate|].
    destruct (Double.rank a) as [[a1 a2] a3],
      (Double.rank b) as [[b1 b2] b3]. cbn in *. lia.
Qed.

Lemma double_ltb_trans (a b c : Double.float) :
  Double.ltb a b = true -> Double.ltb b c = true -> Double.ltb a c = true.
Proof.
  intros Hab Hbc.
  destruct (double_ltb_not_nan a b Hab) as [Ha Hb].
  destruct (double_ltb_not_nan b c Hbc) as [_ Hc].
  apply (double_ltb_rank a b Ha Hb) in Hab.
  apply (double_ltb_rank b c Hb Hc) in Hbc.
  apply (double_ltb_rank a c Ha Hc).
  destruct (Double.rank a) as [[a1 a2] a3], (Double.rank b) as [[b1 b2] b3],
    (Double.rank c) as [[c1 c2] c3]. cbn in *. lia.
Qed.

Lemma double_ltb_leb_trans (a b c : Double.float) :
  Double.ltb a b = true -> Double.leb b c = true -> Double.ltb a c = true.
Proof.
  intros Hab Hbc.
  destruct (double_ltb_not_nan a b Hab) as [Ha Hb].
  destruct (double_leb_not_nan b c Hbc) as [_ Hc].
  apply (double_ltb_rank a b Ha Hb) in Hab.
  apply (double_leb_rank b c Hb Hc) in Hbc.
  apply (double_ltb_rank a c Ha Hc).
  destruct (Double.rank a) as [[a1 a2] a3], (Double.rank b) as [[b1 b2] b3],
    (Double.rank c) as [[c1 c2] c3]. cbn in *. lia.
Qed.

Lemma double_not_ltb_leb (a b : Double.float) :
  Double.is_nan a = false -> Double.is_nan b = false ->
  Double.ltb a b = false -> Double.leb b a = true.
Proof.
  intros Ha Hb Hlt. apply (double_leb_rank b a Hb Ha).
  assert (Hn : ~ Double.rank_lt (Double.rank a) (Double.rank b)).
  { intro H. apply (double_ltb_rank a b Ha Hb) in H. congruence. }
  destruct (Double.rank a) as [[a1 a2] a3], (Double.rank b) as [[b1 b2] b3].
  cbn in *. lia.
Qed.

Lemma double_ltb_leb (a b : Double.float) :
  Double.ltb a b = true -> Double.leb a b = true.
Proof.
  unfold Double.ltb, Double.leb, SFltb, SFleb.
  destruct (SFcompare a b) as [[| |]|]; auto.
Qed.

Lemma double_leb_refl (a : Double.float) :
  Double.is_nan a = false -> Double.leb a a = true.
Proof.
  intros Ha. apply (double_leb_rank a a Ha Ha).
  destruct (Double.rank a) as [[a1 a2] a3]. cbn. lia.
Qed.

Lemma double_leb_antisym (a b : Double.float) :
  Double.leb a b = true -> Double.leb b a = true ->
  SFcompare a b = Some Eq.
Proof.
  intros Hab Hba.
  destruct (double_leb_not_nan a b Hab) as [Ha Hb].
  pose proof (double_compare_rank a b Ha Hb) as H.
  apply (double_leb_rank a b Ha Hb) in Hab.
  apply (double_leb_rank b a Hb Ha) in Hba.
  destruct (SFcompare a b) as [[| |]|]; [reflexivity| | |contradiction];
    exfalso;
    destruct (Double.rank a) as [[a1 a2] a3],
      (Double.rank b) as [[b1 b2] b3]; cbn in *; lia.
Qed.

(** [Double.min_from] keeps the first element of least key, when no key is
    NaN: everything before the result has a strictly larger key, nothing
    after it a smaller one. *)
Lemma double_min_from_first_least {A : Type} (key : A -> Double.float)
    (l : list A) :
  forall (seen : list A) (best : A) (mid : list A),
    Double.is_nan (key best) = false ->
    (forall x, In x l -> Double.is_nan (key x) = false) ->
    (forall x, In x seen -> Double.ltb (key best) (key x) = true) ->
    (forall x, In x mid -> Double.leb (key best) (key x) = true) ->
    exists pre post,
      (seen ++ best :: mid ++ l
       = pre ++ Double.min_from key best l :: post)%list
      /\ (forall x, In x pre ->
            Double.ltb (key (Double.min_from key best l)) (key x) = true)
      /\ (forall x, In x post ->
            Double.leb (key (Double.min_from key best l)) (key x) = true).
Proof.
  induction l as [|x l IH]; intros seen best mid Hbest Hl Hseen Hmid; simpl.
  - exists seen, mid. rewrite app_nil_r. auto.
  - assert (Hx : Double.is_nan (key x) = false) by (apply Hl; now left).
    assert (Hl' : forall y, In y l -> Double.is_nan (key y) = false)
      by (intros y Hy; apply Hl; now right).
    destruct (Double.ltb (key x) (key best)) eqn:E.
    + destruct (IH (seen ++ best :: mid)%list x [] Hx Hl')
        as (pre & post & Heq & Hpre & Hpost).
      * intros y Hy. apply in_app_or in Hy. destruct Hy as [Hy|[Hy|Hy]].
        -- exact (double_ltb_trans _ _ _ E (Hseen y Hy)).
        -- subst y. exact E.
        -- exact (double_ltb_leb_trans _ _ _ E (Hmid y Hy)).
      * intros y [].
      * exists pre, post. split; [|auto].
        rewrite <- Heq. simpl. rewrite <- app_assoc. reflexivity.
    + destruct (IH seen best (mid ++ [x])%list Hbest Hl')
        as (pre & post & Heq & Hpre & Hpost).
      * exact Hseen.
      * intros y Hy. apply in_app_or in Hy. destruct Hy as [Hy|[Hy|[]]].
        -- auto.
        -- subst y. now apply double_not_ltb_leb.
      * exists pre, post. split; [|auto].
        rewrite <- Heq. rewrite <- app_assoc. reflexivity.
Qed.

Lemma double_min_by_first_least {A : Type} (key : A -> Double.float)
    (l : list A) :
  l <> [] ->
  (forall x, In x l -> Double.is_nan (key x) = false) ->
  exists m pre post,
    Double.min_by key l = Some m /\ l = (pre ++ m :: post)%list
    /\ (forall x, In x pre -> Double.ltb (key m) (key x) = true)
    /\ (forall x, In x post -> Double.leb (key m) (key x) = true).
Proof.
  destruct l as [|a l]; [congruence|]. intros _ Hnan.
  destruct (double_min_from_first_least key l [] a [])
    as (pre & post & Heq & Hpre & Hpost).
  - apply Hnan. now left.
  - intros x Hx. apply Hnan. now right.
  - intros x [].
  - intros x [].
  - exists (Double.min_from key a l), pre, post. simpl in *. auto.
Qed.

Lemma double_min_by_least {A : Type} (key : A -> Double.float) (l : list A)
    (m : A) :
  (forall x, In x l -> Double.is_nan (key x) = false) ->
  Double.min_by key l = Some m ->
  In m l /\ forall y, In y l -> Double.leb (key m) (key y) = true.
Proof.
  intros Hnan Hm.
  assert (Hne : l <> []) by (destruct l; [discriminate|discriminate]).
  destruct (double_min_by_first_least key l Hne Hnan)
    as (m' & pre & post & Hm' & Heq & Hpre & Hpost).
  rewrite Hm in Hm'. inversion Hm'; subst m'. clear Hm'.
  assert (Hin : In m l) by (rewrite Heq; apply in_elt).
  split; [exact Hin|].
  intros y Hy. rewrite Heq in Hy. apply in_app_or in Hy.
  destruct Hy as [Hy|[Hy|Hy]].
  - apply double_ltb_leb. now apply Hpre.
  - subst y. apply double_leb_refl. now apply Hnan.
  - now apply Hpost.
Qed.

(** C2, as stated, fails on the code: the wavelengths are floats.  A NaN
    listed first is returned, whatever else is listed; and when two
    wavelengths differ by less than the rounding of the subtraction, the one
    listed first is returned although the other is closer to the midpoint:
    for the range (2195, 2205), whose midpoint is 2200, and the wavelengths
    300 and the next float above 300, the result is 300.  (And a tuple of
    ints whose midpoint is too large for a float gives no wavelength but an
    [OverflowError].) *)
Lemma find_closest_band_not_always_closest :
  Double.find_closest_band (Double.range 620 690)
    [Double.nan; Double.of_int 665; Double.of_int 850]
  = Some Double.nan
  /\ Double.find_closest_band (Double.range 2195 2205)
       [Double.f300; Double.f300_next]
     = Some Double.f300
  /\ Double.target_center (Double.range 2195 2205)
     = Some (Double.of_int 2200)
  /\ Double.value (Double.of_int 2200) == 2200
  /\ Qabs (Double.value Double.f300_next - 2200)
     < Qabs (Double.value Double.f300 - 2200)
  /\ Double.find_closest_band (Double.range (2 ^ 1024) (2 ^ 1024))
       [Double.of_int 665; Double.of_int 850]
     = None.
Proof.
  repeat split; reflexivity.
Qed.

(** C2, amended.  For a target whose centre is computed without overflow,
    as [c] (the midpoint of the range as [(lo + hi) / 2] gives it, or the
    single target value), and a non-empty list of available wavelengths,
    none of which has a NaN as its computed distance, [find_closest_band]
    returns a wavelength of the list whose distance to [c], as computed in
    double precision by [abs(x - target_center)], is least: every
    wavelength listed before it has
    a strictly larger computed distance and none listed after it a smaller
    one, so that among equal computed distances the earliest-listed wins.
    With wavelengths [665, 850] the range (760, 900), of centre 830, gives
    850 and the range (620, 690), of centre 655, gives 665. *)
Theorem find_closest_band_least_computed_distance
    (t : Double.wavelength_target) (c : Double.float)
    (ws : list Double.float)
    (Hc : Double.target_center t = Some c)
    (Hne : ws <> [])
    (Hnan :
       forall x, In x ws ->
         Double.is_nan (Double.abs (Double.sub x c)) = false) :
  (exists w,
      Double.find_closest_band t ws = Some w
      /\ Double.earliest_least (fun x => Double.abs (Double.sub x c)) ws w)
  /\ Double.target_center (Double.range 760 900) = Some (Double.of_int 830)
  /\ Double.target_center (Double.range 620 690) = Some (Double.of_int 655)
  /\ Double.find_closest_band (Double.range 760 900)
       [Double.of_int 665; Double.of_int 850]
     = Some (Double.of_int 850)
  /\ Double.find_closest_band (Double.range 620 690)
       [Double.of_int 665; Double.of_int 850]
     = Some (Double.of_int 665).
Proof.
  split; [|repeat split; reflexivity].
  unfold Double.find_closest_band. rewrite Hc.
  destruct (double_min_by_first_least (Double.distance c) ws Hne Hnan)
    as (m & pre & post & Hm & Heq & Hpre & Hpost).
  exists m. split; [exact Hm|].
  exists pre, post. auto.
Qed.

Lemma find_closest_band_least_computed_distance_witness :
  exists w,
    Double.find_closest_band (Double.range 2195 2205)
      [Double.f300_next; Double.f300; Double.of_int 2450] = Some w
    /\ Double.earliest_least
         (fun x => Double.abs (Double.sub x (Double.of_int 2200)))
         [Double.f300_next; Double.f300; Double.of_int 2450] w.
Proof.
  refine (proj1 (find_closest_band_least_computed_distance
                   (Double.range 2195 2205) (Double.of_int 2200)
                   [Double.f300_next; Double.f300; Double.of_int 2450]
                   _ _ _)).
  - reflexivity.
  - discriminate.
  - intros x [<-|[<-|[<-|[]]]]; reflexivity.
Defined.

(** X2.  The choice of [find_closest_band] depends on the order of the
    wavelengths only through ties of the computed distance: when the target
    centre is computed without overflow and no computed distance is NaN, on
    a rearranged list it returns a wavelength at an equal
    computed distance from the target centre, and the same wavelength when
    no other one is at that computed distance. *)
Theorem find_closest_band_order_only_on_ties
    (t : Double.wavelength_target) (c : Double.float)
    (ws ws' : list Double.float) (w : Double.float)
    (Hc : Double.target_center t = Some c)
    (Hperm : Permutation ws ws')
    (Hnan :
       forall x, In x ws ->
         Double.is_nan (Double.abs (Double.sub x c)) = false)
    (Hclosest : Double.find_closest_band t ws = Some w) :
  exists w',
    Double.find_closest_band t ws' = Some w'
    /\ SFcompare (Double.abs (Double.sub w' c)) (Double.abs (Double.sub w c))
       = Some Eq
    /\ ((forall y, In y ws ->
           SFcompare (Double.abs (Double.sub y c))
             (Double.abs (Double.sub w c)) = Some Eq ->
           y = w) ->
        w' = w).
Proof.
  unfold Double.find_closest_band in *. rewrite Hc in *.
  change (fun x => Double.abs (Double.sub x c)) with (Double.distance c)
    in *.
  fold (Double.distance c w).
  set (key := Double.distance c) in *.
  destruct (double_min_by_least key ws w Hnan Hclosest) as [Hin Hleast].
  assert (Hnan' : forall x, In x ws' -> Double.is_nan (key x) = false).
  { intros x Hx. apply Hnan.
    exact (Permutation_in _ (Permutation_sym Hperm) Hx). }
  assert (Hne : ws' <> []).
  { intro Hnil. subst ws'. apply Permutation_sym, Permutation_nil in Hperm.
    subst ws. destruct Hin. }
  destruct (double_min_by_first_least key ws' Hne Hnan')
    as (w' & _ & _ & Hw' & _).
  destruct (double_min_by_least key ws' w' Hnan' Hw') as [Hin' Hleast'].
  assert (Heq : SFcompare (key w') (key w) = Some Eq).
  { apply double_leb_antisym.
    - apply Hleast'. exact (Permutation_in _ Hperm Hin).
    - apply Hleast. exact (Permutation_in _ (Permutation_sym Hperm) Hin'). }
  exists w'. split; [exact Hw'|]. split; [exact Heq|].
  intros Huniq. apply Huniq; [|exact Heq].
  exact (Permutation_in _ (Permutation_sym Hperm) Hin').
Qed.

Lemma find_closest_band_order_only_on_ties_witness :
  exists w',
    Double.find_closest_band (Double.range 2195 2205)
      [Double.f300_next; Double.f300] = Some w'
    /\ SFcompare (Double.abs (Double.sub w' (Double.of_int 2200)))
         (Double.abs (Double.sub Double.f300 (Double.of_int 2200)))
       = Some Eq
    /\ ((forall y, In y [Double.f300; Double.f300_next] ->
           SFcompare (Double.abs (Double.sub y (Double.of_int 2200)))
             (Double.abs (Double.sub Double.f300 (Double.of_int 2200)))
           = Some Eq ->
           y = Double.f300) ->
        w' = Double.f300).
Proof.
  apply (find_closest_band_order_only_on_ties (Double.range 2195 2205)
           (Double.of_int 2200)
           [Double.f300; Double.f300_next] [Double.f300_next; Double.f300]
           Double.f300).
  - reflexivity.
  - apply perm_swap.
  - intros x [<-|[<-|[]]]; reflexivity.
  - reflexivity.
Defined.
